(** * DualHeadTranslator: the translation resolver and the conversation history

    A shallow embedding of the decision logic of the Streamlit voice
    translator: the dictionary fallback ([backup_translate] of
    streamlit_app_robust.py, [translate_with_dict] of
    streamlit_app_working.py, [translate_with_dictionary] of
    streamlit_app_final.py), the backend chains ([translate] of the working
    and final variants, [translate_text] of the robust variant) and
    [save_to_history] of every variant.

    Conventions.
    - A Python [str] is a sequence of code points.  The development covers
      text over U+0000..U+00FF, one [ascii] per code point; every character
      of the dictionaries (including the German umlauts and the sharp s) lies
      in that range, and [str.lower], [str.strip] and [str.split] are given
      for exactly that range.
    - A Python [dict] is an association list in insertion order with unique
      keys: iteration order decides which phrase matches first.
    - A translation backend is outside the program: a call either raises or
      returns [None] or a [str]. *)

From Stdlib Require Import List Ascii String ZArith Lia Bool Arith.
Import ListNotations.

(** ** Python strings *)

Module PyStr.

Definition str := list ascii.

Definition code (c : ascii) : N := N_of_ascii c.

(** Source literals are UTF-8 in the Python files; [py] reads such a literal
    into code points (two-byte sequences led by 0xC2 or 0xC3 are the code
    points U+0080..U+00FF). *)
Fixpoint decode (bytes : list ascii) : str :=
  match bytes with
  | [] => []
  | a :: rest =>
      match rest with
      | b :: rest' =>
          if (code a =? 195)%N then ascii_of_N (code b + 64) :: decode rest'
          else if (code a =? 194)%N then b :: decode rest'
          else a :: decode rest
      | [] => [a]
      end
  end.

Definition py (literal : string) : str := decode (list_ascii_of_string literal).

Fixpoint eqb (a b : str) : bool :=
  match a, b with
  | [], [] => true
  | x :: a', y :: b' => Ascii.eqb x y && eqb a' b'
  | _, _ => false
  end.

(** [str.isspace] on one code point below U+0100. *)
Definition isspace (c : ascii) : bool :=
  let n := code c in
  ((9 <=? n) && (n <=? 13) || (28 <=? n) && (n <=? 32)
   || (n =? 133) || (n =? 160))%N.

(** [str.lower] on one code point below U+0100: A-Z and the Latin-1 capitals
    (U+00C0..U+00DE without the multiplication sign U+00D7). *)
Definition lower_char (c : ascii) : ascii :=
  let n := code c in
  if ((65 <=? n) && (n <=? 90)
      || (192 <=? n) && (n <=? 222) && negb (n =? 215))%N
  then ascii_of_N (n + 32) else c.

Definition lower (s : str) : str := map lower_char s.

Fixpoint dropwhile (p : ascii -> bool) (s : str) : str :=
  match s with
  | [] => []
  | c :: s' => if p c then dropwhile p s' else s
  end.

Definition lstrip_by (p : ascii -> bool) (s : str) : str := dropwhile p s.
Definition rstrip_by (p : ascii -> bool) (s : str) : str :=
  rev (dropwhile p (rev s)).

(** [s.strip()] *)
Definition strip (s : str) : str := rstrip_by isspace (lstrip_by isspace s).

(** [s.strip(chars)] *)
Definition strip_chars (chars : str) (s : str) : str :=
  let p c := existsb (Ascii.eqb c) chars in
  rstrip_by p (lstrip_by p s).

Fixpoint startswith (p s : str) : bool :=
  match p, s with
  | [], _ => true
  | x :: p', y :: s' => Ascii.eqb x y && startswith p' s'
  | _ :: _, [] => false
  end.

(** [p in s] *)
Fixpoint contains (p s : str) : bool :=
  startswith p s ||
  match s with
  | [] => false
  | _ :: s' => contains p s'
  end.

(** [s.replace(old, new)] for a non-empty [old]: left to right, without
    overlap; [skip] counts the characters of a match still to be dropped. *)
Fixpoint replace_from (old new : str) (skip : nat) (s : str) : str :=
  match s with
  | [] => []
  | c :: s' =>
      match skip with
      | S k => replace_from old new k s'
      | O =>
          if startswith old s
          then new ++ replace_from old new (List.length old - 1) s'
          else c :: replace_from old new 0 s'
      end
  end.

(** [s.replace(old, new)]; an empty [old] matches before every character and
    at the end. *)
Definition replace (old new s : str) : str :=
  match old with
  | [] => new ++ flat_map (fun c => c :: new) s
  | _ :: _ => replace_from old new 0 s
  end.

(** [s.split()]: the maximal runs of non-space characters; [cur] is the
    current run, reversed. *)
Fixpoint split_from (cur : str) (s : str) : list str :=
  match s with
  | [] => match cur with [] => [] | _ :: _ => [rev cur] end
  | c :: s' =>
      if isspace c
      then match cur with
           | [] => split_from [] s'
           | _ :: _ => rev cur :: split_from [] s'
           end
      else split_from (c :: cur) s'
  end.

Definition split (s : str) : list str := split_from [] s.

(** [sep.join(parts)] *)
Fixpoint join (sep : str) (parts : list str) : str :=
  match parts with
  | [] => []
  | [w] => w
  | w :: rest => w ++ sep ++ join sep rest
  end.

(** Truth value of a string: [if s:] *)
Definition truthy (s : str) : bool :=
  match s with [] => false | _ :: _ => true end.

End PyStr.

Import PyStr.

(** ** Python dictionaries with string keys *)

Module PyDict.

Definition dict (V : Type) := list (str * V).

(** [d.get(k)] *)
Fixpoint get {V} (d : dict V) (k : str) : option V :=
  match d with
  | [] => None
  | (k', v) :: d' => if eqb k k' then Some v else get d' k
  end.

(** [d.get(k, default)] *)
Definition get_default {V} (d : dict V) (k : str) (default : V) : V :=
  match get d k with Some v => v | None => default end.

(** [d[k] = v]: an existing key keeps its place, a new one goes last. *)
Fixpoint set {V} (d : dict V) (k : str) (v : V) : dict V :=
  match d with
  | [] => [(k, v)]
  | (k', v') :: d' => if eqb k k' then (k', v) :: d' else (k', v') :: set d' k v
  end.

(** [{v: k for k, v in d.items()}] *)
Definition inverted (d : dict str) : dict str :=
  fold_left (fun acc kv => set acc (snd kv) (fst kv)) d [].

(** A dictionary display of string literals. *)
Definition literal (items : list (string * string)) : dict str :=
  map (fun kv => (py (fst kv), py (snd kv))) items.

End PyDict.

Import PyDict.

(** ** The dictionaries *)

Open Scope string_scope.

Module Robust_data.

(** [setup_backup_translations] of streamlit_app_robust.py. *)
Definition en_de : dict str := literal
  [ ("hello", "hallo"); ("goodbye", "auf wiedersehen"); ("thank you", "danke");
    ("please", "bitte"); ("yes", "ja"); ("no", "nein");
    ("how are you", "wie geht es dir"); ("good morning", "guten morgen");
    ("good evening", "guten abend"); ("excuse me", "entschuldigung");
    ("i love you", "ich liebe dich"); ("where is", "wo ist");
    ("how much", "wie viel"); ("what time", "wie spät");
    ("help me", "hilf mir"); ("i need", "ich brauche"); ("water", "wasser");
    ("food", "essen"); ("bathroom", "badezimmer"); ("hotel", "hotel");
    ("restaurant", "restaurant"); ("train station", "bahnhof");
    ("airport", "flughafen"); ("hospital", "krankenhaus");
    ("emergency", "notfall"); ("police", "polizei") ].

Definition de_en : dict str := literal
  [ ("hallo", "hello"); ("auf wiedersehen", "goodbye"); ("danke", "thank you");
    ("bitte", "please"); ("ja", "yes"); ("nein", "no");
    ("wie geht es dir", "how are you"); ("guten morgen", "good morning");
    ("guten abend", "good evening"); ("entschuldigung", "excuse me");
    ("ich liebe dich", "i love you"); ("wo ist", "where is");
    ("wie viel", "how much"); ("wie spät", "what time");
    ("hilf mir", "help me"); ("ich brauche", "i need"); ("wasser", "water");
    ("essen", "food"); ("badezimmer", "bathroom"); ("hotel", "hotel");
    ("restaurant", "restaurant"); ("bahnhof", "train station");
    ("flughafen", "airport"); ("krankenhaus", "hospital");
    ("notfall", "emergency"); ("polizei", "police") ].

Definition backup_translations : dict (dict str) :=
  [ (py "en-de", en_de); (py "de-en", de_en) ].

End Robust_data.

Module Working_data.

(** [SimpleTranslator.__init__] of streamlit_app_working.py. *)
Definition en_de : dict str := literal
  [ ("hello", "hallo"); ("goodbye", "auf wiedersehen"); ("thank you", "danke");
    ("please", "bitte"); ("yes", "ja"); ("no", "nein");
    ("how are you", "wie geht es dir"); ("good morning", "guten morgen");
    ("good evening", "guten abend"); ("excuse me", "entschuldigung");
    ("i love you", "ich liebe dich"); ("where is", "wo ist");
    ("how much", "wie viel"); ("what time", "wie spät");
    ("help me", "hilf mir"); ("i need", "ich brauche"); ("water", "wasser");
    ("food", "essen"); ("bathroom", "badezimmer"); ("hotel", "hotel");
    ("restaurant", "restaurant"); ("train station", "bahnhof");
    ("airport", "flughafen"); ("hospital", "krankenhaus");
    ("emergency", "notfall"); ("police", "polizei"); ("one", "eins");
    ("two", "zwei"); ("three", "drei"); ("four", "vier"); ("five", "fünf");
    ("six", "sechs"); ("seven", "sieben"); ("eight", "acht"); ("nine", "neun");
    ("ten", "zehn") ].

Definition de_en : dict str := literal
  [ ("hallo", "hello"); ("auf wiedersehen", "goodbye"); ("danke", "thank you");
    ("bitte", "please"); ("ja", "yes"); ("nein", "no");
    ("wie geht es dir", "how are you"); ("guten morgen", "good morning");
    ("guten abend", "good evening"); ("entschuldigung", "excuse me");
    ("ich liebe dich", "i love you"); ("wo ist", "where is");
    ("wie viel", "how much"); ("wie spät", "what time");
    ("hilf mir", "help me"); ("ich brauche", "i need"); ("wasser", "water");
    ("essen", "food"); ("badezimmer", "bathroom"); ("hotel", "hotel");
    ("restaurant", "restaurant"); ("bahnhof", "train station");
    ("flughafen", "airport"); ("krankenhaus", "hospital");
    ("notfall", "emergency"); ("polizei", "police"); ("eins", "one");
    ("zwei", "two"); ("drei", "three"); ("vier", "four"); ("fünf", "five");
    ("sechs", "six"); ("sieben", "seven"); ("acht", "eight"); ("neun", "nine");
    ("zehn", "ten") ].

Definition backup_translations : dict (dict str) :=
  [ (py "en-de", en_de); (py "de-en", de_en) ].

End Working_data.

Module Final_data.

(** [FallbackTranslator.__init__] of streamlit_app_final.py: the English to
    German display, and the reverse dictionary built from it by a dict
    comprehension. *)
Definition en_de : dict str := literal
  [ ("hello", "hallo"); ("hi", "hallo"); ("good morning", "guten morgen");
    ("good afternoon", "guten tag"); ("good evening", "guten abend");
    ("good night", "gute nacht"); ("goodbye", "auf wiedersehen");
    ("bye", "tschüss"); ("see you later", "bis später"); ("please", "bitte");
    ("thank you", "danke"); ("thanks", "danke");
    ("thank you very much", "vielen dank"); ("you are welcome", "bitte schön");
    ("excuse me", "entschuldigung"); ("sorry", "entschuldigung");
    ("pardon", "verzeihung"); ("how are you", "wie geht es dir");
    ("what is your name", "wie heißt du");
    ("where are you from", "woher kommst du");
    ("how old are you", "wie alt bist du");
    ("what time is it", "wie spät ist es"); ("where is", "wo ist");
    ("how much", "wie viel"); ("how many", "wie viele"); ("what", "was");
    ("when", "wann"); ("where", "wo"); ("why", "warum"); ("how", "wie");
    ("who", "wer"); ("yes", "ja"); ("no", "nein"); ("maybe", "vielleicht");
    ("i do not know", "ich weiß nicht"); ("i understand", "ich verstehe");
    ("i do not understand", "ich verstehe nicht");
    ("i speak english", "ich spreche englisch");
    ("do you speak english", "sprechen sie englisch");
    ("i love you", "ich liebe dich"); ("i like it", "es gefällt mir");
    ("help", "hilfe"); ("help me", "hilf mir");
    ("call the police", "rufen sie die polizei");
    ("call a doctor", "rufen sie einen arzt"); ("emergency", "notfall");
    ("hospital", "krankenhaus"); ("police", "polizei");
    ("fire department", "feuerwehr");
    ("where is the bathroom", "wo ist die toilette");
    ("where is the train station", "wo ist der bahnhof");
    ("where is the airport", "wo ist der flughafen");
    ("where is the hotel", "wo ist das hotel");
    ("where is the restaurant", "wo ist das restaurant"); ("left", "links");
    ("right", "rechts"); ("straight", "geradeaus"); ("near", "nah");
    ("far", "weit"); ("water", "wasser"); ("food", "essen"); ("bread", "brot");
    ("meat", "fleisch"); ("fish", "fisch"); ("vegetables", "gemüse");
    ("fruit", "obst"); ("coffee", "kaffee"); ("tea", "tee"); ("beer", "bier");
    ("wine", "wein"); ("milk", "milch"); ("sugar", "zucker"); ("salt", "salz");
    ("one", "eins"); ("two", "zwei"); ("three", "drei"); ("four", "vier");
    ("five", "fünf"); ("six", "sechs"); ("seven", "sieben"); ("eight", "acht");
    ("nine", "neun"); ("ten", "zehn"); ("eleven", "elf"); ("twelve", "zwölf");
    ("twenty", "zwanzig"); ("thirty", "dreißig"); ("forty", "vierzig");
    ("fifty", "fünfzig"); ("hundred", "hundert"); ("thousand", "tausend");
    ("go", "gehen"); ("come", "kommen"); ("see", "sehen"); ("hear", "hören");
    ("speak", "sprechen"); ("eat", "essen"); ("drink", "trinken");
    ("sleep", "schlafen"); ("work", "arbeiten"); ("study", "studieren");
    ("play", "spielen"); ("run", "laufen"); ("walk", "gehen");
    ("buy", "kaufen"); ("sell", "verkaufen"); ("give", "geben");
    ("take", "nehmen"); ("today", "heute"); ("tomorrow", "morgen");
    ("yesterday", "gestern"); ("now", "jetzt"); ("later", "später");
    ("early", "früh"); ("late", "spät"); ("morning", "morgen");
    ("afternoon", "nachmittag"); ("evening", "abend"); ("night", "nacht");
    ("monday", "montag"); ("tuesday", "dienstag"); ("wednesday", "mittwoch");
    ("thursday", "donnerstag"); ("friday", "freitag"); ("saturday", "samstag");
    ("sunday", "sonntag") ].

Definition de_en : dict str := inverted en_de.

Definition backup_translations : dict (dict str) :=
  [ (py "en-de", en_de); (py "de-en", de_en) ].

End Final_data.

Close Scope string_scope.

(** ** What the backends and the user interface contribute *)

(** The outcome of one backend call. *)
Inductive outcome :=
| Raises (e : str)
| Returns (r : option str).

(** The translation methods of a chain, in the order they are tried. *)
Inductive method := DeepTranslator | MyMemory | LibreTranslate | Dictionary.

(** What a call of [translate] does besides returning: the methods it invokes
    and the Streamlit messages it shows. *)
Inductive event :=
| Called (m : method)
| Warning (msg : str)
| Info (msg : str)
| Error (msg : str)
| Success (msg : str)
| Say (text : str).

(** [MockTranslation] of the working and final variants. *)
Record MockTranslation := { text : str; src : str; dest : str }.

(** [translation.text], under a name that no parameter hides. *)
Definition result_text (translation : MockTranslation) : str :=
  text translation.

(** The dictionary that [translate_text] builds for one translation; the key
    'is_backup' exists in the robust variant only, and the time stamp
    [datetime.now()] is a point on the time line. *)
Record TranslationResult := {
  original_text : str;
  translated_text : str;
  source_lang : str;
  target_lang : str;
  timestamp : Z;
  is_backup : option bool
}.

(** [==] on two such dictionaries. *)
Definition result_eqb (a b : TranslationResult) : bool :=
  eqb (original_text a) (original_text b)
  && eqb (translated_text a) (translated_text b)
  && eqb (source_lang a) (source_lang b)
  && eqb (target_lang a) (target_lang b)
  && (timestamp a =? timestamp b)%Z
  && match is_backup a, is_backup b with
     | Some x, Some y => Bool.eqb x y
     | None, None => true
     | _, _ => false
     end.

(** [x in xs] / [x not in xs] on a list of such dictionaries. *)
Definition result_in (x : TranslationResult) (xs : list TranslationResult)
  : bool := existsb (result_eqb x) xs.

(** [xs[-n:]] *)
Definition last_n {A} (n : nat) (xs : list A) : list A :=
  skipn (List.length xs - n) xs.

(** [st.session_state] *)
Record session_stats_t := {
  translations_count : Z;
  session_start : Z;
  total_words : Z
}.

Record session_state := {
  conversation_history : list TranslationResult;
  source_language : str;
  target_language : str;
  current_translation : option TranslationResult;
  session_stats : session_stats_t
}.

Definition set_conversation_history (st : session_state)
    (h : list TranslationResult) : session_state :=
  {| conversation_history := h;
     source_language := source_language st;
     target_language := target_language st;
     current_translation := current_translation st;
     session_stats := session_stats st |}.

Definition set_current_translation (st : session_state)
    (r : option TranslationResult) : session_state :=
  {| conversation_history := conversation_history st;
     source_language := source_language st;
     target_language := target_language st;
     current_translation := r;
     session_stats := session_stats st |}.

Definition set_session_stats (st : session_state) (s : session_stats_t)
  : session_state :=
  {| conversation_history := conversation_history st;
     source_language := source_language st;
     target_language := target_language st;
     current_translation := current_translation st;
     session_stats := s |}.

(** [update_session_stats] ([update_stats] in the final variant), the same
    in every variant. *)
Definition update_session_stats (text : str) (st : session_state)
  : session_state :=
  let s := session_stats st in
  set_session_stats st
    {| translations_count := translations_count s + 1;
       session_start := session_start s;
       total_words := total_words s + Z.of_nat (List.length (split text)) |}.

(** A chain of attempts with early [return]: the events so far, and either
    the value already returned or the value to go on with. *)
Definition chain (A : Type) : Type := list event * (MockTranslation + A).

Definition skip : chain unit := ([], inr tt).
Definition log (e : event) : chain unit := ([e], inr tt).
Definition return_ (m : MockTranslation) : chain unit := ([], inl m).

Definition andthen (c : chain unit) (k : chain unit) : chain unit :=
  match c with
  | (evs, inl m) => (evs, inl m)
  | (evs, inr _) => let '(evs', r) := k in (evs ++ evs', r)
  end.

Notation "c ;; k" := (andthen c k) (at level 61, right associativity).

(** The end of the function body: the value returned on the way, or else the
    value of the last [return]. *)
Definition or_finally (c : chain unit) (m : MockTranslation)
  : list event * MockTranslation :=
  match c with
  | (evs, inl returned) => (evs, returned)
  | (evs, inr _) => (evs, m)
  end.

(** ** streamlit_app_working.py *)

Module Working.

Section SimpleTranslator.

(** [self.backup_translations] *)
Variable backup_translations : dict (dict str).

(** The two network methods, as the surroundings answer them. *)
Variable translate_with_mymemory : str -> str -> str -> outcome.
Variable translate_with_libre : str -> str -> str -> outcome.

(** The loop "for phrase, translation in translations.items()" of
    [translate_with_dict]: the first phrase found in the text decides. *)
Fixpoint partial_match (items : list (str * str)) (text_lower : str)
  : option str :=
  match items with
  | [] => None
  | (phrase, translation) :: rest =>
      if contains phrase text_lower
      then Some (replace phrase translation text_lower)
      else partial_match rest text_lower
  end.

(** The loop "for word in words" of [translate_with_dict]. *)
Definition word_by_word (translations : dict str) (words : list str)
  : list str :=
  fold_left
    (fun translated_words word =>
       let translated := get_default translations word word in
       translated_words ++ [translated])
    words [].

Definition translate_with_dict (text src dest : str) : str :=
  let key := src ++ py "-" ++ dest in
  let translations := get_default backup_translations key [] in
  let text_lower := strip (lower text) in
  match get translations text_lower with
  | Some translation => translation
  | None =>
      match partial_match translations text_lower with
      | Some replaced => replaced
      | None =>
          let words := split text_lower in
          let translated_words := word_by_word translations words in
          let result := join (py " ") translated_words in
          if eqb result text_lower
          then py "[Translation needed: " ++ text ++ py "]"
          else result
      end
  end.

(** One "try: ... if result: return MockTranslation(result, src, dest)
    except: pass" block of [translate]. *)
Definition attempt (m : method) (call : outcome) (src dest : str)
  : chain unit :=
  log (Called m) ;;
  match call with
  | Raises _ => skip
  | Returns None => skip
  | Returns (Some result) =>
      if truthy result then return_ (Build_MockTranslation result src dest)
      else skip
  end.

Definition translate (text src dest : str) : list event * MockTranslation :=
  or_finally
    (attempt MyMemory (translate_with_mymemory text src dest) src dest ;;
     attempt LibreTranslate (translate_with_libre text src dest) src dest ;;
     log (Called Dictionary))
    (Build_MockTranslation (translate_with_dict text src dest) src dest).

End SimpleTranslator.

(** [VoiceTranslatorApp.save_to_history]: no guard against duplicates. *)
Definition save_to_history (translation : TranslationResult)
    (st : session_state) : session_state :=
  let history := conversation_history st ++ [translation] in
  if 50 <? List.length history
  then set_conversation_history st (last_n 50 history)
  else set_conversation_history st history.

End Working.

(** ** streamlit_app_final.py *)

Module Final.

Section FallbackTranslator.

(** [self.backup_translations] *)
Variable backup_translations : dict (dict str).

(** The module flag set by the import of deep_translator, and the three
    network methods, as the surroundings answer them. *)
Variable DEEP_TRANSLATOR_AVAILABLE : bool.
Variable translate_with_deep_translator : str -> str -> str -> outcome.
Variable translate_with_mymemory : str -> str -> str -> outcome.
Variable translate_with_libretranslate : str -> str -> str -> outcome.

(** One round of the loop "for phrase, translation in translations.items()"
    of [translate_with_dictionary]; the state is [(best_match, text_lower)],
    and [text_lower] is rewritten inside the loop. *)
Definition partial_step (state : str * str) (item : str * str) : str * str :=
  let '(best_match, text_lower) := state in
  let '(phrase, translation) := item in
  if contains phrase text_lower then
    if List.length best_match <? List.length phrase
    then (phrase, replace phrase translation text_lower)
    else state
  else state.

Definition partial_matches (translations : dict str) (text_lower : str)
  : str * str :=
  fold_left partial_step translations ([], text_lower).

(** The characters of the literal given to [word.strip]: . , ! ? ; : the
    double quote ( ) [ ] *)
Definition punctuation : str :=
  py ".,!?;:" ++ [ascii_of_N 34] ++ py "()[]".

(** The loop "for word in words" of [translate_with_dictionary]. *)
Definition word_by_word (translations : dict str) (words : list str)
  : list str :=
  fold_left
    (fun translated_words word =>
       let clean_word := strip_chars punctuation word in
       match get translations clean_word with
       | Some translation => translated_words ++ [translation]
       | None => translated_words ++ [word]
       end)
    words [].

Definition translate_with_dictionary (text src dest : str) : str :=
  let key := src ++ py "-" ++ dest in
  let translations := get_default backup_translations key [] in
  let text_lower := strip (lower text) in
  match get translations text_lower with
  | Some translation => translation
  | None =>
      let '(best_match, text_lower) :=
        partial_matches translations text_lower in
      if truthy best_match then text_lower
      else
        let words := split text_lower in
        let translated_words := word_by_word translations words in
        let result := join (py " ") translated_words in
        if eqb result text_lower
        then py "[Need translation: " ++ text ++ py "]"
        else result
  end.

(** One "try: ... if result and result != text: return MockTranslation(...)
    except Exception as e: ..." block of [translate]. *)
Definition attempt (m : method) (call : outcome) (on_error : str -> event)
    (text src dest : str) : chain unit :=
  log (Called m) ;;
  match call with
  | Raises e => log (on_error e)
  | Returns None => skip
  | Returns (Some result) =>
      if truthy result && negb (eqb result text)
      then return_ (Build_MockTranslation result src dest)
      else skip
  end.

Definition translate (text src dest : str) : list event * MockTranslation :=
  if negb (truthy text) || negb (truthy (strip text))
  then ([], Build_MockTranslation [] src dest)
  else
    or_finally
      ((if DEEP_TRANSLATOR_AVAILABLE
        then attempt DeepTranslator
               (translate_with_deep_translator text src dest)
               (fun e => Warning (py "Deep Translator failed: " ++ e))
               text src dest
        else skip) ;;
       attempt MyMemory (translate_with_mymemory text src dest)
         (fun e => Warning (py "MyMemory API failed: " ++ e))
         text src dest ;;
       attempt LibreTranslate (translate_with_libretranslate text src dest)
         (fun _ =>
            Info (py "LibreTranslate not available, using dictionary fallback"))
         text src dest ;;
       log (Called Dictionary))
      (Build_MockTranslation
         (translate_with_dictionary text src dest) src dest).

End FallbackTranslator.

(** [VoiceTranslatorApp.save_to_history] *)
Definition save_to_history (translation : TranslationResult)
    (st : session_state) : session_state :=
  if negb (result_in translation (conversation_history st)) then
    let history := conversation_history st ++ [translation] in
    if 50 <? List.length history
    then set_conversation_history st (last_n 50 history)
    else set_conversation_history st history
  else st.

End Final.

(** ** streamlit_app_simple.py *)

Module Simple.

(** The loop "for item in st.session_state.conversation_history" of
    [save_to_history]: is there an entry with the same original and the same
    translated text? *)
Definition already_in_history (translation : TranslationResult)
    (history : list TranslationResult) : bool :=
  existsb
    (fun item =>
       eqb (original_text item) (original_text translation)
       && eqb (translated_text item) (translated_text translation))
    history.

Definition save_to_history (translation : TranslationResult)
    (st : session_state) : session_state :=
  if already_in_history translation (conversation_history st) then st
  else
    let history := conversation_history st ++ [translation] in
    if 100 <? List.length history
    then set_conversation_history st (last_n 100 history)
    else set_conversation_history st history.

End Simple.

(** ** streamlit_app_robust.py *)

Module Robust.

(** The value of the module variable [translation_service] when a service
    was found at start-up. *)
Inductive service := deep_translator | translate | mymemory.

Section VoiceTranslatorApp.

(** [self.backup_translations], [self.services['translation']],
    [self.services['tts']] and the module variable [translation_service]. *)
Variable backup_translations : dict (dict str).
Variable services_translation : bool.
Variable services_tts : bool.
Variable translation_service : option service.

(** The surroundings: [GoogleTranslator(source, target).translate(text)],
    [Translator(from_lang, to_lang).translate(text)], the exchange with the
    MyMemory API inside [translate_with_mymemory] (it raises, or yields the
    translated text of a reply with status 200, or nothing), and the speech
    engine ([None]: it spoke; [Some e]: it raised [e]). *)
Variable GoogleTranslator_translate : str -> str -> str -> outcome.
Variable Translator_translate : str -> str -> str -> outcome.
Variable mymemory_exchange : str -> str -> str -> outcome.
Variable tts_say : str -> option str.

(** The loop "for original, translated in translations.items()" of
    [backup_translate]; the replacement is made in [text.lower()], not in
    the stripped [text_lower]. *)
Fixpoint partial_match (items : list (str * str)) (text text_lower : str)
  : option str :=
  match items with
  | [] => None
  | (original, translated) :: rest =>
      if contains original text_lower
      then Some (replace original translated (lower text))
      else partial_match rest text text_lower
  end.

Definition backup_translate (st : session_state) (text : str) : str :=
  let key := source_language st ++ py "-" ++ target_language st in
  let translations := get_default backup_translations key [] in
  let text_lower := strip (lower text) in
  match get translations text_lower with
  | Some translated => translated
  | None =>
      match partial_match translations text text_lower with
      | Some replaced => replaced
      | None => py "[Translation needed: " ++ text ++ py "]"
      end
  end.

(** [translate_with_mymemory]: every exception is caught and logged, and
    [None] is returned. *)
Definition translate_with_mymemory (st : session_state) (text : str)
  : option str :=
  match mymemory_exchange (source_language st) (target_language st) text with
  | Raises _ => None
  | Returns r => r
  end.

(** [speak_text]; the messages are given without their emoji. *)
Definition speak_text (text language : str) : list event :=
  if negb services_tts then [Warning (py "Text-to-speech not available")]
  else
    match tts_say text with
    | None => [Say text]
    | Some e => [Error (py "Speech failed: " ++ e)]
    end.

Definition save_to_history (translation : TranslationResult)
    (st : session_state) : session_state :=
  if negb (result_in translation (conversation_history st)) then
    let history := conversation_history st ++ [translation] in
    if 50 <? List.length history
    then set_conversation_history st (last_n 50 history)
    else set_conversation_history st history
  else st.

(** The first part of the "try" block of [translate_text]: what the selected
    service answers; an exception leaves the block. *)
Definition service_answer (st : session_state) (text : str) : outcome :=
  if services_translation then
    match translation_service with
    | Some deep_translator =>
        GoogleTranslator_translate
          (source_language st) (target_language st) text
    | Some translate =>
        Translator_translate (source_language st) (target_language st) text
    | Some mymemory => Returns (translate_with_mymemory st text)
    | None => Returns None
    end
  else Returns None.

(** [translate_text]; [now] is the value of [datetime.now()]. *)
Definition translate_text (now : Z) (text : str) (st : session_state)
  : session_state * list event :=
  match service_answer st text with
  | Raises e => (st, [Error (py "Translation error: " ++ e)])
  | Returns answer =>
      let '(translated_text, is_backup) :=
        match answer with
        | Some t => if truthy t then (t, false)
                    else (backup_translate st text, true)
        | None => (backup_translate st text, true)
        end in
      if truthy translated_text then
        let result :=
          {| original_text := text;
             translated_text := translated_text;
             source_lang := source_language st;
             target_lang := target_language st;
             timestamp := now;
             is_backup := Some is_backup |} in
        let st := set_current_translation st (Some result) in
        let st := update_session_stats text st in
        let st := save_to_history result st in
        (st,
         Success (py "Translation complete!")
         :: (if services_tts
             then speak_text translated_text (target_language st)
             else []))
      else (st, [Error (py "Translation failed")])
  end.

End VoiceTranslatorApp.

End Robust.

(** ** The resolver as the specification words it

    These definitions follow the text of the specification, not the code;
    the theorems below compare the code with them. *)

Module Spec.

(** The sentinel of section 3. *)
Definition sentinel (text : str) : str :=
  py "[Translation needed: " ++ text ++ py "]".

(** Step 2b: a result is acceptable when it is non-empty and not identical
    to the input. *)
Definition acceptable (text result : str) : bool :=
  truthy result && negb (eqb result text).

(** Step 2: the first backend, in priority order, whose answer is accepted. *)
Fixpoint first_accepted (accept : str -> bool)
    (answers : list (method * outcome)) : option str :=
  match answers with
  | [] => None
  | (_, Returns (Some r)) :: rest =>
      if accept r then Some r else first_accepted accept rest
  | (_, _) :: rest => first_accepted accept rest
  end.

(** Step 2: the methods tried, in order, when the chain stops at the first
    accepted answer and ends in the dictionary otherwise. *)
Fixpoint methods_tried (accept : str -> bool)
    (answers : list (method * outcome)) : list method :=
  match answers with
  | [] => [Dictionary]
  | (m, Returns (Some r)) :: rest =>
      if accept r then [m] else m :: methods_tried accept rest
  | (m, _) :: rest => m :: methods_tried accept rest
  end.




(** Step 3c: every token is looked up with its surrounding punctuation
    stripped; a token without an entry stays as it is; single spaces join
    the results. *)
Definition translate_token (translations : dict str) (word : str) : str :=
  match get translations (strip_chars Final.punctuation word) with
  | Some translation => translation
  | None => word
  end.

Definition word_step (translations : dict str) (text_lower : str) : str :=
  join (py " ") (map (translate_token translations) (split text_lower)).

End Spec.

(** ** Reading a trace *)

(** The methods a call invoked, in order. *)
Fixpoint methods_called (evs : list event) : list method :=
  match evs with
  | [] => []
  | Called m :: rest => m :: methods_called rest
  | _ :: rest => methods_called rest
  end.

Definition method_eqb (a b : method) : bool :=
  match a, b with
  | DeepTranslator, DeepTranslator | MyMemory, MyMemory
  | LibreTranslate, LibreTranslate | Dictionary, Dictionary => true
  | _, _ => false
  end.

(** Step 4 of the specification: the result is a fallback result when the
    dictionary (step 3) was reached. *)
Definition is_fallback (evs : list event) : bool :=
  existsb (method_eqb Dictionary) (methods_called evs).

(** The network backends among the methods invoked. *)
Definition backends_invoked (evs : list event) : list method :=
  filter (fun m => negb (method_eqb Dictionary m)) (methods_called evs).

(** A backend that is not available: the call raises or yields nothing. *)
Definition unavailable (o : outcome) : Prop :=
  match o with
  | Raises _ => True
  | Returns None => True
  | Returns (Some _) => False
  end.

(** The language pair key of the outer dictionary. *)
Definition pair_key (src dest : str) : str := src ++ py "-" ++ dest.

(** The session at start-up ([setup_session_state]); [start] is the time. *)
Definition initial_session (start : Z) : session_state :=
  {| conversation_history := [];
     source_language := py "en";
     target_language := py "de";
     current_translation := None;
     session_stats :=
       {| translations_count := 0; session_start := start; total_words := 0 |}
  |}.

(** No phrase of the dictionary occurs in the text: neither the exact match
    nor the substring match of the fallback applies. *)
Definition no_phrase_occurs (translations : dict str) (text_lower : str)
  : Prop :=
  Forall (fun item => contains (fst item) text_lower = false) translations.

(** Every value of every dictionary is a non-empty string. *)
Definition values_nonempty (backup_translations : dict (dict str)) : Prop :=
  Forall (fun pair => Forall (fun item => snd item <> []) (snd pair))
    backup_translations.

(** Every translation result the session holds has a non-empty translated
    text. *)
Definition results_nonempty (st : session_state) : Prop :=
  (forall r, current_translation st = Some r -> translated_text r <> [])
  /\ Forall (fun r => translated_text r <> []) (conversation_history st).

(** A chain that has returned has returned a non-empty text. *)
Definition returns_nonempty (c : chain unit) : Prop :=
  match c with
  | (_, inl m) => result_text m <> []
  | (_, inr _) => True
  end.

(** [save_to_history] after its guard: append, then keep the last [cap]
    entries. *)
Definition capped_append (cap : nat) (history : list TranslationResult)
    (translation : TranslationResult) : list TranslationResult :=
  let history := history ++ [translation] in
  if cap <? List.length history then last_n cap history else history.

(** A sequence of calls of [save_to_history], the first call first. *)
Definition after_saves
    (save : TranslationResult -> session_state -> session_state)
    (translations : list TranslationResult) (st : session_state)
  : session_state :=
  fold_left (fun st translation => save translation st) translations st.

(** The history never grows beyond [cap], whatever is saved. *)
Definition never_exceeds (cap : nat)
    (save : TranslationResult -> session_state -> session_state) : Prop :=
  forall translations st,
    List.length (conversation_history st) <= cap ->
    List.length (conversation_history (after_saves save translations st))
    <= cap.

(** The records of a history are told apart by the guard of the variant:
    no two of them are equal (robust, final), or no two of them have the
    same original and the same translated text (simple). *)
Definition distinct_records (l : list TranslationResult) : Prop := NoDup l.

Definition distinct_texts (l : list TranslationResult) : Prop :=
  NoDup (map (fun r => (original_text r, translated_text r)) l).

(** The working variant has no guard and stores whatever it is given. *)
Definition any_records (l : list TranslationResult) : Prop := True.

(** Records that the guard of the variant lets through, saved one after the
    other into a history within the cap, are all appended, and what is
    dropped is dropped from the old end: the history afterwards is the last
    [cap] entries of the old history followed by the saved records, in the
    order of their insertion. *)
Definition drops_oldest (cap : nat)
    (admitted : list TranslationResult -> Prop)
    (save : TranslationResult -> session_state -> session_state) : Prop :=
  forall translations st,
    List.length (conversation_history st) <= cap ->
    admitted (conversation_history st ++ translations) ->
    conversation_history (after_saves save translations st)
    = last_n cap (conversation_history st ++ translations).

(** Saving a record that the history already holds changes nothing. *)
Definition ignores_duplicates
    (save : TranslationResult -> session_state -> session_state) : Prop :=
  forall translation st,
    In translation (conversation_history st) -> save translation st = st.

(** No sequence of calls puts two equal records into the history. *)
Definition keeps_distinct
    (save : TranslationResult -> session_state -> session_state) : Prop :=
  forall translations st,
    NoDup (conversation_history st) ->
    NoDup (conversation_history (after_saves save translations st)).

(** The records of a test session: the text "phrase" followed by [n] marks,
    translated at time [n]. *)
Definition sample_result (n : nat) : TranslationResult :=
  {| original_text := py "phrase" ++ repeat "!"%char n;
     translated_text := py "satz" ++ repeat "!"%char n;
     source_lang := py "en";
     target_lang := py "de";
     timestamp := Z.of_nat n;
     is_backup := Some true |}.



(** A backend behind a network that is down. *)
Definition no_network : str -> str -> str -> outcome :=
  fun _ _ _ => Raises (py "ConnectionError").

(** A backend that answers nothing. *)
Definition no_answer : str -> str -> str -> outcome :=
  fun _ _ _ => Returns None.

(** A backend that hands the text back as it got it. *)
Definition echo : str -> str -> str -> outcome :=
  fun text _ _ => Returns (Some text).

(** The selected service gave nothing to work with: [None] or the empty
    string, which [translate_text] of the robust variant treats alike. *)
Definition yields_nothing (o : outcome) : Prop :=
  o = Returns None \/ o = Returns (Some []).

(** The answers of the backends of a chain, in the order of the chain. *)
Definition final_answers (deep_available : bool)
    (deep mymemory libre : str -> str -> str -> outcome)
    (text src dest : str) : list (method * outcome) :=
  (if deep_available then [(DeepTranslator, deep text src dest)] else [])
  ++ [ (MyMemory, mymemory text src dest);
       (LibreTranslate, libre text src dest) ].

Definition working_answers
    (mymemory libre : str -> str -> str -> outcome)
    (text src dest : str) : list (method * outcome) :=
  [ (MyMemory, mymemory text src dest);
    (LibreTranslate, libre text src dest) ].

(** Unfold the specification of the chain on a list of answers that is
    known, then decide every test on an answer. *)
Ltac expose_answers :=
  cbv beta iota delta
    [Spec.first_accepted Spec.methods_tried Spec.acceptable app].

Ltac decide_answers :=
  repeat match goal with
         | |- context [truthy ?r] => is_var r; destruct (truthy r)
         | |- context [eqb ?r ?t] => is_var r; destruct (eqb r t)
         end.

(** ** The network methods, reply by reply

    What [requests] and [response.json()] hand to the translation methods.
    A number that is a float is known by the integer it equals, if any:
    that decides both [== 200] and the truth value. *)

Module Http.

#[local] Unset Elimination Schemes.

Inductive json :=
| JNull
| JBool (b : bool)
| JInt (n : Z)
| JFloat (integral : option Z)
| JStr (s : str)
| JList (items : list json)
| JDict (members : list (str * json)).

#[local] Set Elimination Schemes.

(** The end of [requests.get] / [requests.post]: an exception, or a response
    with its status code and its body ([None]: the body is not JSON, and
    [response.json()] raises). *)
Inductive reply :=
| ConnectionError (e : str)
| Response (status_code : Z) (body : option json).

(** A step that may raise: [None] stands for the exception. *)
Definition raising (A : Type) : Type := option A.

Definition bind {A B} (c : raising A) (k : A -> raising B) : raising B :=
  match c with
  | Some x => k x
  | None => None
  end.

Notation "'let*' x ':=' c 'in' k" := (bind c (fun x => k))
  (at level 10, x name, c at level 100, k at level 200).

(** "try: ... except: pass" followed by "return None". *)
Definition or_none (c : raising json) : json :=
  match c with
  | Some v => v
  | None => JNull
  end.

(** [requests.get(...)]: the response, or the exception. *)
Definition request (r : reply) : raising (Z * option json) :=
  match r with
  | ConnectionError _ => None
  | Response status_code body => Some (status_code, body)
  end.

(** [data.get(key)]: only a dict has the method. *)
Definition get_method (data : json) (key : str) : raising json :=
  match data with
  | JDict members => Some (get_default members key JNull)
  | _ => None
  end.

(** [data[key]] with a string key: [KeyError] on a dict without the key,
    [TypeError] on everything else. *)
Definition getitem (data : json) (key : str) : raising json :=
  match data with
  | JDict members => get members key
  | _ => None
  end.

(** [key in data] with a string key: the keys of a dict, the elements of a
    list, the substrings of a string; [TypeError] on everything else. *)
Definition contains_key (key : str) (data : json) : raising bool :=
  match data with
  | JDict members =>
      Some (match get members key with Some _ => true | None => false end)
  | JList items =>
      Some (existsb
              (fun item =>
                 match item with JStr s => eqb s key | _ => false end)
              items)
  | JStr s => Some (contains key s)
  | _ => None
  end.

(** [value.lower()]: only a string has the method. *)
Definition lower_method (value : json) : raising str :=
  match value with
  | JStr s => Some (lower s)
  | _ => None
  end.

(** [value == n] for an integer [n]. *)
Definition equals_int (value : json) (n : Z) : bool :=
  match value with
  | JInt m => (m =? n)%Z
  | JFloat (Some m) => (m =? n)%Z
  | JBool b => ((if b then 1 else 0) =? n)%Z
  | _ => false
  end.

End Http.

(** [translate_with_mymemory] and [translate_with_libretranslate] of
    streamlit_app_final.py; the reply is what the network gives for the
    request built from the text and the language pair. *)
Module FinalBackends.

Import Http.

Definition artifacts : list str := [py "hello"; py "quota"; py "limit"].

Definition translate_with_mymemory (r : reply) : json :=
  or_none
    (let* response := request r in
     let '(status_code, body) := response in
     if (status_code =? 200)%Z then
       let* data := body in
       let* status := get_method data (py "responseStatus") in
       if equals_int status 200 then
         let* responseData := getitem data (py "responseData") in
         let* translated := getitem responseData (py "translatedText") in
         let* lowered := lower_method translated in
         if negb (existsb (fun phrase => contains phrase lowered) artifacts)
         then Some translated
         else Some JNull
       else Some JNull
     else Some JNull).

Definition translate_with_libretranslate (r : reply) : json :=
  or_none
    (let* response := request r in
     let '(status_code, body) := response in
     if (status_code =? 200)%Z then
       let* result := body in
       let* present := contains_key (py "translatedText") result in
       if present then getitem result (py "translatedText")
       else Some JNull
     else Some JNull).

End FinalBackends.

(** [translate_with_mymemory] and [translate_with_libre] of
    streamlit_app_working.py. *)
Module WorkingBackends.

Import Http.

Definition translate_with_mymemory (r : reply) : json :=
  or_none
    (let* response := request r in
     let '(_, body) := response in
     let* data := body in
     let* status := get_method data (py "responseStatus") in
     if equals_int status 200 then
       let* responseData := getitem data (py "responseData") in
       getitem responseData (py "translatedText")
     else Some JNull).

Definition translate_with_libre (r : reply) : json :=
  or_none
    (let* response := request r in
     let '(_, body) := response in
     let* result := body in
     let* present := contains_key (py "translatedText") result in
     if present then getitem result (py "translatedText")
     else Some JNull).

End WorkingBackends.

(** ** The applications around the resolver *)

Definition set_languages (st : session_state) (source target : str)
  : session_state :=
  {| conversation_history := conversation_history st;
     source_language := source;
     target_language := target;
     current_translation := current_translation st;
     session_stats := session_stats st |}.

(** [clear_session], the same in every variant; [now] is the value of
    [datetime.now()].  The call of [st.rerun()] that ends it hands control
    back to Streamlit and leaves the session as it is. *)
Definition clear_session (now : Z) (st : session_state) : session_state :=
  {| conversation_history := [];
     source_language := source_language st;
     target_language := target_language st;
     current_translation := None;
     session_stats :=
       {| translations_count := 0; session_start := now; total_words := 0 |}
  |}.

(** What the microphone and the speech recogniser give to
    [record_and_translate]: [sr.WaitTimeoutError], [sr.UnknownValueError],
    [sr.RequestError], another exception, or the text that was heard. *)
Inductive hearing :=
| NoSpeech
| NotUnderstood
| ServiceError (e : str)
| RecordingFailed (e : str)
| Heard (text : str).

(** "recent = list(reversed(history[-n:]))" of [render_conversation_history]
    (n is 5 in the final, robust and working variants, 10 in the simple
    one). *)
Definition recent (n : nat) (history : list TranslationResult)
  : list TranslationResult :=
  rev (last_n n history).

(** The preview of an entry in [render_conversation_history] of the final
    variant: "text[:40] + '...' if len(text) > 40 else text". *)
Definition preview (original : str) : str :=
  if 40 <? List.length original then firstn 40 original ++ py "..."
  else original.

(** [FallbackTranslator.__init__] of streamlit_app_final.py: the reverse
    dictionary is built from the English to German one. *)
Definition FallbackTranslator_init (en_de : dict str) : dict (dict str) :=
  [ (py "en-de", en_de); (py "de-en", inverted en_de) ].

(** ** The application of streamlit_app_final.py *)

Module FinalApp.

(** What one interaction meets outside the session: the flag and the
    answers of the backends, whether the speech engine was set up, and what
    it does with a text ([None]: it speaks; [Some e]: it raises [e]). *)
Record world := {
  DEEP_TRANSLATOR_AVAILABLE : bool;
  translate_with_deep_translator : str -> str -> str -> outcome;
  translate_with_mymemory : str -> str -> str -> outcome;
  translate_with_libretranslate : str -> str -> str -> outcome;
  services_status_speech_recognition : bool;
  services_status_tts : bool;
  tts_say : str -> option str
}.

(** [speak_text]; the messages are given without their emoji. *)
Definition speak_text (w : world) (text : str) : list event :=
  if negb (services_status_tts w)
  then [Info (py "Audio playback available after installing: `pip install pyttsx3`")]
  else
    match tts_say w text with
    | None => [Say text]
    | Some e => [Error (py "Speech failed: " ++ e)]
    end.

(** [translate_text]: [self.translator] is a [FallbackTranslator] with the
    dictionaries of the program. *)
Definition translate_text (w : world) (now : Z) (text : str)
    (st : session_state) : session_state * list event :=
  let '(evs, translation) :=
    Final.translate Final_data.backup_translations
      (DEEP_TRANSLATOR_AVAILABLE w) (translate_with_deep_translator w)
      (translate_with_mymemory w) (translate_with_libretranslate w)
      text (source_language st) (target_language st) in
  let result :=
    {| original_text := text;
       translated_text := result_text translation;
       source_lang := source_language st;
       target_lang := target_language st;
       timestamp := now;
       is_backup := None |} in
  let st := set_current_translation st (Some result) in
  let st := update_session_stats text st in
  let st := Final.save_to_history result st in
  (st,
   evs ++ Success (py "Translation completed!")
   :: (if services_status_tts w
       then speak_text w (result_text translation)
       else [])).

(** The "Translate" button of [render_main_interface]. *)
Definition translate_button (w : world) (now : Z) (text_input : str)
    (st : session_state) : session_state * list event :=
  if truthy (strip text_input)
  then translate_text w now (strip text_input) st
  else (st, [Warning (py "Please enter some text to translate")]).

(** The phrases of [render_quick_phrases]. *)
Definition phrases : dict (list str) :=
  [ (py "en",
     map py [ "Hello"; "Thank you"; "Please"; "Excuse me"; "How are you?";
              "Where is the bathroom?"; "How much?"; "I need help";
              "Do you speak English?"; "I don't understand" ]%string);
    (py "de",
     map py [ "Hallo"; "Danke"; "Bitte"; "Entschuldigung";
              "Wie geht es dir?"; "Wo ist die Toilette?"; "Wie viel?";
              "Ich brauche Hilfe"; "Sprechen Sie Englisch?";
              "Ich verstehe nicht" ]%string) ].

(** "current_phrases = phrases[st.session_state.source_language]": [None]
    stands for the [KeyError]. *)
Definition current_phrases (st : session_state) : option (list str) :=
  get phrases (source_language st).

(** Button number [i] of [render_quick_phrases]; the [KeyError] ends the
    rendering in the handler of [run]. *)
Definition quick_phrase_button (w : world) (now : Z) (i : nat)
    (st : session_state) : session_state * list event :=
  match current_phrases st with
  | None => (st, [Error (py "Application error: " ++ source_language st)])
  | Some current =>
      match nth_error current i with
      | Some phrase => translate_text w now phrase st
      | None => (st, [])
      end
  end.

(** [record_and_translate] *)
Definition record_and_translate (w : world) (now : Z) (heard : hearing)
    (st : session_state) : session_state * list event :=
  if negb (services_status_speech_recognition w)
  then (st, [Error (py "Speech recognition not available")])
  else
    match heard with
    | NoSpeech => (st, [Warning (py "No speech detected - please try again")])
    | NotUnderstood =>
        (st, [Warning (py "Could not understand audio - please speak more clearly")])
    | ServiceError e | RecordingFailed e =>
        (st, [Error (py "Recording error: " ++ e)])
    | Heard text =>
        if truthy (strip text) then translate_text w now (strip text) st
        else (st, [])
    end.

(** What a user can do to the session. *)
Inductive action :=
| EnglishToGerman
| GermanToEnglish
| ClearSession (now : Z)
| Translate (w : world) (now : Z) (text_input : str)
| QuickPhrase (w : world) (now : Z) (i : nat)
| RecordVoice (w : world) (now : Z) (heard : hearing).

Definition act (a : action) (st : session_state)
  : session_state * list event :=
  match a with
  | EnglishToGerman => (set_languages st (py "en") (py "de"), [])
  | GermanToEnglish => (set_languages st (py "de") (py "en"), [])
  | ClearSession now =>
      (clear_session now st, [Success (py "Session cleared!")])
  | Translate w now text_input => translate_button w now text_input st
  | QuickPhrase w now i => quick_phrase_button w now i st
  | RecordVoice w now heard => record_and_translate w now heard st
  end.

(** The session after a sequence of interactions. *)
Definition run (actions : list action) (st : session_state)
  : session_state :=
  fold_left (fun st a => fst (act a st)) actions st.

End FinalApp.

(** ** The application of streamlit_app_robust.py *)

Module RobustApp.

(** The choice of the translation service when the module is loaded: which
    imports succeed and, if it comes to that, how the MyMemory test request
    ends. *)
Record imports := {
  deep_translator_importable : bool;
  translate_importable : bool;
  requests_importable : bool;
  mymemory_test : Http.reply
}.

(** The outcome of the block "Test Translation (multiple options)":
    [available_services['translation']], [translation_service], and what
    the block appends to [missing_libs]. *)
Definition select_translation_service (i : imports)
  : bool * option Robust.service * list str :=
  if deep_translator_importable i
  then (true, Some Robust.deep_translator, [])
  else if translate_importable i
  then (true, Some Robust.translate, [])
  else if requests_importable i then
    match mymemory_test i with
    | Http.ConnectionError _ => (false, None, [py "Translation service"])
    | Http.Response status_code _ =>
        if (status_code =? 200)%Z then (true, Some Robust.mymemory, [])
        else (false, None, [])
    end
  else (false, None, [py "Translation service"]).

(** "x in missing_libs" *)
Definition is_missing (name : str) (missing_libs : list str) : bool :=
  existsb (eqb name) missing_libs.

(** [install_cmd] of [render_service_status]. *)
Definition install_cmd (missing_libs : list str) : str :=
  py "pip install "
  ++ strip
       (join (py " ")
          [ if is_missing (py "SpeechRecognition") missing_libs
            then py "SpeechRecognition" else [];
            if is_missing (py "pyttsx3") missing_libs
            then py "pyttsx3" else [];
            if is_missing (py "Translation service") missing_libs
            then py "deep-translator" else [] ]).

(** What one interaction meets outside the session. *)
Record world := {
  services_translation : bool;
  services_tts : bool;
  services_speech_recognition : bool;
  translation_service : option Robust.service;
  GoogleTranslator_translate : str -> str -> str -> outcome;
  Translator_translate : str -> str -> str -> outcome;
  mymemory_exchange : str -> str -> str -> outcome;
  tts_say : str -> option str
}.

(** [translate_text], with the dictionaries of
    [setup_backup_translations]. *)
Definition translate_text (w : world) (now : Z) (text : str)
    (st : session_state) : session_state * list event :=
  Robust.translate_text Robust_data.backup_translations
    (services_translation w) (services_tts w) (translation_service w)
    (GoogleTranslator_translate w) (Translator_translate w)
    (mymemory_exchange w) (tts_say w) now text st.

(** The "Translate" button of [render_main_interface]. *)
Definition translate_button (w : world) (now : Z) (text_input : str)
    (st : session_state) : session_state * list event :=
  if truthy (strip text_input)
  then translate_text w now (strip text_input) st
  else (st, []).

(** [record_and_translate] *)
Definition record_and_translate (w : world) (now : Z) (heard : hearing)
    (st : session_state) : session_state * list event :=
  if negb (services_speech_recognition w)
  then (st, [Error (py "Speech recognition not available")])
  else
    match heard with
    | NoSpeech => (st, [Warning (py "No speech detected")])
    | NotUnderstood => (st, [Warning (py "Could not understand audio")])
    | ServiceError e | RecordingFailed e =>
        (st, [Error (py "Recording failed: " ++ e)])
    | Heard text =>
        if truthy (strip text) then translate_text w now (strip text) st
        else (st, [])
    end.

(** The "Save to History" button of [render_translation_results]; it is
    there when the session has a current translation. *)
Definition save_button (st : session_state) : session_state * list event :=
  match current_translation st with
  | Some translation =>
      (Robust.save_to_history translation st, [Success (py "Saved!")])
  | None => (st, [])
  end.

(** The "Clear" button of [render_conversation_history]; it is there when
    the history is not empty, and it empties the history only. *)
Definition clear_history_button (st : session_state)
  : session_state * list event :=
  match conversation_history st with
  | [] => (st, [Info (py "Start translating to see history")])
  | _ :: _ => (set_conversation_history st [], [])
  end.

(** What a user can do to the session. *)
Inductive action :=
| EnglishToGerman
| GermanToEnglish
| ClearSession (now : Z)
| Translate (w : world) (now : Z) (text_input : str)
| RecordVoice (w : world) (now : Z) (heard : hearing)
| SaveToHistory
| ClearHistory.

Definition act (a : action) (st : session_state)
  : session_state * list event :=
  match a with
  | EnglishToGerman => (set_languages st (py "en") (py "de"), [])
  | GermanToEnglish => (set_languages st (py "de") (py "en"), [])
  | ClearSession now =>
      (clear_session now st, [Success (py "Session cleared!")])
  | Translate w now text_input => translate_button w now text_input st
  | RecordVoice w now heard => record_and_translate w now heard st
  | SaveToHistory => save_button st
  | ClearHistory => clear_history_button st
  end.

(** The session after a sequence of interactions. *)
Definition run (actions : list action) (st : session_state)
  : session_state :=
  fold_left (fun st a => fst (act a st)) actions st.

End RobustApp.

(** The two language pairs of the buttons. *)
Definition supported_pair (st : session_state) : Prop :=
  (source_language st = py "en" /\ target_language st = py "de")
  \/ (source_language st = py "de" /\ target_language st = py "en").

(** The keys and the values of a dictionary are in the form the fallback
    looks them up in: lowercase, without surrounding whitespace. *)
Definition normal (s : str) : Prop := strip (lower s) = s.

Definition normal_entries (d : dict str) : Prop :=
  Forall (fun item => normal (fst item) /\ normal (snd item)) d.

Definition unique_keys {V} (d : dict V) : Prop := NoDup (map fst d).

(** Boolean versions, to check a dictionary of the program. *)
Fixpoint unique_keys_check {V} (d : dict V) : bool :=
  match d with
  | [] => true
  | (k, _) :: rest =>
      negb (existsb (fun item => eqb (fst item) k) rest)
      && unique_keys_check rest
  end.

Definition normal_entries_check (d : dict str) : bool :=
  forallb
    (fun item =>
       eqb (strip (lower (fst item))) (fst item)
       && eqb (strip (lower (snd item))) (snd item))
    d.

(** The reply that makes [translate_with_mymemory] of the final variant
    return the string [t], when [t] passes the filter: status code 200, a
    JSON object whose 'responseStatus' equals 200 and whose 'responseData'
    is an object with the string [t] as 'translatedText'. *)
Definition mymemory_success (r : Http.reply) (t : str) : Prop :=
  exists members responseData,
    r = Http.Response 200 (Some (Http.JDict members))
    /\ Http.equals_int
         (get_default members (py "responseStatus") Http.JNull) 200 = true
    /\ get members (py "responseData") = Some (Http.JDict responseData)
    /\ get responseData (py "translatedText") = Some (Http.JStr t).

(** The reply that makes a LibreTranslate method return the value [v]: a
    JSON object with [v] as 'translatedText'. *)
Definition libre_success (body : option Http.json) (v : Http.json) : Prop :=
  exists members,
    body = Some (Http.JDict members)
    /\ get members (py "translatedText") = Some v.

(** One step through a network method. *)
Ltac backend_step :=
  cbn [Http.or_none Http.bind Http.request Http.get_method Http.getitem
       Http.lower_method Http.contains_key] in *.

(** The value of [translate_with_mymemory] of the final variant as an
    answer to the chain: a string, or nothing. *)
Definition answer_of (v : Http.json) : outcome :=
  match v with
  | Http.JStr t => Returns (Some t)
  | _ => Returns None
  end.

(** [translate] of the final variant with its MyMemory method spelled out;
    [network] is what the MyMemory server replies to a request. *)
Definition final_translate_over_mymemory
    (backup_translations : dict (dict str)) (deep_available : bool)
    (deep libre : str -> str -> str -> outcome)
    (network : str -> str -> str -> Http.reply)
    (text src dest : str) : list event * MockTranslation :=
  Final.translate backup_translations deep_available deep
    (fun text src dest =>
       answer_of (FinalBackends.translate_with_mymemory
                    (network text src dest)))
    libre text src dest.

(** A MyMemory server that answers every request with status 200 and the
    translation [t]. *)
Definition mymemory_replies (t : str) : str -> str -> str -> Http.reply :=
  fun _ _ _ =>
    Http.Response 200
      (Some (Http.JDict
               [ (py "responseStatus", Http.JInt 200);
                 (py "responseData",
                  Http.JDict [(py "translatedText", Http.JStr t)]) ])).

(** What every session of the final application satisfies. *)
Definition final_invariant (st : session_state) : Prop :=
  supported_pair st
  /\ results_nonempty st
  /\ List.length (conversation_history st) <= 50
  /\ NoDup (conversation_history st)
  /\ (forall r, current_translation st = Some r ->
               In r (conversation_history st))
  /\ (Z.of_nat (List.length (conversation_history st))
      <= translations_count (session_stats st))%Z.

(** What every session of the robust application satisfies. *)
Definition robust_invariant (st : session_state) : Prop :=
  supported_pair st
  /\ results_nonempty st
  /\ List.length (conversation_history st) <= 50
  /\ NoDup (conversation_history st).

(** The record that [translate_text] of the final variant builds. *)
Definition final_result (w : FinalApp.world) (now : Z) (text : str)
    (st : session_state) : TranslationResult :=
  {| original_text := text;
     translated_text :=
       result_text
         (snd (Final.translate Final_data.backup_translations
                 (FinalApp.DEEP_TRANSLATOR_AVAILABLE w)
                 (FinalApp.translate_with_deep_translator w)
                 (FinalApp.translate_with_mymemory w)
                 (FinalApp.translate_with_libretranslate w)
                 text (source_language st) (target_language st)));
     source_lang := source_language st;
     target_lang := target_language st;
     timestamp := now;
     is_backup := None |}.

(** ** The application of streamlit_app_working.py *)

Module WorkingApp.

(** What one interaction meets outside the session. *)
Record world := {
  translate_with_mymemory : str -> str -> str -> outcome;
  translate_with_libre : str -> str -> str -> outcome;
  services_status_speech_recognition : bool;
  services_status_tts : bool;
  tts_say : str -> option str
}.

(** [speak_text]; the messages are given without their emoji. *)
Definition speak_text (w : world) (text language : str) : list event :=
  if negb (services_status_tts w)
  then [Warning (py "Text-to-speech not available")]
  else
    match tts_say w text with
    | None => [Say text]
    | Some e => [Error (py "Text-to-speech failed: " ++ e)]
    end.

(** [translate_text]: [self.translator] is a [SimpleTranslator] with the
    dictionaries of the program. *)
Definition translate_text (w : world) (now : Z) (text : str)
    (st : session_state) : session_state * list event :=
  let '(evs, translation) :=
    Working.translate Working_data.backup_translations
      (translate_with_mymemory w) (translate_with_libre w)
      text (source_language st) (target_language st) in
  let translation_result :=
    {| original_text := text;
       translated_text := result_text translation;
       source_lang := source_language st;
       target_lang := target_language st;
       timestamp := now;
       is_backup := None |} in
  let st := set_current_translation st (Some translation_result) in
  let st := update_session_stats text st in
  let st := Working.save_to_history translation_result st in
  (st,
   evs ++ Success (py "Translation completed!")
   :: (if services_status_tts w
       then speak_text w (result_text translation) (target_language st)
       else [])).

(** The "Translate Text" button of [render_main_interface]. *)
Definition translate_button (w : world) (now : Z) (text_input : str)
    (st : session_state) : session_state * list event :=
  if truthy (strip text_input)
  then translate_text w now (strip text_input) st
  else (st, []).

(** The phrases of the quick phrase buttons. *)
Definition phrases : dict (list str) :=
  [ (py "en",
     map py [ "Hello"; "Thank you"; "Excuse me"; "How are you?";
              "Where is...?"; "How much?" ]%string);
    (py "de",
     map py [ "Hallo"; "Danke"; "Entschuldigung"; "Wie geht es dir?";
              "Wo ist...?"; "Wie viel?" ]%string) ].

(** "current_phrases = phrases[st.session_state.source_language]": [None]
    stands for the [KeyError]. *)
Definition current_phrases (st : session_state) : option (list str) :=
  get phrases (source_language st).

Definition quick_phrase_button (w : world) (now : Z) (i : nat)
    (st : session_state) : session_state * list event :=
  match current_phrases st with
  | None => (st, [Error (py "Application error: " ++ source_language st)])
  | Some current =>
      match nth_error current i with
      | Some phrase => translate_text w now phrase st
      | None => (st, [])
      end
  end.

(** [record_and_translate] *)
Definition record_and_translate (w : world) (now : Z) (heard : hearing)
    (st : session_state) : session_state * list event :=
  if negb (services_status_speech_recognition w)
  then (st, [Error (py "Speech recognition not available")])
  else
    match heard with
    | NoSpeech => (st, [Warning (py "No speech detected")])
    | NotUnderstood => (st, [Warning (py "Could not understand the audio")])
    | ServiceError e | RecordingFailed e =>
        (st, [Error (py "Recording failed: " ++ e)])
    | Heard text =>
        if truthy (strip text) then translate_text w now (strip text) st
        else (st, [])
    end.

(** What a user can do to the session. *)
Inductive action :=
| EnglishToGerman
| GermanToEnglish
| ClearSession (now : Z)
| Translate (w : world) (now : Z) (text_input : str)
| QuickPhrase (w : world) (now : Z) (i : nat)
| RecordVoice (w : world) (now : Z) (heard : hearing).

Definition act (a : action) (st : session_state)
  : session_state * list event :=
  match a with
  | EnglishToGerman => (set_languages st (py "en") (py "de"), [])
  | GermanToEnglish => (set_languages st (py "de") (py "en"), [])
  | ClearSession now =>
      (clear_session now st, [Success (py "Session cleared!")])
  | Translate w now text_input => translate_button w now text_input st
  | QuickPhrase w now i => quick_phrase_button w now i st
  | RecordVoice w now heard => record_and_translate w now heard st
  end.

Definition run (actions : list action) (st : session_state)
  : session_state :=
  fold_left (fun st a => fst (act a st)) actions st.

End WorkingApp.

(** ** The application of streamlit_app_simple.py *)

Module SimpleApp.

(** What [self.translator.translate(text, src=..., dest=...)] of googletrans
    gives: an exception, or a translation with its text. *)
Inductive translated :=
| TranslationFailed (e : str)
| Translated (text : str).

(** What one interaction meets outside the session. *)
Record world := {
  services_status_translation : bool;
  services_status_speech_recognition : bool;
  services_status_tts : bool;
  Translator_translate : str -> str -> str -> translated;
  tts_say : str -> option str
}.

(** [speak_text]: the choice of the voice and the speaking are inside one
    "try" block. *)
Definition speak_text (w : world) (text language : str) : list event :=
  if negb (services_status_tts w)
  then [Warning (py "Text-to-speech not available")]
  else
    match tts_say w text with
    | None => [Say text]
    | Some e => [Error (py "Text-to-speech failed: " ++ e)]
    end.

(** [translate_text] *)
Definition translate_text (w : world) (now : Z) (text : str)
    (st : session_state) : session_state * list event :=
  if negb (services_status_translation w)
  then (st, [Error (py "Translation service not available")])
  else
    match Translator_translate w text (source_language st)
            (target_language st) with
    | TranslationFailed e => (st, [Error (py "Translation failed: " ++ e)])
    | Translated translation_text =>
        let translation_result :=
          {| original_text := text;
             translated_text := translation_text;
             source_lang := source_language st;
             target_lang := target_language st;
             timestamp := now;
             is_backup := None |} in
        let st := set_current_translation st (Some translation_result) in
        let st := update_session_stats text st in
        let st := Simple.save_to_history translation_result st in
        (st,
         Success (py "Translation completed!")
         :: (if services_status_tts w
             then speak_text w translation_text (target_language st)
             else []))
    end.

(** The "Translate Text" button; [render_main_interface] shows no button
    when the translation service is missing. *)
Definition translate_button (w : world) (now : Z) (text_input : str)
    (st : session_state) : session_state * list event :=
  if negb (services_status_translation w)
  then (st, [Error (py "Translation service not available. Please install required dependencies.")])
  else if truthy (strip text_input)
  then translate_text w now (strip text_input) st
  else (st, []).

(** [record_and_translate], behind the "Record Voice" button. *)
Definition record_and_translate (w : world) (now : Z) (heard : hearing)
    (st : session_state) : session_state * list event :=
  if negb (services_status_translation w)
  then (st, [Error (py "Translation service not available. Please install required dependencies.")])
  else if negb (services_status_speech_recognition w)
  then (st, [Error (py "Speech recognition not available")])
  else
    match heard with
    | NoSpeech =>
        (st, [Warning (py "No speech detected within timeout period")])
    | NotUnderstood => (st, [Warning (py "Could not understand the audio")])
    | ServiceError e =>
        (st, [Error (py "Speech recognition service error: " ++ e)])
    | RecordingFailed e => (st, [Error (py "Recording failed: " ++ e)])
    | Heard text =>
        if truthy (strip text) then translate_text w now (strip text) st
        else (st, [])
    end.

(** The "Save to History" button of [render_translation_results]. *)
Definition save_button (st : session_state) : session_state * list event :=
  match current_translation st with
  | Some translation =>
      (Simple.save_to_history translation st,
       [Success (py "Saved to history!")])
  | None => (st, [])
  end.

(** The "Clear History" button of [render_conversation_history]. *)
Definition clear_history_button (st : session_state)
  : session_state * list event :=
  match conversation_history st with
  | [] =>
      (st, [Info (py "Start translating to see conversation history here")])
  | _ :: _ => (set_conversation_history st [], [])
  end.

(** What a user can do to the session. *)
Inductive action :=
| EnglishToGerman
| GermanToEnglish
| ClearSession (now : Z)
| Translate (w : world) (now : Z) (text_input : str)
| RecordVoice (w : world) (now : Z) (heard : hearing)
| SaveToHistory
| ClearHistory.

Definition act (a : action) (st : session_state)
  : session_state * list event :=
  match a with
  | EnglishToGerman => (set_languages st (py "en") (py "de"), [])
  | GermanToEnglish => (set_languages st (py "de") (py "en"), [])
  | ClearSession now =>
      (clear_session now st, [Success (py "Session cleared!")])
  | Translate w now text_input => translate_button w now text_input st
  | RecordVoice w now heard => record_and_translate w now heard st
  | SaveToHistory => save_button st
  | ClearHistory => clear_history_button st
  end.

Definition run (actions : list action) (st : session_state)
  : session_state :=
  fold_left (fun st a => fst (act a st)) actions st.

End SimpleApp.

(** The two texts by which [save_to_history] of the simple variant knows a
    record. *)
Definition text_pair (r : TranslationResult) : str * str :=
  (original_text r, translated_text r).

(** What every session of the working application satisfies. *)
Definition working_invariant (st : session_state) : Prop :=
  supported_pair st
  /\ results_nonempty st
  /\ (Z.of_nat (List.length (conversation_history st))
      = Z.min 50 (translations_count (session_stats st)))%Z
  /\ (forall r, current_translation st = Some r ->
               exists front, conversation_history st = front ++ [r]).

(** What every session of the simple application satisfies. *)
Definition simple_invariant (st : session_state) : Prop :=
  supported_pair st
  /\ List.length (conversation_history st) <= 100
  /\ NoDup (map text_pair (conversation_history st)).

(** The record that [translate_text] of the working variant builds. *)
Definition working_result (w : WorkingApp.world) (now : Z) (text : str)
    (st : session_state) : TranslationResult :=
  {| original_text := text;
     translated_text :=
       result_text
         (snd (Working.translate Working_data.backup_translations
                 (WorkingApp.translate_with_mymemory w)
                 (WorkingApp.translate_with_libre w)
                 text (source_language st) (target_language st)));
     source_lang := source_language st;
     target_lang := target_language st;
     timestamp := now;
     is_backup := None |}.

(** ** The start of streamlit_app_simple.py *)

Module SimpleStartup.

(** Which of the imports at the head of the module succeed. *)
Record imports := {
  SPEECH_RECOGNITION_AVAILABLE : bool;
  TTS_AVAILABLE : bool;
  TRANSLATION_AVAILABLE : bool;
  AUDIO_PROCESSING_AVAILABLE : bool
}.

(** Which of the constructors called by [initialize_services] return
    ([false]: the call raises). *)
Record constructors := {
  recognizer_and_microphone : bool;
  pyttsx3_init : bool;
  Translator_new : bool
}.

(** The list [missing_libs] after the imports. *)
Definition missing_libs (i : imports) : list str :=
  (if SPEECH_RECOGNITION_AVAILABLE i then [] else [py "SpeechRecognition"])
  ++ (if TRANSLATION_AVAILABLE i then [] else [py "googletrans"]).

(** The list [optional_libs] after the imports. *)
Definition optional_libs (i : imports) : list str :=
  (if TTS_AVAILABLE i then [] else [py "pyttsx3"])
  ++ (if AUDIO_PROCESSING_AVAILABLE i then [] else [py "numpy, sounddevice"]).

(** [self.services_status], with its keys in the order of the source. *)
Definition initialize_services (i : imports) (c : constructors)
  : dict bool :=
  let services_status :=
    [ (py "speech_recognition", SPEECH_RECOGNITION_AVAILABLE i);
      (py "translation", TRANSLATION_AVAILABLE i);
      (py "tts", TTS_AVAILABLE i);
      (py "audio_processing", AUDIO_PROCESSING_AVAILABLE i) ] in
  let services_status :=
    if SPEECH_RECOGNITION_AVAILABLE i
    then if recognizer_and_microphone c then services_status
         else set services_status (py "speech_recognition") false
    else services_status in
  let services_status :=
    if TTS_AVAILABLE i
    then if pyttsx3_init c then services_status
         else set services_status (py "tts") false
    else services_status in
  if TRANSLATION_AVAILABLE i
  then if Translator_new c then services_status
       else set services_status (py "translation") false
  else services_status.

(** [check_dependencies]: "if missing_libs or not
    all(self.services_status.values())" returns [False], otherwise the
    method returns [True]. *)
Definition check_dependencies (i : imports) (services_status : dict bool)
  : bool :=
  if (match missing_libs i with [] => false | _ :: _ => true end)
     || negb (forallb (fun v => v) (map snd services_status))
  then false
  else true.

End SimpleStartup.

(** The body that makes [translate_with_mymemory] of the working variant
    return the value [v]: a JSON object whose 'responseStatus' equals 200
    and whose 'responseData' is an object with [v] as 'translatedText'. *)
Definition working_mymemory_success (body : option Http.json)
    (v : Http.json) : Prop :=
  exists members responseData,
    body = Some (Http.JDict members)
    /\ Http.equals_int
         (get_default members (py "responseStatus") Http.JNull) 200 = true
    /\ get members (py "responseData") = Some (Http.JDict responseData)
    /\ get responseData (py "translatedText") = Some v.

(** A reply of MyMemory that is out of quota. *)
Definition quota_reply : Http.reply :=
  Http.Response 429
    (Some (Http.JDict
             [ (py "responseStatus", Http.JInt 200);
               (py "responseData",
                Http.JDict
                  [(py "translatedText",
                    Http.JStr (py "MYMEMORY WARNING: QUOTA EXCEEDED"))]) ])).

(** * Facts about strings and dictionaries *)

Section StringFacts.

Lemma eqb_refl (s : str) : eqb s s = true.
Proof.
  induction s as [|c s IH]; simpl; [reflexivity|].
  now rewrite Ascii.eqb_refl, IH.
Qed.

Lemma eqb_eq (a b : str) : eqb a b = true <-> a = b.
Proof.
  split.
  - revert b; induction a as [|x a IH]; intros [|y b] H; simpl in H;
      try discriminate; [reflexivity|].
    apply andb_true_iff in H as [Hxy Hab].
    apply Ascii.eqb_eq in Hxy. f_equal; auto.
  - intros ->. apply eqb_refl.
Qed.

Lemma truthy_nonempty (s : str) : truthy s = true <-> s <> [].
Proof. destruct s; simpl; split; congruence. Qed.

Lemma startswith_app (p r : str) : startswith p (p ++ r) = true.
Proof.
  induction p as [|x p IH]; simpl; [reflexivity|].
  now rewrite Ascii.eqb_refl, IH.
Qed.

Lemma startswith_inv (p s : str) :
  startswith p s = true -> exists r, s = p ++ r.
Proof.
  revert s; induction p as [|x p IH]; intros s H.
  - now exists s.
  - destruct s as [|y s]; simpl in H; [discriminate|].
    apply andb_true_iff in H as [Hxy Hps].
    apply Ascii.eqb_eq in Hxy; subst y.
    destruct (IH _ Hps) as [r ->]. now exists r.
Qed.

Lemma startswith_contains (p s : str) :
  startswith p s = true -> contains p s = true.
Proof. destruct s; simpl; intros ->; reflexivity. Qed.

Lemma contains_intro (l p r : str) : contains p (l ++ p ++ r) = true.
Proof.
  induction l as [|c l IH].
  - simpl. apply startswith_contains, startswith_app.
  - simpl. rewrite IH. apply orb_true_r.
Qed.

Lemma contains_inv (p s : str) :
  contains p s = true -> exists l r, s = l ++ p ++ r.
Proof.
  induction s as [|c s IH]; simpl; intros H.
  - rewrite orb_false_r in H. apply startswith_inv in H as [r ->].
    now exists [], r.
  - apply orb_true_iff in H as [H|H].
    + apply startswith_inv in H as [r ->]. now exists [], r.
    + destruct (IH H) as (l & r & ->). now exists (c :: l), r.
Qed.

Lemma contains_refl (s : str) : contains s s = true.
Proof.
  rewrite <- (app_nil_r s) at 2. apply (contains_intro [] s []).
Qed.

Lemma contains_trans (a b c : str) :
  contains a b = true -> contains b c = true -> contains a c = true.
Proof.
  intros Hab Hbc.
  apply contains_inv in Hab as (l1 & r1 & ->).
  apply contains_inv in Hbc as (l2 & r2 & ->).
  replace (l2 ++ (l1 ++ a ++ r1) ++ r2) with ((l2 ++ l1) ++ a ++ (r1 ++ r2))
    by now rewrite <- !app_assoc.
  apply contains_intro.
Qed.

Lemma dropwhile_suffix (p : ascii -> bool) (s : str) :
  exists l, s = l ++ dropwhile p s.
Proof.
  induction s as [|c s [l IH]]; simpl.
  - now exists [].
  - destruct (p c).
    + exists (c :: l). simpl. now f_equal.
    + now exists [].
Qed.

Lemma rstrip_by_prefix (p : ascii -> bool) (s : str) :
  exists r, s = rstrip_by p s ++ r.
Proof.
  unfold rstrip_by.
  destruct (dropwhile_suffix p (rev s)) as [l E].
  exists (rev l).
  rewrite <- rev_app_distr, <- E. symmetry. apply rev_involutive.
Qed.

Lemma strip_chars_contained (chars w : str) :
  contains (strip_chars chars w) w = true.
Proof.
  unfold strip_chars, lstrip_by.
  destruct (dropwhile_suffix (fun c => existsb (Ascii.eqb c) chars) w)
    as [l E].
  destruct (rstrip_by_prefix (fun c => existsb (Ascii.eqb c) chars)
              (dropwhile (fun c => existsb (Ascii.eqb c) chars) w))
    as [r E'].
  rewrite E at 2. rewrite E' at 2. apply contains_intro.
Qed.

Lemma split_from_contained (s cur w : str) :
  In w (split_from cur s) -> exists l r, rev cur ++ s = l ++ w ++ r.
Proof.
  revert cur; induction s as [|c s IH]; intros cur H; simpl in H.
  - destruct cur as [|x cur]; [contradiction|].
    destruct H as [<-|[]]. exists [], []. now rewrite !app_nil_r.
  - destruct (isspace c).
    + destruct cur as [|x cur].
      * destruct (IH _ H) as (l & r & E). simpl in E.
        exists (c :: l), r. simpl. now rewrite E.
      * destruct H as [<-|H].
        -- now exists [], (c :: s).
        -- destruct (IH _ H) as (l & r & E). simpl in E.
           exists (rev (x :: cur) ++ c :: l), r.
           rewrite E, <- app_assoc. reflexivity.
    + destruct (IH _ H) as (l & r & E).
      exists l, r. rewrite <- E. simpl. now rewrite <- app_assoc.
Qed.

Lemma split_contained (s w : str) : In w (split s) -> contains w s = true.
Proof.
  intros H. destruct (split_from_contained _ _ _ H) as (l & r & E).
  simpl in E. rewrite E. apply contains_intro.
Qed.

Lemma split_from_nonempty (s cur w : str) :
  In w (split_from cur s) -> w <> [].
Proof.
  revert cur; induction s as [|c s IH]; intros cur H; simpl in H.
  - destruct cur as [|x cur]; [contradiction|].
    destruct H as [<-|[]]. simpl. now destruct (rev cur).
  - destruct (isspace c).
    + destruct cur as [|x cur]; [now apply (IH [])|].
      destruct H as [<-|H]; [|now apply (IH [])].
      simpl. now destruct (rev cur).
    + now apply (IH (c :: cur)).
Qed.

Lemma split_from_pending (s cur : str) :
  cur <> [] -> split_from cur s <> [].
Proof.
  revert cur; induction s as [|c s IH]; intros cur H; simpl.
  - destruct cur; [contradiction|discriminate].
  - destruct (isspace c).
    + destruct cur; [contradiction|discriminate].
    + apply IH. discriminate.
Qed.

Lemma get_In {V} (d : dict V) (k : str) (v : V) :
  get d k = Some v -> In (k, v) d.
Proof.
  induction d as [|[k' v'] d IH]; simpl; [discriminate|].
  destruct (eqb k k') eqn:E.
  - intros [= ->]. apply eqb_eq in E. subst. now left.
  - intros H. right. auto.
Qed.

Lemma snoc_loop {A B} (f : A -> B) (xs : list A) (acc : list B) :
  fold_left (fun done x => done ++ [f x]) xs acc = acc ++ map f xs.
Proof.
  revert acc; induction xs as [|x xs IH]; intros acc; simpl.
  - now rewrite app_nil_r.
  - rewrite IH, <- app_assoc. reflexivity.
Qed.

End StringFacts.

(** * The dictionary fallback *)

Section FallbackFacts.

Lemma no_phrase_occurs_check (translations : dict str) (text_lower : str) :
  forallb (fun item => negb (contains (fst item) text_lower)) translations
  = true ->
  no_phrase_occurs translations text_lower.
Proof.
  intros H. apply Forall_forall. intros item Hin.
  rewrite forallb_forall in H. specialize (H _ Hin).
  now apply negb_true_iff in H.
Qed.

Lemma no_phrase_no_entry (translations : dict str) (text_lower k : str) :
  no_phrase_occurs translations text_lower ->
  contains k text_lower = true ->
  get translations k = None.
Proof.
  intros Hno Hk. destruct (get translations k) as [v|] eqn:E; [|reflexivity].
  apply get_In in E.
  unfold no_phrase_occurs in Hno. rewrite Forall_forall in Hno.
  specialize (Hno _ E). simpl in Hno. congruence.
Qed.

Lemma working_partial_match_skip (before rest : dict str) (text_lower : str) :
  no_phrase_occurs before text_lower ->
  Working.partial_match (before ++ rest) text_lower
  = Working.partial_match rest text_lower.
Proof.
  induction 1 as [|[k v] before Hk _ IH]; simpl; [reflexivity|].
  simpl in Hk. now rewrite Hk.
Qed.

Lemma robust_partial_match_skip (before rest : dict str)
    (text text_lower : str) :
  no_phrase_occurs before text_lower ->
  Robust.partial_match (before ++ rest) text text_lower
  = Robust.partial_match rest text text_lower.
Proof.
  induction 1 as [|[k v] before Hk _ IH]; simpl; [reflexivity|].
  simpl in Hk. now rewrite Hk.
Qed.

Lemma robust_partial_match_none (translations : dict str)
    (text text_lower : str) :
  no_phrase_occurs translations text_lower ->
  Robust.partial_match translations text text_lower = None.
Proof.
  intros H. rewrite <- (app_nil_r translations).
  now rewrite robust_partial_match_skip.
Qed.

Lemma working_partial_match_none (translations : dict str)
    (text_lower : str) :
  no_phrase_occurs translations text_lower ->
  Working.partial_match translations text_lower = None.
Proof.
  intros H. rewrite <- (app_nil_r translations).
  now rewrite working_partial_match_skip.
Qed.

Lemma final_partial_skip (before : dict str) (state : str * str) :
  no_phrase_occurs before (snd state) ->
  fold_left Final.partial_step before state = state.
Proof.
  destruct state as [best text_lower]. simpl.
  induction 1 as [|[k v] before Hk _ IH]; simpl; [reflexivity|].
  simpl in Hk. now rewrite Hk.
Qed.


Lemma working_words_untranslated (translations : dict str) (words : list str) :
  (forall w, In w words -> get translations w = None) ->
  Working.word_by_word translations words = words.
Proof.
  intros H. unfold Working.word_by_word.
  rewrite (snoc_loop (fun w => get_default translations w w)). simpl.
  rewrite <- (map_id words) at 2. apply map_ext_in.
  intros w Hw. unfold get_default. now rewrite (H _ Hw).
Qed.

Lemma final_words_loop (translations : dict str) (words : list str)
    (acc : list str) :
  fold_left
    (fun translated_words word =>
       let clean_word := strip_chars Final.punctuation word in
       match get translations clean_word with
       | Some translation => translated_words ++ [translation]
       | None => translated_words ++ [word]
       end)
    words acc
  = acc ++ map (Spec.translate_token translations) words.
Proof.
  revert acc; induction words as [|w words IH]; intros acc; simpl.
  - now rewrite app_nil_r.
  - rewrite IH. unfold Spec.translate_token at 2.
    destruct (get translations (strip_chars Final.punctuation w));
      now rewrite <- app_assoc.
Qed.

Lemma final_words_map (translations : dict str) (words : list str) :
  Final.word_by_word translations words
  = map (Spec.translate_token translations) words.
Proof. apply final_words_loop. Qed.

Lemma spec_words_untranslated (translations : dict str) (words : list str) :
  (forall w, In w words ->
     get translations (strip_chars Final.punctuation w) = None) ->
  map (Spec.translate_token translations) words = words.
Proof.
  intros H. rewrite <- (map_id words) at 2. apply map_ext_in.
  intros w Hw. unfold Spec.translate_token. now rewrite (H _ Hw).
Qed.

End FallbackFacts.

Section WordByWord.

Lemma final_word_step (backup_translations : dict (dict str))
    (text src dest : str) :
  let translations := get_default backup_translations (pair_key src dest) [] in
  let text_lower := strip (lower text) in
  no_phrase_occurs translations text_lower ->
  Final.translate_with_dictionary backup_translations text src dest
  = let result := Spec.word_step translations text_lower in
    if eqb result text_lower
    then py "[Need translation: " ++ text ++ py "]"
    else result.
Proof.
  intros translations text_lower Hno.
  unfold Final.translate_with_dictionary.
  fold (pair_key src dest). fold translations. fold text_lower.
  rewrite (no_phrase_no_entry _ _ _ Hno (contains_refl text_lower)).
  unfold Final.partial_matches.
  rewrite (final_partial_skip translations ([], text_lower) Hno).
  simpl truthy. cbv iota. rewrite final_words_map. reflexivity.
Qed.

Lemma working_word_step (backup_translations : dict (dict str))
    (text src dest : str) :
  let translations := get_default backup_translations (pair_key src dest) [] in
  let text_lower := strip (lower text) in
  no_phrase_occurs translations text_lower ->
  Working.translate_with_dict backup_translations text src dest
  = let result := Spec.word_step translations text_lower in
    if eqb result text_lower then Spec.sentinel text else result.
Proof.
  intros translations text_lower Hno.
  unfold Working.translate_with_dict.
  fold (pair_key src dest). fold translations. fold text_lower.
  rewrite (no_phrase_no_entry _ _ _ Hno (contains_refl text_lower)).
  rewrite (working_partial_match_none translations text_lower Hno).
  rewrite working_words_untranslated.
  - unfold Spec.word_step. rewrite spec_words_untranslated; [reflexivity|].
    intros w Hw. apply (no_phrase_no_entry _ _ _ Hno).
    apply contains_trans with w.
    + apply strip_chars_contained.
    + now apply split_contained.
  - intros w Hw. apply (no_phrase_no_entry _ _ _ Hno).
    now apply split_contained.
Qed.

End WordByWord.



(** * The sentinel, and results that are never empty *)

Section NeverEmpty.

Lemma replace_nonempty (old new s : str) :
  new <> [] -> contains old s = true -> replace old new s <> [].
Proof.
  intros Hnew Hc. destruct old as [|x old]; simpl.
  - destruct new; [contradiction|discriminate].
  - destruct s as [|c s]; [discriminate|].
    simpl. destruct (Ascii.eqb x c && startswith old s).
    + destruct new; [contradiction|discriminate].
    + discriminate.
Qed.

Lemma dropwhile_keeps_last (p : ascii -> bool) (xs : str) (c : ascii) :
  p c = false -> exists l, dropwhile p (xs ++ [c]) = l ++ [c].
Proof.
  intros Hc. induction xs as [|x xs [l IH]]; simpl.
  - rewrite Hc. now exists [].
  - destruct (p x).
    + now exists l.
    + now exists (x :: xs).
Qed.

Lemma dropwhile_head (p : ascii -> bool) (s : str) (c : ascii) (rest : str) :
  dropwhile p s = c :: rest -> p c = false.
Proof.
  induction s as [|x s IH]; simpl; [discriminate|].
  destruct (p x) eqn:E; [exact IH|].
  now intros [= -> _].
Qed.

(** A stripped string that is not empty starts with a character that is
    not a space. *)
Lemma strip_head (s : str) :
  strip s <> [] -> exists c rest, strip s = c :: rest /\ isspace c = false.
Proof.
  unfold strip, rstrip_by, lstrip_by.
  destruct (dropwhile isspace s) as [|c rest] eqn:E; [now intros []|].
  intros _. pose proof (dropwhile_head _ _ _ _ E) as Hc.
  simpl rev.
  destruct (dropwhile_keeps_last isspace (rev rest) c Hc) as [l ->].
  rewrite rev_app_distr. simpl. now exists c, (rev l).
Qed.

Lemma split_strip_head (s : str) :
  strip s <> [] -> exists w ws, split (strip s) = w :: ws /\ w <> [].
Proof.
  intros H. destruct (strip_head s H) as (c & rest & -> & Hc).
  unfold split. simpl. rewrite Hc.
  destruct (split_from [c] rest) as [|w ws] eqn:E.
  - exfalso. revert E. now apply split_from_pending.
  - exists w, ws. split; [reflexivity|].
    apply (split_from_nonempty rest [c]). rewrite E. now left.
Qed.

Lemma join_head_nonempty (sep w : str) (ws : list str) :
  w <> [] -> join sep (w :: ws) <> [].
Proof.
  intros Hw. simpl. destruct ws; [exact Hw|].
  destruct w; [contradiction|discriminate].
Qed.

Lemma values_nonempty_get (backup_translations : dict (dict str))
    (key : str) :
  values_nonempty backup_translations ->
  Forall (fun item => snd item <> [])
    (get_default backup_translations key []).
Proof.
  intros H. unfold get_default.
  destruct (get backup_translations key) as [d|] eqn:E; [|constructor].
  apply get_In in E. unfold values_nonempty in H.
  rewrite Forall_forall in H. exact (H _ E).
Qed.

Lemma get_value_nonempty (translations : dict str) (k v : str) :
  Forall (fun item => snd item <> []) translations ->
  get translations k = Some v -> v <> [].
Proof.
  intros H E. apply get_In in E. rewrite Forall_forall in H.
  exact (H _ E).
Qed.

Lemma values_nonempty_check (backup_translations : dict (dict str)) :
  forallb (fun pair => forallb (fun item => truthy (snd item)) (snd pair))
    backup_translations = true ->
  values_nonempty backup_translations.
Proof.
  intros H. apply Forall_forall. intros pair Hp.
  rewrite forallb_forall in H. specialize (H _ Hp).
  apply Forall_forall. intros item Hi.
  rewrite forallb_forall in H. specialize (H _ Hi).
  now apply truthy_nonempty.
Qed.

(** The word-by-word result of a stripped text is empty only if the text
    is. *)
Lemma word_result_nonempty (s : str) (f : str -> str) :
  (forall w, w <> [] -> f w <> []) ->
  strip s <> [] ->
  join (py " ") (map f (split (strip s))) <> [].
Proof.
  intros Hf H. destruct (split_strip_head s H) as (w & ws & -> & Hw).
  simpl map. apply join_head_nonempty. now apply Hf.
Qed.

Lemma working_fallback_nonempty (backup_translations : dict (dict str))
    (text src dest : str) :
  values_nonempty backup_translations ->
  Working.translate_with_dict backup_translations text src dest <> [].
Proof.
  intros Hv. unfold Working.translate_with_dict.
  pose proof (values_nonempty_get backup_translations
                (src ++ py "-" ++ dest) Hv) as Hd.
  revert Hd.
  generalize (get_default backup_translations (src ++ py "-" ++ dest) []).
  intros translations Hd.
  destruct (get translations (strip (lower text))) as [v|] eqn:E.
  - exact (get_value_nonempty _ _ _ Hd E).
  - destruct (Working.partial_match translations (strip (lower text)))
      as [r|] eqn:Ep.
    + clear E. induction translations as [|[k v] d IH]; [discriminate|].
      simpl in Ep. inversion Hd as [|? ? Hkv Hd']; subst. simpl in Hkv.
      destruct (contains k (strip (lower text))) eqn:Ek.
      * injection Ep as <-. now apply replace_nonempty.
      * now apply IH.
    + unfold Working.word_by_word.
      rewrite (snoc_loop (fun w => get_default translations w w)). simpl app.
      destruct (eqb _ (strip (lower text))) eqn:Eq; [discriminate|].
      apply word_result_nonempty.
      * intros w Hw. unfold get_default.
        destruct (get translations w) eqn:Ew; [|exact Hw].
        exact (get_value_nonempty _ _ _ Hd Ew).
      * intros H0. rewrite H0 in Eq. simpl in Eq. discriminate Eq.
Qed.

(** The loop of the final variant keeps the text non-empty once a phrase
    was replaced, and leaves it alone as long as none was. *)
Lemma final_partial_invariant (translations : dict str)
    (text_lower : str) (state : str * str) :
  Forall (fun item => snd item <> []) translations ->
  (fst state <> [] -> snd state <> []) ->
  (fst state = [] -> snd state = text_lower) ->
  (fst (fold_left Final.partial_step translations state) <> [] ->
   snd (fold_left Final.partial_step translations state) <> [])
  /\ (fst (fold_left Final.partial_step translations state) = [] ->
      snd (fold_left Final.partial_step translations state) = text_lower).
Proof.
  intros Hd. revert state.
  induction Hd as [|[k v] d Hkv _ IH]; intros [best txt] H1 H2; simpl.
  - now split.
  - simpl in Hkv, H1, H2.
    destruct (contains k txt) eqn:Ek; [|now apply IH].
    destruct (List.length best <? List.length k) eqn:El; [|now apply IH].
    apply IH; simpl.
    + intros _. now apply replace_nonempty.
    + intros ->. apply Nat.ltb_lt in El. simpl in El. lia.
Qed.

Lemma final_partial_matches_invariant (translations : dict str)
    (text_lower : str) :
  Forall (fun item => snd item <> []) translations ->
  (fst (Final.partial_matches translations text_lower) <> [] ->
   snd (Final.partial_matches translations text_lower) <> [])
  /\ (fst (Final.partial_matches translations text_lower) = [] ->
      snd (Final.partial_matches translations text_lower) = text_lower).
Proof.
  intros Hd. unfold Final.partial_matches.
  apply (final_partial_invariant translations text_lower ([], text_lower) Hd).
  - now intros [].
  - reflexivity.
Qed.

Lemma final_fallback_nonempty (backup_translations : dict (dict str))
    (text src dest : str) :
  values_nonempty backup_translations ->
  Final.translate_with_dictionary backup_translations text src dest <> [].
Proof.
  intros Hv. unfold Final.translate_with_dictionary.
  pose proof (values_nonempty_get backup_translations
                (src ++ py "-" ++ dest) Hv) as Hd.
  revert Hd.
  generalize (get_default backup_translations (src ++ py "-" ++ dest) []).
  intros translations Hd.
  destruct (get translations (strip (lower text))) as [v|] eqn:E.
  - exact (get_value_nonempty _ _ _ Hd E).
  - destruct (final_partial_matches_invariant translations
                (strip (lower text)) Hd) as [H1 H2].
    destruct (Final.partial_matches translations (strip (lower text)))
      as [best txt].
    simpl in H1, H2.
    destruct (truthy best) eqn:Eb.
    + apply H1. now apply truthy_nonempty.
    + assert (best = []) as -> by (destruct best; [reflexivity|discriminate]).
      rewrite (H2 eq_refl). rewrite final_words_map.
      destruct (eqb _ (strip (lower text))) eqn:Eq; [discriminate|].
      apply word_result_nonempty.
      * intros w Hw. unfold Spec.translate_token.
        destruct (get translations (strip_chars Final.punctuation w))
          eqn:Ew; [|exact Hw].
        exact (get_value_nonempty _ _ _ Hd Ew).
      * intros H0. rewrite H0 in Eq. simpl in Eq. discriminate Eq.
Qed.

End NeverEmpty.

Section Sentinel.

Lemma robust_sentinel (backup_translations : dict (dict str))
    (st : session_state) (text : str) :
  no_phrase_occurs
    (get_default backup_translations
       (pair_key (source_language st) (target_language st)) [])
    (strip (lower text)) ->
  Robust.backup_translate backup_translations st text = Spec.sentinel text.
Proof.
  intros Hno. unfold Robust.backup_translate.
  fold (pair_key (source_language st) (target_language st)).
  rewrite (no_phrase_no_entry _ _ _ Hno (contains_refl _)).
  rewrite (robust_partial_match_none _ text _ Hno).
  reflexivity.
Qed.

Lemma spec_word_step_untranslated (translations : dict str)
    (text_lower : str) :
  no_phrase_occurs translations text_lower ->
  Spec.word_step translations text_lower = join (py " ") (split text_lower).
Proof.
  intros Hno. unfold Spec.word_step.
  rewrite spec_words_untranslated; [reflexivity|].
  intros w Hw. apply (no_phrase_no_entry _ _ _ Hno).
  apply contains_trans with w.
  - apply strip_chars_contained.
  - now apply split_contained.
Qed.

Lemma working_sentinel (backup_translations : dict (dict str))
    (text src dest : str) :
  let translations := get_default backup_translations (pair_key src dest) [] in
  let text_lower := strip (lower text) in
  no_phrase_occurs translations text_lower ->
  join (py " ") (split text_lower) = text_lower ->
  Working.translate_with_dict backup_translations text src dest
  = Spec.sentinel text.
Proof.
  intros translations text_lower Hno Hj.
  rewrite (working_word_step backup_translations text src dest Hno).
  fold translations. fold text_lower.
  rewrite (spec_word_step_untranslated _ _ Hno), Hj. simpl.
  now rewrite eqb_refl.
Qed.

Lemma final_sentinel (backup_translations : dict (dict str))
    (text src dest : str) :
  let translations := get_default backup_translations (pair_key src dest) [] in
  let text_lower := strip (lower text) in
  no_phrase_occurs translations text_lower ->
  join (py " ") (split text_lower) = text_lower ->
  Final.translate_with_dictionary backup_translations text src dest
  = py "[Need translation: " ++ text ++ py "]".
Proof.
  intros translations text_lower Hno Hj.
  rewrite (final_word_step backup_translations text src dest Hno).
  fold translations. fold text_lower.
  rewrite (spec_word_step_untranslated _ _ Hno), Hj. simpl.
  now rewrite eqb_refl.
Qed.

End Sentinel.

Section ChainFacts.

Lemma andthen_nonempty (c k : chain unit) :
  returns_nonempty c -> returns_nonempty k -> returns_nonempty (c ;; k).
Proof.
  destruct c as [evs [m|[]]], k as [evs' [m'|[]]]; simpl; auto.
Qed.

Lemma or_finally_nonempty (c : chain unit) (m : MockTranslation) :
  returns_nonempty c -> result_text m <> [] ->
  result_text (snd (or_finally c m)) <> [].
Proof. destruct c as [evs [r|[]]]; simpl; auto. Qed.

Lemma working_attempt_nonempty (m : method) (call : outcome)
    (src dest : str) :
  returns_nonempty (Working.attempt m call src dest).
Proof.
  unfold Working.attempt. apply andthen_nonempty; [exact I|].
  destruct call as [e|[r|]]; try exact I.
  destruct (truthy r) eqn:E; [|exact I].
  simpl. now apply truthy_nonempty.
Qed.

Lemma final_attempt_nonempty (m : method) (call : outcome)
    (on_error : str -> event) (text src dest : str) :
  returns_nonempty (Final.attempt m call on_error text src dest).
Proof.
  unfold Final.attempt. apply andthen_nonempty; [exact I|].
  destruct call as [e|[r|]]; try exact I.
  destruct (truthy r) eqn:E; simpl; [|exact I].
  destruct (eqb r text); simpl; [exact I|].
  now apply truthy_nonempty.
Qed.

Lemma working_translate_nonempty (backup_translations : dict (dict str))
    (mymemory libre : str -> str -> str -> outcome) (text src dest : str) :
  values_nonempty backup_translations ->
  result_text
    (snd (Working.translate backup_translations mymemory libre text src dest))
  <> [].
Proof.
  intros Hv. unfold Working.translate. apply or_finally_nonempty.
  - repeat first [ apply working_attempt_nonempty
                 | apply andthen_nonempty
                 | exact I ].
  - now apply working_fallback_nonempty.
Qed.

Lemma final_translate_nonempty (backup_translations : dict (dict str))
    (deep_available : bool)
    (deep mymemory libre : str -> str -> str -> outcome)
    (text src dest : str) :
  values_nonempty backup_translations ->
  strip text <> [] ->
  result_text
    (snd (Final.translate backup_translations deep_available deep mymemory
            libre text src dest))
  <> [].
Proof.
  intros Hv Hs. unfold Final.translate.
  assert (Ht : truthy text = true).
  { destruct text; [now elim Hs|reflexivity]. }
  apply truthy_nonempty in Hs. rewrite Ht, Hs. simpl orb. cbv iota.
  apply or_finally_nonempty.
  - destruct deep_available;
      repeat first [ apply final_attempt_nonempty
                   | apply andthen_nonempty
                   | exact I ].
  - now apply final_fallback_nonempty.
Qed.

End ChainFacts.

(** * The conversation history *)

Section HistoryFacts.

Lemma result_eqb_eq (a b : TranslationResult) :
  result_eqb a b = true <-> a = b.
Proof.
  split.
  - destruct a as [o1 t1 s1 g1 z1 b1], b as [o2 t2 s2 g2 z2 b2].
    unfold result_eqb; simpl. intros H.
    repeat (apply andb_true_iff in H as [H ?]).
    repeat match goal with
           | E : eqb _ _ = true |- _ => apply eqb_eq in E
           end.
    match goal with E : (_ =? _)%Z = true |- _ => apply Z.eqb_eq in E end.
    subst. f_equal.
    destruct b1 as [x|], b2 as [y|]; try discriminate; [|reflexivity].
    match goal with E : Bool.eqb _ _ = true |- _ =>
      apply Bool.eqb_prop in E; now subst end.
  - intros <-. unfold result_eqb.
    rewrite !eqb_refl, Z.eqb_refl. simpl.
    destruct (is_backup a) as [x|]; [apply Bool.eqb_reflx|reflexivity].
Qed.

Lemma result_in_In (x : TranslationResult) (xs : list TranslationResult) :
  result_in x xs = true <-> In x xs.
Proof.
  unfold result_in. rewrite existsb_exists. split.
  - intros (y & Hy & E). apply result_eqb_eq in E. now subst.
  - intros H. exists x. split; [exact H|]. now apply result_eqb_eq.
Qed.

Lemma already_in_history_In (x : TranslationResult)
    (xs : list TranslationResult) :
  In x xs -> Simple.already_in_history x xs = true.
Proof.
  intros H. unfold Simple.already_in_history. apply existsb_exists.
  exists x. split; [exact H|]. now rewrite !eqb_refl.
Qed.

Lemma last_n_suffix {A} (n : nat) (xs : list A) :
  exists dropped,
    xs = dropped ++ last_n n xs /\ List.length dropped = List.length xs - n.
Proof.
  unfold last_n. exists (firstn (List.length xs - n) xs). split.
  - symmetry. apply firstn_skipn.
  - rewrite length_firstn. lia.
Qed.

Lemma last_n_length {A} (n : nat) (xs : list A) :
  List.length (last_n n xs) = Nat.min n (List.length xs).
Proof. unfold last_n. rewrite length_skipn. lia. Qed.

Lemma capped_append_length (cap : nat) (h : list TranslationResult)
    (t : TranslationResult) :
  List.length (capped_append cap h t) <= cap.
Proof.
  unfold capped_append.
  destruct (cap <? List.length (h ++ [t])) eqn:E.
  - rewrite last_n_length. lia.
  - now apply Nat.ltb_ge in E.
Qed.

Lemma capped_append_suffix (cap : nat) (h : list TranslationResult)
    (t : TranslationResult) :
  exists dropped,
    h ++ [t] = dropped ++ capped_append cap h t
    /\ List.length dropped = List.length h + 1 - cap.
Proof.
  unfold capped_append.
  destruct (cap <? List.length (h ++ [t])) eqn:E.
  - destruct (last_n_suffix cap (h ++ [t])) as (dropped & Hd & Hl).
    exists dropped. split; [exact Hd|].
    rewrite Hl, length_app. reflexivity.
  - exists []. split; [reflexivity|].
    apply Nat.ltb_ge in E. rewrite length_app in E. simpl in *. lia.
Qed.

Lemma capped_append_Forall (P : TranslationResult -> Prop) (cap : nat)
    (h : list TranslationResult) (t : TranslationResult) :
  Forall P h -> P t -> Forall P (capped_append cap h t).
Proof.
  intros Hh Ht.
  destruct (capped_append_suffix cap h t) as (dropped & E & _).
  assert (Hall : Forall P (h ++ [t])).
  { apply Forall_app. split; [exact Hh|]. now constructor. }
  rewrite E in Hall. now apply Forall_app in Hall.
Qed.

Lemma capped_append_NoDup (cap : nat) (h : list TranslationResult)
    (t : TranslationResult) :
  NoDup h -> ~ In t h -> NoDup (capped_append cap h t).
Proof.
  intros Hh Ht.
  destruct (capped_append_suffix cap h t) as (dropped & E & _).
  assert (Hall : NoDup (h ++ [t])).
  { apply NoDup_app; [exact Hh|repeat constructor; auto|].
    intros x Hx [<-|[]]. contradiction. }
  rewrite E in Hall. now apply NoDup_app_remove_l in Hall.
Qed.

(** The history after one call, variant by variant. *)

Lemma robust_history (t : TranslationResult) (st : session_state) :
  conversation_history (Robust.save_to_history t st)
  = if result_in t (conversation_history st) then conversation_history st
    else capped_append 50 (conversation_history st) t.
Proof.
  unfold Robust.save_to_history, capped_append.
  destruct (result_in t (conversation_history st)); simpl; [reflexivity|].
  now destruct (50 <? _).
Qed.

Lemma final_history (t : TranslationResult) (st : session_state) :
  conversation_history (Final.save_to_history t st)
  = if result_in t (conversation_history st) then conversation_history st
    else capped_append 50 (conversation_history st) t.
Proof.
  unfold Final.save_to_history, capped_append.
  destruct (result_in t (conversation_history st)); simpl; [reflexivity|].
  now destruct (50 <? _).
Qed.

Lemma simple_history (t : TranslationResult) (st : session_state) :
  conversation_history (Simple.save_to_history t st)
  = if Simple.already_in_history t (conversation_history st)
    then conversation_history st
    else capped_append 100 (conversation_history st) t.
Proof.
  unfold Simple.save_to_history, capped_append.
  destruct (Simple.already_in_history t (conversation_history st));
    simpl; [reflexivity|].
  now destruct (100 <? _).
Qed.

Lemma working_history (t : TranslationResult) (st : session_state) :
  conversation_history (Working.save_to_history t st)
  = capped_append 50 (conversation_history st) t.
Proof.
  unfold Working.save_to_history, capped_append.
  now destruct (50 <? _).
Qed.

(** What follows from the shape "unchanged, or appended and capped". *)

Lemma guarded_never_exceeds (cap : nat)
    (save : TranslationResult -> session_state -> session_state)
    (guard : TranslationResult -> list TranslationResult -> bool) :
  (forall t st,
     conversation_history (save t st)
     = if guard t (conversation_history st) then conversation_history st
       else capped_append cap (conversation_history st) t) ->
  never_exceeds cap save.
Proof.
  intros Hsave ts. unfold after_saves.
  induction ts as [|t ts IH]; intros st Hst; simpl; [exact Hst|].
  apply IH. rewrite Hsave.
  destruct (guard t (conversation_history st)); [exact Hst|].
  apply capped_append_length.
Qed.

Lemma capped_append_last_n (cap : nat) (h : list TranslationResult)
    (t : TranslationResult) :
  capped_append cap h t = last_n cap (h ++ [t]).
Proof.
  unfold capped_append, last_n.
  destruct (cap <? List.length (h ++ [t])) eqn:E; [reflexivity|].
  apply Nat.ltb_ge in E.
  replace (List.length (h ++ [t]) - cap) with 0 by lia. reflexivity.
Qed.

(** Cutting to the last [n] entries before more entries follow does not
    change the last [n] entries of the whole. *)
Lemma last_n_absorb {A} (n : nat) (l more : list A) :
  last_n n (last_n n l ++ more) = last_n n (l ++ more).
Proof.
  destruct (last_n_suffix n l) as (dropped & E & Hl).
  pose proof (last_n_length n l) as Hn.
  destruct dropped as [|x dropped].
  - simpl in E. now rewrite <- E.
  - simpl in Hl. rewrite E at 2. remember (last_n n l) as kept eqn:Ek.
    clear Ek. unfold last_n. rewrite <- app_assoc, !length_app.
    replace (List.length (x :: dropped) + (List.length kept
                                           + List.length more) - n)
      with (List.length (x :: dropped)
            + (List.length kept + List.length more - n)) by lia.
    rewrite (skipn_app _ (x :: dropped)).
    rewrite (skipn_all2 (x :: dropped)) by lia.
    simpl app. f_equal. lia.
Qed.

Lemma guarded_drops_oldest (cap : nat)
    (save : TranslationResult -> session_state -> session_state)
    (guard : TranslationResult -> list TranslationResult -> bool)
    (admitted : list TranslationResult -> Prop) :
  (forall t st,
     conversation_history (save t st)
     = if guard t (conversation_history st) then conversation_history st
       else capped_append cap (conversation_history st) t) ->
  (forall h t more, admitted (h ++ t :: more) -> guard t h = false) ->
  (forall dropped l, admitted (dropped ++ l) -> admitted l) ->
  drops_oldest cap admitted save.
Proof.
  intros Hsave Hguard Htail ts. unfold after_saves.
  induction ts as [|t ts IH]; intros st Hlen Hadm; simpl.
  - rewrite app_nil_r. unfold last_n.
    replace (List.length (conversation_history st) - cap) with 0 by lia.
    reflexivity.
  - assert (Eh : conversation_history (save t st)
                 = last_n cap (conversation_history st ++ [t])).
    { rewrite Hsave, (Hguard _ _ _ Hadm). apply capped_append_last_n. }
    rewrite IH.
    + rewrite Eh, last_n_absorb, <- app_assoc. reflexivity.
    + rewrite Eh, last_n_length. lia.
    + rewrite Eh.
      destruct (last_n_suffix cap (conversation_history st ++ [t]))
        as (dropped & E & _).
      apply (Htail dropped). rewrite app_assoc, <- E, <- app_assoc.
      exact Hadm.
Qed.

Lemma distinct_records_guard (h : list TranslationResult)
    (t : TranslationResult) (more : list TranslationResult) :
  distinct_records (h ++ t :: more) -> result_in t h = false.
Proof.
  intros Hnd. apply NoDup_remove_2 in Hnd.
  destruct (result_in t h) eqn:E; [|reflexivity].
  apply result_in_In in E. elim Hnd. apply in_or_app. now left.
Qed.

Lemma distinct_records_tail (dropped l : list TranslationResult) :
  distinct_records (dropped ++ l) -> distinct_records l.
Proof. apply NoDup_app_remove_l. Qed.

Lemma distinct_texts_guard (h : list TranslationResult)
    (t : TranslationResult) (more : list TranslationResult) :
  distinct_texts (h ++ t :: more) -> Simple.already_in_history t h = false.
Proof.
  unfold distinct_texts. rewrite map_app. simpl. intros Hnd.
  apply NoDup_remove_2 in Hnd.
  unfold Simple.already_in_history.
  destruct (existsb _ h) eqn:E; [|reflexivity].
  apply existsb_exists in E. destruct E as (item & Hin & E).
  apply andb_prop in E. destruct E as [Eo Et].
  apply eqb_eq in Eo. apply eqb_eq in Et.
  elim Hnd. apply in_or_app. left. apply in_map_iff.
  exists item. split; [|exact Hin]. now rewrite Eo, Et.
Qed.

Lemma distinct_texts_tail (dropped l : list TranslationResult) :
  distinct_texts (dropped ++ l) -> distinct_texts l.
Proof.
  unfold distinct_texts. rewrite map_app. apply NoDup_app_remove_l.
Qed.

Lemma map_seq_NoDup {A} (f : nat -> A) :
  (forall n m, f n = f m -> n = m) ->
  forall len start, NoDup (map f (seq start len)).
Proof.
  intros Hinj len.
  induction len as [|len IH]; intros start; simpl; constructor.
  - intros Hin. apply in_map_iff in Hin. destruct Hin as (m & E & Hm).
    apply in_seq in Hm. apply Hinj in E. lia.
  - apply IH.
Qed.

(** The records of the test sessions differ in both texts. *)
Lemma sample_results_distinct (start len : nat) :
  distinct_records (map sample_result (seq start len))
  /\ distinct_texts (map sample_result (seq start len)).
Proof.
  assert (Hinj : forall n m,
             original_text (sample_result n) = original_text (sample_result m)
             -> n = m).
  { intros n m E. apply (f_equal (@List.length ascii)) in E.
    simpl in E. rewrite ?length_app, ?repeat_length in E. lia. }
  assert (Ht : distinct_texts (map sample_result (seq start len))).
  { unfold distinct_texts. rewrite map_map. apply map_seq_NoDup.
    intros n m E. apply Hinj. exact (f_equal fst E). }
  split; [|exact Ht].
  unfold distinct_texts in Ht. now apply NoDup_map_inv in Ht.
Qed.

Lemma guarded_keeps_distinct (cap : nat)
    (save : TranslationResult -> session_state -> session_state)
    (guard : TranslationResult -> list TranslationResult -> bool) :
  (forall t st,
     conversation_history (save t st)
     = if guard t (conversation_history st) then conversation_history st
       else capped_append cap (conversation_history st) t) ->
  (forall t h, guard t h = false -> ~ In t h) ->
  keeps_distinct save.
Proof.
  intros Hsave Hguard ts. unfold after_saves.
  induction ts as [|t ts IH]; intros st Hst; simpl; [exact Hst|].
  apply IH. rewrite Hsave.
  destruct (guard t (conversation_history st)) eqn:E; [exact Hst|].
  apply capped_append_NoDup; [exact Hst|now apply Hguard].
Qed.

End HistoryFacts.

(** C8.  For every sequence of calls of [save_to_history] the history never
    exceeds the cap of the variant (50 in the robust, final and working
    variants, 100 in the simple variant).  Records that the guard of the
    variant lets through (any records in the working variant) are all
    kept as long as the cap allows, and an append beyond the cap drops the
    oldest entries: after the calls the history is the last 50 (100)
    entries of the old history followed by the saved records, in insertion
    order. *)
Theorem history_is_capped_fifo :
  never_exceeds 50 Robust.save_to_history
  /\ never_exceeds 100 Simple.save_to_history
  /\ never_exceeds 50 Final.save_to_history
  /\ never_exceeds 50 Working.save_to_history
  /\ drops_oldest 50 distinct_records Robust.save_to_history
  /\ drops_oldest 100 distinct_texts Simple.save_to_history
  /\ drops_oldest 50 distinct_records Final.save_to_history
  /\ drops_oldest 50 any_records Working.save_to_history.
Proof.
  repeat split.
  - exact (guarded_never_exceeds 50 _ result_in robust_history).
  - exact (guarded_never_exceeds 100 _ Simple.already_in_history
             simple_history).
  - exact (guarded_never_exceeds 50 _ result_in final_history).
  - exact (guarded_never_exceeds 50 _ (fun _ _ => false) working_history).
  - exact (guarded_drops_oldest 50 _ result_in _ robust_history
             distinct_records_guard distinct_records_tail).
  - exact (guarded_drops_oldest 100 _ Simple.already_in_history _
             simple_history distinct_texts_guard distinct_texts_tail).
  - exact (guarded_drops_oldest 50 _ result_in _ final_history
             distinct_records_guard distinct_records_tail).
  - exact (guarded_drops_oldest 50 _ (fun _ _ => false) any_records
             working_history (fun _ _ _ _ => eq_refl) (fun _ _ _ => I)).
Qed.

(** Fifty-three distinct records saved into a fresh session: the robust
    history holds the last fifty of them in their order, the first three
    are gone; the simple history holds all of them. *)
Lemma history_is_capped_fifo_witness :
  List.length (conversation_history (initial_session 0)) <= 50
  /\ distinct_records
       (conversation_history (initial_session 0)
        ++ map sample_result (seq 0 53))
  /\ distinct_texts
       (conversation_history (initial_session 0)
        ++ map sample_result (seq 0 53))
  /\ conversation_history
       (after_saves Robust.save_to_history
          (map sample_result (seq 0 53)) (initial_session 0))
     = map sample_result (seq 3 50)
  /\ conversation_history
       (after_saves Simple.save_to_history
          (map sample_result (seq 0 53)) (initial_session 0))
     = map sample_result (seq 0 53)
  /\ List.length
       (conversation_history
          (after_saves Robust.save_to_history
             (map sample_result (seq 0 53)) (initial_session 0))) <= 50.
Proof.
  destruct history_is_capped_fifo
    as (Hcap & _ & _ & _ & Hrobust & Hsimple & _).
  destruct (sample_results_distinct 0 53) as [Hr Ht].
  assert (Hlen : List.length (conversation_history (initial_session 0))
                 <= 50) by (simpl; lia).
  split; [exact Hlen|]. split; [exact Hr|]. split; [exact Ht|].
  split; [|split].
  - rewrite (Hrobust _ _ Hlen Hr). vm_compute. reflexivity.
  - assert (Hlen' : List.length (conversation_history (initial_session 0))
                    <= 100) by (simpl; lia).
    rewrite (Hsimple _ _ Hlen' Ht). vm_compute. reflexivity.
  - apply Hcap. exact Hlen.
Defined.

(** C10.  In the variants that guard against duplicates (robust, final,
    simple), [save_to_history] with a record that the history already holds
    leaves the session unchanged, and no sequence of calls puts two equal
    records into a history that had none. *)
Theorem history_has_no_duplicates :
  ignores_duplicates Robust.save_to_history
  /\ ignores_duplicates Final.save_to_history
  /\ ignores_duplicates Simple.save_to_history
  /\ keeps_distinct Robust.save_to_history
  /\ keeps_distinct Final.save_to_history
  /\ keeps_distinct Simple.save_to_history.
Proof.
  repeat split.
  - intros t st H. unfold Robust.save_to_history.
    apply result_in_In in H. now rewrite H.
  - intros t st H. unfold Final.save_to_history.
    apply result_in_In in H. now rewrite H.
  - intros t st H. unfold Simple.save_to_history.
    now rewrite (already_in_history_In _ _ H).
  - apply (guarded_keeps_distinct 50 _ result_in robust_history).
    intros t h E Hin. apply result_in_In in Hin. congruence.
  - apply (guarded_keeps_distinct 50 _ result_in final_history).
    intros t h E Hin. apply result_in_In in Hin. congruence.
  - apply (guarded_keeps_distinct 100 _ Simple.already_in_history
             simple_history).
    intros t h E Hin. apply already_in_history_In in Hin. congruence.
Qed.

(** A record saved twice is held once, and the history of a session that
    saw the same record again and again has no duplicates. *)
Lemma history_has_no_duplicates_witness :
  In (sample_result 1)
    (conversation_history
       (Robust.save_to_history (sample_result 1) (initial_session 0)))
  /\ Robust.save_to_history (sample_result 1)
       (Robust.save_to_history (sample_result 1) (initial_session 0))
     = Robust.save_to_history (sample_result 1) (initial_session 0)
  /\ NoDup (conversation_history (initial_session 0))
  /\ NoDup
       (conversation_history
          (after_saves Simple.save_to_history
             [sample_result 1; sample_result 2; sample_result 1]
             (initial_session 0))).
Proof.
  destruct history_has_no_duplicates as (Hrobust & _ & _ & _ & _ & Hsimple).
  assert (Hin : In (sample_result 1)
                  (conversation_history
                     (Robust.save_to_history (sample_result 1)
                        (initial_session 0))))
    by (simpl; left; reflexivity).
  split; [exact Hin|]. split; [exact (Hrobust _ _ Hin)|].
  assert (Hnd : NoDup (conversation_history (initial_session 0)))
    by (simpl; constructor).
  split; [exact Hnd|]. exact (Hsimple _ _ Hnd).
Defined.

(** * The substring step of the fallback *)

Section SubstringStep.




End SubstringStep.




(** * The sentinel and the invariant of the results *)

Section RobustSession.

Variable backup_translations : dict (dict str).
Variable services_translation services_tts : bool.
Variable translation_service : option Robust.service.
Variable GoogleTranslator_translate Translator_translate mymemory_exchange
  : str -> str -> str -> outcome.
Variable tts_say : str -> option str.

Let translate_text :=
  Robust.translate_text backup_translations services_translation services_tts
    translation_service GoogleTranslator_translate Translator_translate
    mymemory_exchange tts_say.

Lemma robust_save_nonempty (t : TranslationResult) (st : session_state) :
  results_nonempty st -> translated_text t <> [] ->
  results_nonempty (Robust.save_to_history t st).
Proof.
  intros [Hc Hh] Ht. split.
  - unfold Robust.save_to_history.
    destruct (negb _); [|exact Hc]. now destruct (50 <? _).
  - rewrite robust_history.
    destruct (result_in t (conversation_history st)); [exact Hh|].
    now apply capped_append_Forall.
Qed.

Lemma robust_translate_text_nonempty (now : Z) (text : str)
    (st : session_state) :
  results_nonempty st -> results_nonempty (fst (translate_text now text st)).
Proof.
  intros Hst. unfold translate_text, Robust.translate_text.
  destruct (Robust.service_answer _ _ _ _ _ st text) as [e|answer];
    [exact Hst|].
  match goal with
  | |- context [let '(_, _) := ?chosen in _] =>
      destruct chosen as [translated backup]
  end.
  destruct (truthy translated) eqn:E; [|exact Hst].
  simpl fst. apply robust_save_nonempty.
  - destruct Hst as [_ Hh]. split; [|exact Hh].
    simpl. intros r [= <-]. simpl. now apply truthy_nonempty.
  - simpl. now apply truthy_nonempty.
Qed.

End RobustSession.

(** C2, as the code has it.  When no dictionary phrase occurs in the
    lowercased, trimmed text, [backup_translate] of the robust variant
    returns "[Translation needed: <text>]"; [translate_with_dict] of the
    working variant returns the same sentinel, and
    [translate_with_dictionary] of the final variant returns
    "[Need translation: <text>]", when in addition the words of the text are
    separated by single spaces (step 3d compares the rejoined words with the
    text).  None of them raises.  With dictionaries whose values are not
    empty, [translate] of the working variant never returns an empty text,
    [translate] of the final variant returns none for a text that is not
    blank, and [translate_text] of the robust variant never stores a result
    with an empty translated text. *)
Theorem sentinel_on_total_miss :
  (forall backup_translations st text,
     no_phrase_occurs
       (get_default backup_translations
          (pair_key (source_language st) (target_language st)) [])
       (strip (lower text)) ->
     Robust.backup_translate backup_translations st text
     = Spec.sentinel text)
  /\ (forall backup_translations text src dest,
        let translations :=
          get_default backup_translations (pair_key src dest) [] in
        let text_lower := strip (lower text) in
        no_phrase_occurs translations text_lower ->
        join (py " ") (split text_lower) = text_lower ->
        Working.translate_with_dict backup_translations text src dest
        = Spec.sentinel text)
  /\ (forall backup_translations text src dest,
        let translations :=
          get_default backup_translations (pair_key src dest) [] in
        let text_lower := strip (lower text) in
        no_phrase_occurs translations text_lower ->
        join (py " ") (split text_lower) = text_lower ->
        Final.translate_with_dictionary backup_translations text src dest
        = py "[Need translation: " ++ text ++ py "]")
  /\ (forall backup_translations mymemory libre text src dest,
        values_nonempty backup_translations ->
        result_text
          (snd (Working.translate backup_translations mymemory libre
                  text src dest)) <> [])
  /\ (forall backup_translations deep_available deep mymemory libre
        text src dest,
        values_nonempty backup_translations ->
        strip text <> [] ->
        result_text
          (snd (Final.translate backup_translations deep_available deep
                  mymemory libre text src dest)) <> [])
  /\ (forall backup_translations services_translation services_tts
        translation_service google translator mymemory_exchange tts_say
        now text st,
        results_nonempty st ->
        results_nonempty
          (fst (Robust.translate_text backup_translations
                  services_translation services_tts translation_service
                  google translator mymemory_exchange tts_say
                  now text st))).
Proof.
  split; [exact robust_sentinel|].
  split; [exact working_sentinel|].
  split; [exact final_sentinel|].
  split; [exact working_translate_nonempty|].
  split; [exact final_translate_nonempty|].
  exact robust_translate_text_nonempty.
Qed.

(** The total miss of the specification, "xyz abc", in the robust variant,
    and a final variant without network on a text that is not blank. *)
Lemma sentinel_on_total_miss_witness :
  no_phrase_occurs Robust_data.en_de (strip (lower (py "xyz abc")))
  /\ Robust.backup_translate Robust_data.backup_translations
       (initial_session 0) (py "xyz abc")
     = py "[Translation needed: xyz abc]"
  /\ values_nonempty Final_data.backup_translations
  /\ strip (py "xyz abc") <> []
  /\ result_text
       (snd (Final.translate Final_data.backup_translations true
               no_network no_network no_network
               (py "xyz abc") (py "en") (py "de"))) <> []
  /\ results_nonempty (initial_session 0)
  /\ results_nonempty
       (fst (Robust.translate_text Robust_data.backup_translations
               false false None no_network no_network no_network
               (fun _ => None) 7 (py "xyz abc") (initial_session 0))).
Proof.
  destruct sentinel_on_total_miss
    as (Hrobust & _ & _ & _ & Hfinal & Hsession).
  assert (Hno : no_phrase_occurs Robust_data.en_de
                  (strip (lower (py "xyz abc"))))
    by (apply no_phrase_occurs_check; vm_compute; reflexivity).
  assert (Hv : values_nonempty Final_data.backup_translations)
    by (apply values_nonempty_check; vm_compute; reflexivity).
  assert (Hs : strip (py "xyz abc") <> []) by (vm_compute; discriminate).
  assert (Hi : results_nonempty (initial_session 0)).
  { split; [discriminate|constructor]. }
  split; [exact Hno|]. split.
  - exact (Hrobust Robust_data.backup_translations (initial_session 0)
             (py "xyz abc") Hno).
  - split; [exact Hv|]. split; [exact Hs|]. split.
    + exact (Hfinal _ true no_network no_network no_network
               (py "xyz abc") (py "en") (py "de") Hv Hs).
    + split; [exact Hi|]. now apply Hsession.
Defined.

(** C2, as the specification states it, fails in the final variant: on the
    total miss "xyz abc", with every backend down, the output is
    "[Need translation: xyz abc]" and not the sentinel of the
    specification; and in the working variant a total miss whose words are
    two spaces apart comes back rejoined, without any sentinel. *)
Lemma sentinel_counterexample :
  no_phrase_occurs Final_data.en_de (strip (lower (py "xyz abc")))
  /\ result_text
       (snd (Final.translate Final_data.backup_translations true
               no_network no_network no_network
               (py "xyz abc") (py "en") (py "de")))
     = py "[Need translation: xyz abc]"
  /\ py "[Need translation: xyz abc]" <> Spec.sentinel (py "xyz abc")
  /\ no_phrase_occurs Working_data.en_de (strip (lower (py "xyz  abc")))
  /\ result_text
       (snd (Working.translate Working_data.backup_translations
               no_network no_network (py "xyz  abc") (py "en") (py "de")))
     = py "xyz abc"
  /\ py "xyz abc" <> Spec.sentinel (py "xyz  abc").
Proof.
  split; [apply no_phrase_occurs_check; vm_compute; reflexivity|].
  split; [vm_compute; reflexivity|].
  split; [vm_compute; discriminate|].
  split; [apply no_phrase_occurs_check; vm_compute; reflexivity|].
  split; [vm_compute; reflexivity|].
  vm_compute; discriminate.
Qed.

(** * The backend chain *)

Section Chain.

Lemma final_chain (backup_translations : dict (dict str))
    (deep_available : bool)
    (deep mymemory libre : str -> str -> str -> outcome)
    (text src dest : str) :
  strip text <> [] ->
  let r := Final.translate backup_translations deep_available deep mymemory
             libre text src dest in
  let answers :=
    final_answers deep_available deep mymemory libre text src dest in
  result_text (snd r)
  = match Spec.first_accepted (Spec.acceptable text) answers with
    | Some translated => translated
    | None =>
        Final.translate_with_dictionary backup_translations text src dest
    end
  /\ methods_called (fst r)
     = Spec.methods_tried (Spec.acceptable text) answers.
Proof.
  intros Hs. unfold Final.translate, final_answers.
  assert (Ht : truthy text = true).
  { destruct text; [now elim Hs|reflexivity]. }
  apply truthy_nonempty in Hs. rewrite Ht, Hs. simpl orb. cbv iota.
  unfold Final.attempt.
  destruct deep_available;
    [destruct (deep text src dest) as [e1|[r1|]]|];
    destruct (mymemory text src dest) as [e2|[r2|]];
    destruct (libre text src dest) as [e3|[r3|]];
    expose_answers; decide_answers; split; reflexivity.
Qed.

Lemma working_chain (backup_translations : dict (dict str))
    (mymemory libre : str -> str -> str -> outcome)
    (text src dest : str) :
  let r := Working.translate backup_translations mymemory libre
             text src dest in
  let answers := working_answers mymemory libre text src dest in
  result_text (snd r)
  = match Spec.first_accepted truthy answers with
    | Some translated => translated
    | None => Working.translate_with_dict backup_translations text src dest
    end
  /\ methods_called (fst r) = Spec.methods_tried truthy answers.
Proof.
  unfold Working.translate, working_answers, Working.attempt.
  destruct (mymemory text src dest) as [e2|[r2|]];
    destruct (libre text src dest) as [e3|[r3|]];
    expose_answers; decide_answers; split; reflexivity.
Qed.

End Chain.

(** C4, as the code has it.  [translate] of the final variant tries its
    backends in order (the deep-translator library when it is installed,
    MyMemory, LibreTranslate) and returns the first answer that is not empty
    and not identical to the input; an answer that is empty, identical to
    the input or an exception makes the chain go on, and the dictionary
    comes last.  [translate] of the working variant returns the first answer
    that is not empty, whether it is identical to the input or not. *)
Theorem backend_chain_acceptance :
  (forall backup_translations deep_available deep mymemory libre
     text src dest,
     strip text <> [] ->
     let r := Final.translate backup_translations deep_available deep
                mymemory libre text src dest in
     let answers :=
       final_answers deep_available deep mymemory libre text src dest in
     result_text (snd r)
     = match Spec.first_accepted (Spec.acceptable text) answers with
       | Some translated => translated
       | None =>
           Final.translate_with_dictionary backup_translations text src dest
       end
     /\ methods_called (fst r)
        = Spec.methods_tried (Spec.acceptable text) answers)
  /\ (forall backup_translations mymemory libre text src dest,
        let r := Working.translate backup_translations mymemory libre
                   text src dest in
        let answers := working_answers mymemory libre text src dest in
        result_text (snd r)
        = match Spec.first_accepted truthy answers with
          | Some translated => translated
          | None =>
              Working.translate_with_dict backup_translations text src dest
          end
        /\ methods_called (fst r) = Spec.methods_tried truthy answers).
Proof. split; [exact final_chain|exact working_chain]. Qed.

(** The final variant on "Berlin", with a library that raises and a MyMemory
    that hands "Berlin" back: the chain goes on to LibreTranslate. *)
Lemma backend_chain_acceptance_witness :
  strip (py "Berlin") <> []
  /\ methods_called
       (fst (Final.translate Final_data.backup_translations true
               no_network echo no_answer (py "Berlin") (py "en") (py "de")))
     = [DeepTranslator; MyMemory; LibreTranslate; Dictionary].
Proof.
  destruct backend_chain_acceptance as [Hfinal _].
  assert (Hs : strip (py "Berlin") <> []) by (vm_compute; discriminate).
  split; [exact Hs|].
  destruct (Hfinal Final_data.backup_translations true
              no_network echo no_answer (py "Berlin") (py "en") (py "de") Hs)
    as [_ Hcalled].
  rewrite Hcalled. vm_compute; reflexivity.
Defined.

(** C4, as the specification states it, fails in the working variant: a
    MyMemory that hands "Berlin" back is not acceptable by step 2b, and yet
    its answer is returned and LibreTranslate is never asked. *)
Lemma acceptance_counterexample :
  Spec.acceptable (py "Berlin") (py "Berlin") = false
  /\ Working.translate Working_data.backup_translations echo no_answer
       (py "Berlin") (py "en") (py "de")
     = ([Called MyMemory],
        {| text := py "Berlin"; src := py "en"; dest := py "de" |}).
Proof. split; vm_compute; reflexivity. Qed.

(** * The robust session *)

Section RobustFallback.

Variable backup_translations : dict (dict str).
Variable services_translation services_tts : bool.
Variable translation_service : option Robust.service.
Variable GoogleTranslator_translate Translator_translate mymemory_exchange
  : str -> str -> str -> outcome.
Variable tts_say : str -> option str.

Let translate_text :=
  Robust.translate_text backup_translations services_translation services_tts
    translation_service GoogleTranslator_translate Translator_translate
    mymemory_exchange tts_say.

Let service_answer :=
  Robust.service_answer services_translation translation_service
    GoogleTranslator_translate Translator_translate mymemory_exchange.

Lemma strip_contained (s : str) : contains (strip s) s = true.
Proof.
  unfold strip, lstrip_by.
  destruct (dropwhile_suffix isspace s) as [l E].
  destruct (rstrip_by_prefix isspace (dropwhile isspace s)) as [r E'].
  rewrite E at 2. rewrite E' at 2. apply contains_intro.
Qed.

Lemma robust_fallback_nonempty (st : session_state) (text : str) :
  values_nonempty backup_translations ->
  Robust.backup_translate backup_translations st text <> [].
Proof.
  intros Hv. unfold Robust.backup_translate.
  pose proof (values_nonempty_get backup_translations
                (source_language st ++ py "-" ++ target_language st) Hv)
    as Hd.
  revert Hd.
  generalize (get_default backup_translations
                (source_language st ++ py "-" ++ target_language st) []).
  intros translations Hd.
  destruct (get translations (strip (lower text))) as [v|] eqn:E.
  - exact (get_value_nonempty _ _ _ Hd E).
  - destruct (Robust.partial_match translations text (strip (lower text)))
      as [r|] eqn:Ep; [|discriminate].
    clear E. induction translations as [|[k v] d IH]; [discriminate|].
    simpl in Ep. inversion Hd as [|? ? Hkv Hd']; subst. simpl in Hkv.
    destruct (contains k (strip (lower text))) eqn:Ek.
    + injection Ep as <-. apply replace_nonempty; [exact Hkv|].
      apply contains_trans with (strip (lower text)); [exact Ek|].
      apply strip_contained.
    + now apply IH.
Qed.

Lemma robust_save_current (t : TranslationResult) (st : session_state) :
  current_translation (Robust.save_to_history t st) = current_translation st.
Proof.
  unfold Robust.save_to_history.
  destruct (negb _); [|reflexivity]. now destruct (50 <? _).
Qed.

(** What [translate_text] stores when the service gives nothing: the result
    of [backup_translate], marked as a backup. *)
Lemma robust_fallback_result (now : Z) (text : str) (st : session_state) :
  yields_nothing (service_answer st text) ->
  Robust.backup_translate backup_translations st text <> [] ->
  current_translation (fst (translate_text now text st))
  = Some {| original_text := text;
            translated_text :=
              Robust.backup_translate backup_translations st text;
            source_lang := source_language st;
            target_lang := target_language st;
            timestamp := now;
            is_backup := Some true |}.
Proof.
  intros Hanswer Hne. unfold translate_text, Robust.translate_text.
  unfold service_answer in Hanswer.
  apply truthy_nonempty in Hne.
  destruct Hanswer as [-> | ->]; simpl; rewrite Hne; simpl;
    now rewrite robust_save_current.
Qed.

End RobustFallback.

Lemma robust_values_nonempty : values_nonempty Robust_data.backup_translations.
Proof. apply values_nonempty_check. vm_compute. reflexivity. Qed.

(** C3, where the code falls short of it.  In the robust variant, when
    the lowercased, trimmed text is a key of the dictionary of the language
    pair and the translation service is not available (it is flagged off,
    it returns [None], or its call raises), [translate_text] stores the
    value of the dictionary with 'is_backup' [True] only when the service
    returns.  When the call raises, which is the case exactly when one of
    the two libraries is the selected service and its "translate" raises,
    the session stays as it was and an error is shown: the dictionary is
    not asked. *)
Theorem exact_phrase_is_lost_when_the_service_raises :
  forall services_translation services_tts translation_service
    google translator mymemory_exchange tts_say now text st translation,
    get (get_default Robust_data.backup_translations
           (pair_key (source_language st) (target_language st)) [])
      (strip (lower text)) = Some translation ->
    unavailable
      (Robust.service_answer services_translation translation_service
         google translator mymemory_exchange st text) ->
    let answer :=
      Robust.service_answer services_translation translation_service
        google translator mymemory_exchange st text in
    let after :=
      Robust.translate_text Robust_data.backup_translations
        services_translation services_tts translation_service
        google translator mymemory_exchange tts_say now text st in
    (forall e,
       answer = Raises e ->
       after = (st, [Error (py "Translation error: " ++ e)]))
    /\ (forall returned,
          answer = Returns returned ->
          exists result,
            current_translation (fst after) = Some result
            /\ original_text result = text
            /\ translated_text result = translation
            /\ is_backup result = Some true)
    /\ (forall e,
          answer = Raises e
          <-> services_translation = true
              /\ ((translation_service = Some Robust.deep_translator
                   /\ google (source_language st) (target_language st) text
                      = Raises e)
                  \/ (translation_service = Some Robust.translate
                      /\ translator (source_language st)
                           (target_language st) text
                         = Raises e))).
Proof.
  intros st_flag tts_flag service google translator exchange say now text st
    translation Hget Hanswer answer after.
  split; [|split].
  - intros e E. subst after. unfold Robust.translate_text.
    fold answer. now rewrite E.
  - intros returned E. subst after.
    assert (Hb : Robust.backup_translate Robust_data.backup_translations
                   st text = translation).
    { unfold Robust.backup_translate.
      fold (pair_key (source_language st) (target_language st)).
      now rewrite Hget. }
    fold answer in Hanswer. rewrite E in Hanswer.
    destruct returned as [t|]; [contradiction|].
    eexists. split.
    + apply robust_fallback_result; [left; exact E|].
      apply robust_fallback_nonempty, robust_values_nonempty.
    + simpl. auto.
  - intros e. subst answer. unfold Robust.service_answer.
    destruct st_flag; [|split; [discriminate|intros [H _]; discriminate H]].
    destruct service as [[| |]|]; split;
      try discriminate; intuition congruence.
Qed.

(** "hello", a key of the dictionary, with the deep-translator library
    selected and the network down: nothing is stored.  "  Good Morning " in
    a session without any translation service: the value of the dictionary
    is stored. *)
Lemma exact_phrase_is_lost_when_the_service_raises_witness :
  get Robust_data.en_de (strip (lower (py "hello"))) = Some (py "hallo")
  /\ unavailable
       (Robust.service_answer true (Some Robust.deep_translator)
          no_network no_answer no_answer (initial_session 0) (py "hello"))
  /\ Robust.translate_text Robust_data.backup_translations
       true false (Some Robust.deep_translator)
       no_network no_answer no_answer (fun _ => None)
       7 (py "hello") (initial_session 0)
     = (initial_session 0,
        [Error (py "Translation error: " ++ py "ConnectionError")])
  /\ get Robust_data.en_de (strip (lower (py "  Good Morning ")))
     = Some (py "guten morgen")
  /\ unavailable
       (Robust.service_answer false None no_network no_network no_network
          (initial_session 0) (py "  Good Morning "))
  /\ exists result,
       current_translation
         (fst (Robust.translate_text Robust_data.backup_translations
                 false false None no_network no_network no_network
                 (fun _ => None) 7 (py "  Good Morning ")
                 (initial_session 0)))
       = Some result
       /\ original_text result = py "  Good Morning "
       /\ translated_text result = py "guten morgen"
       /\ is_backup result = Some true.
Proof.
  assert (Hget : get Robust_data.en_de (strip (lower (py "hello")))
                 = Some (py "hallo"))
    by (vm_compute; reflexivity).
  assert (Hanswer : unavailable
                      (Robust.service_answer true
                         (Some Robust.deep_translator)
                         no_network no_answer no_answer
                         (initial_session 0) (py "hello")))
    by exact I.
  assert (Hget' : get Robust_data.en_de
                    (strip (lower (py "  Good Morning ")))
                  = Some (py "guten morgen"))
    by (vm_compute; reflexivity).
  assert (Hanswer' : unavailable
                       (Robust.service_answer false None
                          no_network no_network no_network
                          (initial_session 0) (py "  Good Morning ")))
    by exact I.
  split; [exact Hget|]. split; [exact Hanswer|]. split.
  - apply (proj1 (exact_phrase_is_lost_when_the_service_raises
                    true false (Some Robust.deep_translator)
                    no_network no_answer no_answer (fun _ => None)
                    7 (py "hello") (initial_session 0) (py "hallo")
                    Hget Hanswer)).
    reflexivity.
  - split; [exact Hget'|]. split; [exact Hanswer'|].
    apply (proj1 (proj2 (exact_phrase_is_lost_when_the_service_raises
                           false false None
                           no_network no_network no_network (fun _ => None)
                           7 (py "  Good Morning ") (initial_session 0)
                           (py "guten morgen") Hget' Hanswer')) None).
    reflexivity.
Defined.

(** C5, where the code falls short of it.  The robust variant with the
    deep-translator library installed and the network down: the exception
    of the library leaves the "try" block of [translate_text], an error is
    shown, no result is stored and the dictionary, which knows "hello", is
    never asked. *)
Lemma robust_exception_leaves_no_result :
  Robust.translate_text Robust_data.backup_translations
    true false (Some Robust.deep_translator)
    no_network no_answer no_answer (fun _ => None)
    7 (py "hello") (initial_session 0)
  = (initial_session 0, [Error (py "Translation error: ConnectionError")])
  /\ Robust.backup_translate Robust_data.backup_translations
       (initial_session 0) (py "hello") = py "hallo".
Proof. split; vm_compute; reflexivity. Qed.

(** * Blank input *)

Lemma strip_blank (s : str) :
  Forall (fun c => isspace c = true) s -> strip s = [].
Proof.
  intros H. unfold strip, lstrip_by, rstrip_by.
  assert (E : dropwhile isspace s = []).
  { induction H as [|c s Hc _ IH]; simpl; [reflexivity|]. now rewrite Hc. }
  now rewrite E.
Qed.

(** C6.  For every empty or whitespace-only text, [translate] of the final
    variant returns at once: the translated text is empty, no backend was
    invoked, and the dictionary fallback was not reached (the result is no
    fallback result). *)
Theorem blank_input_returns_at_once :
  forall backup_translations deep_available deep mymemory libre
    text src dest,
    Forall (fun c => isspace c = true) text ->
    let r := Final.translate backup_translations deep_available deep
               mymemory libre text src dest in
    snd r = {| text := []; src := src; dest := dest |}
    /\ backends_invoked (fst r) = []
    /\ is_fallback (fst r) = false
    /\ fst r = [].
Proof.
  intros bt da deep mymemory libre text src dest H.
  unfold Final.translate. rewrite (strip_blank text H).
  simpl truthy. rewrite orb_true_r. repeat split.
Qed.

(** A text of two spaces and a tab, with backends that would all answer. *)
Lemma blank_input_returns_at_once_witness :
  Forall (fun c => isspace c = true) [" "; " "; "009"]%char
  /\ Final.translate Final_data.backup_translations true echo echo echo
       [" "; " "; "009"]%char (py "en") (py "de")
     = ([], {| text := []; src := py "en"; dest := py "de" |}).
Proof.
  assert (H : Forall (fun c => isspace c = true) [" "; " "; "009"]%char)
    by (repeat constructor).
  split; [exact H|].
  destruct (blank_input_returns_at_once Final_data.backup_translations
              true echo echo echo [" "; " "; "009"]%char (py "en") (py "de")
              H) as (Hr & _ & _ & He).
  rewrite (surjective_pairing (Final.translate _ _ _ _ _ _ _ _)).
  now rewrite Hr, He.
Defined.

(** * Determinism of the fallback *)

Section Determinism.

Lemma final_without_backends (backup_translations : dict (dict str))
    (deep_available : bool)
    (deep mymemory libre : str -> str -> str -> outcome)
    (text src dest : str) :
  unavailable (deep text src dest) ->
  unavailable (mymemory text src dest) ->
  unavailable (libre text src dest) ->
  snd (Final.translate backup_translations deep_available deep mymemory
         libre text src dest)
  = {| text :=
         if negb (truthy text) || negb (truthy (strip text)) then []
         else Final.translate_with_dictionary backup_translations
                text src dest;
       src := src; dest := dest |}.
Proof.
  intros H1 H2 H3. unfold Final.translate, Final.attempt.
  destruct (negb (truthy text) || negb (truthy (strip text)));
    [reflexivity|].
  destruct (deep text src dest) as [e1|[r1|]]; try contradiction;
    destruct (mymemory text src dest) as [e2|[r2|]]; try contradiction;
    destruct (libre text src dest) as [e3|[r3|]]; try contradiction;
    destruct deep_available; reflexivity.
Qed.

Lemma working_without_backends (backup_translations : dict (dict str))
    (mymemory libre : str -> str -> str -> outcome)
    (text src dest : str) :
  unavailable (mymemory text src dest) ->
  unavailable (libre text src dest) ->
  snd (Working.translate backup_translations mymemory libre text src dest)
  = {| text := Working.translate_with_dict backup_translations text src dest;
       src := src; dest := dest |}.
Proof.
  intros H2 H3. unfold Working.translate, Working.attempt.
  destruct (mymemory text src dest) as [e2|[r2|]]; try contradiction;
    destruct (libre text src dest) as [e3|[r3|]]; try contradiction;
    reflexivity.
Qed.

Lemma robust_fallback_languages (backup_translations : dict (dict str))
    (st1 st2 : session_state) (text : str) :
  source_language st1 = source_language st2 ->
  target_language st1 = target_language st2 ->
  Robust.backup_translate backup_translations st1 text
  = Robust.backup_translate backup_translations st2 text.
Proof.
  intros Hs Ht. unfold Robust.backup_translate. now rewrite Hs, Ht.
Qed.

End Determinism.

(** C9.  The dictionary fallback is deterministic.  With no backend
    available (every call raises or yields nothing), two calls of
    [translate] of the final variant, and two calls of [translate] of the
    working variant, with the same text and the same language pair return
    the same translation, whatever else differs between the two calls.  In
    the robust variant [backup_translate] depends on the session through the
    language pair only, and two calls of [translate_text] whose service
    gives nothing store the same translated text, whatever the history, the
    statistics, the clock and the services are. *)
Theorem fallback_is_deterministic :
  (forall backup_translations
     deep_available1 deep1 mymemory1 libre1
     deep_available2 deep2 mymemory2 libre2 text src dest,
     unavailable (deep1 text src dest) ->
     unavailable (mymemory1 text src dest) ->
     unavailable (libre1 text src dest) ->
     unavailable (deep2 text src dest) ->
     unavailable (mymemory2 text src dest) ->
     unavailable (libre2 text src dest) ->
     snd (Final.translate backup_translations deep_available1 deep1
            mymemory1 libre1 text src dest)
     = snd (Final.translate backup_translations deep_available2 deep2
              mymemory2 libre2 text src dest))
  /\ (forall backup_translations mymemory1 libre1 mymemory2 libre2
        text src dest,
        unavailable (mymemory1 text src dest) ->
        unavailable (libre1 text src dest) ->
        unavailable (mymemory2 text src dest) ->
        unavailable (libre2 text src dest) ->
        snd (Working.translate backup_translations mymemory1 libre1
               text src dest)
        = snd (Working.translate backup_translations mymemory2 libre2
                 text src dest))
  /\ (forall backup_translations st1 st2 text,
        source_language st1 = source_language st2 ->
        target_language st1 = target_language st2 ->
        Robust.backup_translate backup_translations st1 text
        = Robust.backup_translate backup_translations st2 text)
  /\ (forall backup_translations
        services_translation1 services_tts1 translation_service1
        google1 translator1 exchange1 say1
        services_translation2 services_tts2 translation_service2
        google2 translator2 exchange2 say2
        now1 now2 st1 st2 text,
        values_nonempty backup_translations ->
        source_language st1 = source_language st2 ->
        target_language st1 = target_language st2 ->
        yields_nothing
          (Robust.service_answer services_translation1 translation_service1
             google1 translator1 exchange1 st1 text) ->
        yields_nothing
          (Robust.service_answer services_translation2 translation_service2
             google2 translator2 exchange2 st2 text) ->
        option_map translated_text
          (current_translation
             (fst (Robust.translate_text backup_translations
                     services_translation1 services_tts1
                     translation_service1 google1 translator1 exchange1
                     say1 now1 text st1)))
        = option_map translated_text
            (current_translation
               (fst (Robust.translate_text backup_translations
                       services_translation2 services_tts2
                       translation_service2 google2 translator2 exchange2
                       say2 now2 text st2)))).
Proof.
  split; [|split; [|split]].
  - intros bt da1 d1 m1 l1 da2 d2 m2 l2 text src dest H1 H2 H3 H4 H5 H6.
    now rewrite !final_without_backends.
  - intros bt m1 l1 m2 l2 text src dest H1 H2 H3 H4.
    now rewrite !working_without_backends.
  - exact robust_fallback_languages.
  - intros bt f1 t1 s1 g1 tr1 e1 say1 f2 t2 s2 g2 tr2 e2 say2
      now1 now2 st1 st2 text Hv Hs Ht Ha1 Ha2.
    rewrite (robust_fallback_result bt f1 t1 s1 g1 tr1 e1 say1 now1 text st1
               Ha1 (robust_fallback_nonempty bt st1 text Hv)).
    rewrite (robust_fallback_result bt f2 t2 s2 g2 tr2 e2 say2 now2 text st2
               Ha2 (robust_fallback_nonempty bt st2 text Hv)).
    simpl. f_equal. now apply robust_fallback_languages.
Qed.

(** "Good morning" twice: in the final variant once behind a network that
    is down and once behind services that answer nothing, and in the robust
    variant in a fresh session and again in the session the first call
    left, at a later time. *)
Lemma fallback_is_deterministic_witness :
  snd (Final.translate Final_data.backup_translations true
         no_network no_network no_network
         (py "Good morning") (py "en") (py "de"))
  = snd (Final.translate Final_data.backup_translations false
           no_answer no_answer no_answer
           (py "Good morning") (py "en") (py "de"))
  /\ option_map translated_text
       (current_translation
          (fst (Robust.translate_text Robust_data.backup_translations
                  false false None no_network no_network no_network
                  (fun _ => None) 7 (py "Good morning")
                  (initial_session 0))))
     = option_map translated_text
         (current_translation
            (fst (Robust.translate_text Robust_data.backup_translations
                    true true (Some Robust.mymemory)
                    no_network no_network no_network
                    (fun _ => None) 8 (py "Good morning")
                    (fst (Robust.translate_text
                            Robust_data.backup_translations
                            false false None no_network no_network
                            no_network (fun _ => None) 7
                            (py "Good morning") (initial_session 0)))))).
Proof.
  destruct fallback_is_deterministic as (Hfinal & _ & _ & Hrobust).
  split.
  - apply Hfinal; exact I.
  - apply Hrobust.
    + exact robust_values_nonempty.
    + vm_compute; reflexivity.
    + vm_compute; reflexivity.
    + left; reflexivity.
    + left; vm_compute; reflexivity.
Defined.

(** * The reverse dictionary of the final variant *)

Section ReverseDictionary.

Lemma eqb_sym (a b : str) : eqb a b = eqb b a.
Proof.
  destruct (eqb a b) eqn:E, (eqb b a) eqn:E'; try reflexivity.
  - apply eqb_eq in E. subst. now rewrite eqb_refl in E'.
  - apply eqb_eq in E'. subst. now rewrite eqb_refl in E.
Qed.

(** Insert, then look up. *)
Lemma get_set {V} (d : dict V) (k k' : str) (v : V) :
  get (set d k v) k' = if eqb k' k then Some v else get d k'.
Proof.
  induction d as [|[k0 v0] d IH]; simpl; [reflexivity|].
  destruct (eqb k k0) eqn:E; simpl.
  - apply eqb_eq in E. subst k0. now destruct (eqb k' k).
  - rewrite IH. destruct (eqb k' k0) eqn:E0; [|reflexivity].
    destruct (eqb k' k) eqn:E1; [|reflexivity].
    apply eqb_eq in E0, E1. subst. now rewrite eqb_refl in E.
Qed.

Lemma In_get_unique {V} (d : dict V) (k : str) (v : V) :
  unique_keys d -> In (k, v) d -> get d k = Some v.
Proof.
  unfold unique_keys.
  induction d as [|[k0 v0] d IH]; simpl; intros Hu Hin; [contradiction|].
  inversion Hu as [|? ? Hnot Hu']; subst.
  destruct Hin as [[= -> ->]|Hin].
  - now rewrite eqb_refl.
  - destruct (eqb k k0) eqn:E; [|now apply IH].
    apply eqb_eq in E. subst k0. exfalso. apply Hnot.
    now apply (in_map fst) in Hin.
Qed.

Lemma inverted_loop_sound (d acc : dict str) (v k : str) :
  get (fold_left (fun acc kv => set acc (snd kv) (fst kv)) d acc) v = Some k ->
  In (k, v) d \/ get acc v = Some k.
Proof.
  revert acc; induction d as [|[k0 v0] d IH]; intros acc H; simpl in H.
  - now right.
  - destruct (IH _ H) as [Hin|Hacc]; [left; now right|].
    simpl in Hacc. rewrite get_set in Hacc.
    destruct (eqb v v0) eqn:E; [|now right].
    apply eqb_eq in E. injection Hacc as <-. subst. left. now left.
Qed.

Lemma inverted_loop_defined (d acc : dict str) (v : str) :
  (exists k, get acc v = Some k) ->
  exists k, get (fold_left (fun acc kv => set acc (snd kv) (fst kv)) d acc) v
            = Some k.
Proof.
  revert acc; induction d as [|[k0 v0] d IH]; intros acc [k H]; simpl.
  - now exists k.
  - apply IH. simpl. rewrite get_set.
    destruct (eqb v v0); [now exists k0|now exists k].
Qed.

Lemma inverted_loop_complete (d acc : dict str) (k v : str) :
  In (k, v) d ->
  exists k', get (fold_left (fun acc kv => set acc (snd kv) (fst kv)) d acc) v
             = Some k'.
Proof.
  revert acc; induction d as [|[k0 v0] d IH]; intros acc Hin; simpl;
    [contradiction|].
  destruct Hin as [[= -> ->]|Hin]; [|now apply IH].
  apply inverted_loop_defined. simpl. rewrite get_set, eqb_refl.
  now exists k.
Qed.

Lemma unique_keys_checked {V} (d : dict V) :
  unique_keys_check d = true -> unique_keys d.
Proof.
  unfold unique_keys.
  induction d as [|[k v] d IH]; simpl; intros H; [constructor|].
  apply andb_true_iff in H as [Hk Hd]. constructor; [|now apply IH].
  intros Hin. apply in_map_iff in Hin as ([k' v'] & E & Hin).
  simpl in E. subst k'. apply negb_true_iff in Hk.
  assert (Hex : existsb (fun item : str * V => eqb (fst item) k) d = true).
  { apply existsb_exists. exists (k, v'). split; [exact Hin|].
    simpl. apply eqb_refl. }
  congruence.
Qed.

Lemma normal_entries_checked (d : dict str) :
  normal_entries_check d = true -> normal_entries d.
Proof.
  intros H. apply Forall_forall. intros item Hin.
  unfold normal_entries_check in H. rewrite forallb_forall in H.
  specialize (H _ Hin). apply andb_true_iff in H as [H1 H2].
  split; now apply eqb_eq.
Qed.

Lemma inverted_sound (d : dict str) (v k : str) :
  unique_keys d -> get (inverted d) v = Some k -> get d k = Some v.
Proof.
  intros Hu H. unfold inverted in H.
  destruct (inverted_loop_sound _ _ _ _ H) as [Hin|Habs]; [|discriminate].
  now apply In_get_unique.
Qed.

End ReverseDictionary.

(** X1.  The dictionary comprehension that builds the German to English
    dictionary of the final variant.  For a dictionary with distinct keys,
    whatever the reverse dictionary gives for a translation is a phrase that
    the dictionary translates to it, and every translation of the
    dictionary has an entry in the reverse dictionary. *)
Theorem inverted_round_trip :
  forall d : dict str,
    unique_keys d ->
    (forall v k, get (inverted d) v = Some k -> get d k = Some v)
    /\ (forall k v,
          get d k = Some v ->
          exists k', get (inverted d) v = Some k' /\ get d k' = Some v).
Proof.
  intros d Hu. split; [intros v k; now apply inverted_sound|].
  intros k v H. apply get_In in H.
  destruct (inverted_loop_complete d [] k v H) as [k' Hk'].
  exists k'. split; [exact Hk'|]. now apply inverted_sound.
Qed.

(** In the dictionary of the program "hallo" leads back to "hi", which the
    dictionary translates to "hallo". *)
Lemma inverted_round_trip_witness :
  unique_keys Final_data.en_de
  /\ get (inverted Final_data.en_de) (py "hallo") = Some (py "hi")
  /\ get Final_data.en_de (py "hi") = Some (py "hallo").
Proof.
  assert (Hu : unique_keys Final_data.en_de)
    by (apply unique_keys_checked; vm_compute; reflexivity).
  assert (Hg : get (inverted Final_data.en_de) (py "hallo") = Some (py "hi"))
    by (vm_compute; reflexivity).
  split; [exact Hu|]. split; [exact Hg|].
  exact (proj1 (inverted_round_trip Final_data.en_de Hu) _ _ Hg).
Defined.

Section FinalRoundTrip.

Lemma init_en_de (en_de : dict str) :
  get_default (FallbackTranslator_init en_de)
    (py "en" ++ py "-" ++ py "de") [] = en_de.
Proof. reflexivity. Qed.

Lemma init_de_en (en_de : dict str) :
  get_default (FallbackTranslator_init en_de)
    (py "de" ++ py "-" ++ py "en") [] = inverted en_de.
Proof. reflexivity. Qed.

Lemma final_exact_match (backup_translations : dict (dict str))
    (text src dest translation : str) :
  get (get_default backup_translations (src ++ py "-" ++ dest) [])
    (strip (lower text)) = Some translation ->
  Final.translate_with_dictionary backup_translations text src dest
  = translation.
Proof.
  intros H. unfold Final.translate_with_dictionary. now rewrite H.
Qed.

End FinalRoundTrip.

(** X2.  German to English and back, in the final variant.  When the
    English to German dictionary has distinct keys and its phrases and
    translations are lowercase and trimmed, the dictionary fallback takes
    every German phrase [v] of the reverse dictionary to an English phrase
    that it takes back to [v]. *)
Theorem final_german_round_trip :
  forall en_de v k,
    unique_keys en_de ->
    normal_entries en_de ->
    get (inverted en_de) v = Some k ->
    Final.translate_with_dictionary (FallbackTranslator_init en_de)
      v (py "de") (py "en") = k
    /\ Final.translate_with_dictionary (FallbackTranslator_init en_de)
         k (py "en") (py "de") = v.
Proof.
  intros en_de v k Hu Hn Hg.
  pose proof (inverted_sound en_de v k Hu Hg) as Hk.
  pose proof (get_In _ _ _ Hk) as Hin.
  unfold normal_entries in Hn. rewrite Forall_forall in Hn.
  destruct (Hn _ Hin) as [Hnk Hnv]. simpl in Hnk, Hnv. unfold normal in *.
  split; apply final_exact_match.
  - now rewrite init_de_en, Hnv.
  - now rewrite init_en_de, Hnk.
Qed.

(** The dictionaries of the program are built this way; "morgen" goes to
    "morning" and back, while "tomorrow", which is translated to "morgen"
    as well, does not come back. *)
Lemma final_german_round_trip_witness :
  FallbackTranslator_init Final_data.en_de = Final_data.backup_translations
  /\ unique_keys Final_data.en_de
  /\ normal_entries Final_data.en_de
  /\ get (inverted Final_data.en_de) (py "morgen") = Some (py "morning")
  /\ Final.translate_with_dictionary Final_data.backup_translations
       (py "morgen") (py "de") (py "en") = py "morning"
  /\ Final.translate_with_dictionary Final_data.backup_translations
       (py "morning") (py "en") (py "de") = py "morgen".
Proof.
  assert (Hu : unique_keys Final_data.en_de)
    by (apply unique_keys_checked; vm_compute; reflexivity).
  assert (Hn : normal_entries Final_data.en_de)
    by (apply normal_entries_checked; vm_compute; reflexivity).
  assert (Hg : get (inverted Final_data.en_de) (py "morgen")
               = Some (py "morning")) by (vm_compute; reflexivity).
  split; [reflexivity|]. split; [exact Hu|]. split; [exact Hn|].
  split; [exact Hg|].
  exact (final_german_round_trip Final_data.en_de _ _ Hu Hn Hg).
Defined.

(** * The network methods *)

Section NetworkMethods.

Import Http.

Lemma final_mymemory_string (r : reply) (t : str) :
  FinalBackends.translate_with_mymemory r = JStr t ->
  mymemory_success r t
  /\ Forall (fun phrase => contains phrase (lower t) = false)
       FinalBackends.artifacts.
Proof.
  unfold FinalBackends.translate_with_mymemory. intros H.
  destruct r as [e|status_code [data|]]; backend_step; try discriminate H.
  - destruct (status_code =? 200)%Z eqn:Ec; backend_step;
      [|discriminate H].
    apply Z.eqb_eq in Ec. subst status_code.
    destruct data as [| | | | |items|members]; backend_step;
      try discriminate H.
    destruct (equals_int (get_default members (py "responseStatus") JNull)
                200) eqn:Es; backend_step; [|discriminate H].
    destruct (get members (py "responseData")) as [rd|] eqn:Er;
      backend_step; [|discriminate H].
    destruct rd as [| | | | |items|responseData]; backend_step;
      try discriminate H.
    destruct (get responseData (py "translatedText")) as [tr|] eqn:Et;
      backend_step; [|discriminate H].
    destruct tr as [| | | |s| |]; backend_step; try discriminate H.
    destruct (existsb (fun phrase => contains phrase (lower s))
                FinalBackends.artifacts) eqn:Ea; simpl in H;
      [discriminate H|].
    injection H as ->. split.
    + now exists members, responseData.
    + apply Forall_forall. intros phrase Hin.
      destruct (contains phrase (lower t)) eqn:Ep; [|reflexivity].
      assert (existsb (fun phrase => contains phrase (lower t))
                FinalBackends.artifacts = true)
        by (apply existsb_exists; now exists phrase).
      congruence.
  - destruct (status_code =? 200)%Z; discriminate H.
Qed.

Lemma final_mymemory_kind (r : reply) :
  FinalBackends.translate_with_mymemory r = JNull
  \/ exists t, FinalBackends.translate_with_mymemory r = JStr t.
Proof.
  unfold FinalBackends.translate_with_mymemory.
  destruct r as [e|status_code [data|]]; backend_step; auto.
  - destruct (status_code =? 200)%Z; backend_step; auto.
    destruct data as [| | | | |items|members]; backend_step; auto.
    destruct (equals_int _ 200); backend_step; auto.
    destruct (get members (py "responseData")) as [rd|]; backend_step; auto.
    destruct rd as [| | | | |items|responseData]; backend_step; auto.
    destruct (get responseData (py "translatedText")) as [tr|];
      backend_step; auto.
    destruct tr as [| | | |s| |]; backend_step; auto.
    destruct (negb _); backend_step; eauto.
  - destruct (status_code =? 200)%Z; backend_step; auto.
Qed.

Lemma final_mymemory_accepts (r : reply) (t : str) :
  mymemory_success r t ->
  Forall (fun phrase => contains phrase (lower t) = false)
    FinalBackends.artifacts ->
  FinalBackends.translate_with_mymemory r = JStr t.
Proof.
  intros (members & responseData & -> & Hs & Hr & Ht) Hclean.
  unfold FinalBackends.translate_with_mymemory. backend_step.
  change (200 =? 200)%Z with true. cbv iota. backend_step.
  rewrite Hs. backend_step. rewrite Hr. backend_step.
  rewrite Ht. backend_step.
  replace (existsb (fun phrase => contains phrase (lower t))
             FinalBackends.artifacts) with false; [reflexivity|].
  symmetry. apply not_true_iff_false. intros H.
  apply existsb_exists in H as (phrase & Hin & Hp).
  rewrite Forall_forall in Hclean. specialize (Hclean _ Hin). congruence.
Qed.

Lemma final_libre_value (r : reply) (v : json) :
  v <> JNull ->
  FinalBackends.translate_with_libretranslate r = v ->
  exists body, r = Response 200 body /\ libre_success body v.
Proof.
  unfold FinalBackends.translate_with_libretranslate. intros Hv H.
  destruct r as [e|status_code [data|]]; backend_step;
    try (now elim Hv).
  - destruct (status_code =? 200)%Z eqn:Ec; backend_step;
      [|now elim Hv].
    apply Z.eqb_eq in Ec. subst status_code.
    destruct data as [| | | |s|items|members]; backend_step;
      try (now elim Hv).
    + destruct (contains (py "translatedText") s); backend_step;
        now elim Hv.
    + destruct (existsb _ items); backend_step; now elim Hv.
    + destruct (get members (py "translatedText")) as [value|] eqn:Eg;
        backend_step; [|now elim Hv].
      subst value. exists (Some (JDict members)). split; [reflexivity|].
      now exists members.
  - destruct (status_code =? 200)%Z; backend_step; now elim Hv.
Qed.

Lemma working_libre_value (r : reply) (v : json) :
  v <> JNull ->
  WorkingBackends.translate_with_libre r = v ->
  exists status_code body,
    r = Response status_code body /\ libre_success body v.
Proof.
  unfold WorkingBackends.translate_with_libre. intros Hv H.
  destruct r as [e|status_code [data|]]; backend_step;
    try (now elim Hv).
  destruct data as [| | | |s|items|members]; backend_step;
    try (now elim Hv).
  - destruct (contains (py "translatedText") s); backend_step;
      now elim Hv.
  - destruct (existsb _ items); backend_step; now elim Hv.
  - destruct (get members (py "translatedText")) as [value|] eqn:Eg;
      backend_step; [|now elim Hv].
    subst value. exists status_code, (Some (JDict members)).
    split; [reflexivity|]. now exists members.
Qed.

Lemma libre_success_value (status_code : Z) (body : option json)
    (v : json) :
  libre_success body v ->
  WorkingBackends.translate_with_libre (Response status_code body) = v
  /\ FinalBackends.translate_with_libretranslate (Response 200 body) = v.
Proof.
  intros (members & -> & Hg).
  unfold WorkingBackends.translate_with_libre,
    FinalBackends.translate_with_libretranslate.
  backend_step. change (200 =? 200)%Z with true. cbv iota. backend_step.
  rewrite Hg. backend_step. split; reflexivity.
Qed.

End NetworkMethods.

(** X3.  [translate_with_mymemory] of the final variant never raises and
    returns [None] or a string.  It returns the string [t] exactly when the
    reply has status code 200 and a JSON object whose 'responseStatus'
    equals 200 and whose 'responseData' holds [t] as 'translatedText', and
    the lowercased [t] contains none of "hello", "quota" and "limit". *)
Theorem final_mymemory_characterised :
  forall r,
    (FinalBackends.translate_with_mymemory r = Http.JNull
     \/ exists t, FinalBackends.translate_with_mymemory r = Http.JStr t)
    /\ (forall t,
          FinalBackends.translate_with_mymemory r = Http.JStr t
          <-> mymemory_success r t
              /\ Forall (fun phrase => contains phrase (lower t) = false)
                   FinalBackends.artifacts).
Proof.
  intros r. split; [apply final_mymemory_kind|].
  intros t. split.
  - apply final_mymemory_string.
  - intros [Hs Hc]. now apply final_mymemory_accepts.
Qed.

(** X4.  A LibreTranslate method returns a value other than [None] exactly
    when the body of the reply is a JSON object with that value as
    'translatedText'; the final variant wants the status code 200 as well,
    the working variant takes any status code.  A body that is a list or a
    string, in which the test for 'translatedText' can succeed, gives
    [None]. *)
Theorem libre_methods_characterised :
  forall r v,
    v <> Http.JNull ->
    (FinalBackends.translate_with_libretranslate r = v
     <-> exists body, r = Http.Response 200 body /\ libre_success body v)
    /\ (WorkingBackends.translate_with_libre r = v
        <-> exists status_code body,
              r = Http.Response status_code body /\ libre_success body v).
Proof.
  intros r v Hv. split; split.
  - now apply final_libre_value.
  - intros (body & -> & Hs). now apply (libre_success_value 200).
  - now apply working_libre_value.
  - intros (status_code & body & -> & Hs).
    now apply (libre_success_value status_code).
Qed.

(** A reply of status 500 with a well-formed body: the working variant
    takes the translation, the final variant does not. *)
Lemma libre_methods_characterised_witness :
  Http.JStr (py "hallo") <> Http.JNull
  /\ WorkingBackends.translate_with_libre
       (Http.Response 500
          (Some (Http.JDict
                   [(py "translatedText", Http.JStr (py "hallo"))])))
     = Http.JStr (py "hallo")
  /\ FinalBackends.translate_with_libretranslate
       (Http.Response 500
          (Some (Http.JDict
                   [(py "translatedText", Http.JStr (py "hallo"))])))
     <> Http.JStr (py "hallo").
Proof.
  assert (Hv : Http.JStr (py "hallo") <> Http.JNull) by discriminate.
  split; [exact Hv|]. split.
  - apply (proj2 (libre_methods_characterised _ _ Hv)).
    exists 500%Z,
      (Some (Http.JDict [(py "translatedText", Http.JStr (py "hallo"))])).
    split; [reflexivity|].
    exists [(py "translatedText", Http.JStr (py "hallo"))].
    split; reflexivity.
  - intros H.
    apply (proj1 (libre_methods_characterised _ _ Hv)) in H.
    destruct H as (body & E & _). discriminate E.
Defined.

(** A reply with "Guten Morgen" is passed on; the same reply with "Hello
    there" is dropped. *)
Lemma final_mymemory_characterised_witness :
  FinalBackends.translate_with_mymemory
    (mymemory_replies (py "Guten Morgen") [] [] [])
  = Http.JStr (py "Guten Morgen")
  /\ FinalBackends.translate_with_mymemory
       (mymemory_replies (py "Hello there") [] [] [])
     = Http.JNull.
Proof.
  split.
  - apply (proj2 (final_mymemory_characterised _)). split.
    + exists [ (py "responseStatus", Http.JInt 200);
               (py "responseData",
                Http.JDict
                  [(py "translatedText", Http.JStr (py "Guten Morgen"))]) ],
        [(py "translatedText", Http.JStr (py "Guten Morgen"))].
      repeat split; reflexivity.
    + repeat constructor.
  - vm_compute. reflexivity.
Defined.

(** X5.  In the final variant a translation that [translate] returns from
    MyMemory (MyMemory is the last method the call invoked) never contains
    "hello", "quota" or "limit", in any case of letters, whatever the server
    replied: such answers are dropped and the chain goes on. *)
Theorem mymemory_never_delivers_artifacts :
  forall backup_translations deep_available deep libre network
    text src dest,
    let r := final_translate_over_mymemory backup_translations
               deep_available deep libre network text src dest in
    last (methods_called (fst r)) Dictionary = MyMemory ->
    Forall
      (fun phrase => contains phrase (lower (result_text (snd r))) = false)
      FinalBackends.artifacts.
Proof.
  intros bt da deep libre network text src dest.
  unfold final_translate_over_mymemory, Final.translate.
  destruct (negb (truthy text) || negb (truthy (strip text)));
    [simpl; discriminate|].
  pose proof (final_mymemory_string (network text src dest)) as Hclean.
  destruct (final_mymemory_kind (network text src dest)) as [E|[t E]];
    rewrite E in *; unfold answer_of, Final.attempt;
    destruct da;
    try (destruct (deep text src dest) as [e1|[r1|]]);
    destruct (libre text src dest) as [e3|[r3|]];
    decide_answers; simpl; intros H; try discriminate H;
    exact (proj2 (Hclean t eq_refl)).
Qed.

(** "Good morning" with a server that answers "Guten Morgen": MyMemory
    delivers, and the text is clean. *)
Lemma mymemory_never_delivers_artifacts_witness :
  last
    (methods_called
       (fst (final_translate_over_mymemory Final_data.backup_translations
               true no_network no_answer
               (mymemory_replies (py "Guten Morgen"))
               (py "Good morning") (py "en") (py "de"))))
    Dictionary = MyMemory
  /\ Forall
       (fun phrase =>
          contains phrase
            (lower
               (result_text
                  (snd (final_translate_over_mymemory
                          Final_data.backup_translations
                          true no_network no_answer
                          (mymemory_replies (py "Guten Morgen"))
                          (py "Good morning") (py "en") (py "de")))))
          = false)
       FinalBackends.artifacts.
Proof.
  assert (H : last
                (methods_called
                   (fst (final_translate_over_mymemory
                           Final_data.backup_translations
                           true no_network no_answer
                           (mymemory_replies (py "Guten Morgen"))
                           (py "Good morning") (py "en") (py "de"))))
                Dictionary = MyMemory) by (vm_compute; reflexivity).
  split; [exact H|].
  exact (mymemory_never_delivers_artifacts _ _ _ _ _ _ _ _ H).
Defined.

(** * The word-by-word step never finds a word *)

Section DeadLookup.

Lemma final_best_stays (d : dict str) (state : str * str) :
  fst state <> [] -> fst (fold_left Final.partial_step d state) <> [].
Proof.
  revert state; induction d as [|[k v] d IH]; intros [best txt] H;
    simpl in *; [exact H|].
  apply IH. destruct (contains k txt); [|exact H].
  destruct (List.length best <? List.length k) eqn:El; [|exact H].
  simpl. apply Nat.ltb_lt in El. destruct k; [simpl in El; lia|discriminate].
Qed.

Lemma final_best_empty_no_phrase (d : dict str) (state : str * str) :
  fst (fold_left Final.partial_step d state) = [] ->
  Forall (fun item => contains (fst item) (snd state) = true ->
                      fst item = []) d.
Proof.
  revert state; induction d as [|[k v] d IH]; intros [best txt] H;
    [constructor|].
  simpl in H. simpl snd.
  assert (Hbest : best = []).
  { destruct best as [|c best]; [reflexivity|]. exfalso.
    revert H. apply final_best_stays.
    destruct (contains k txt); [|discriminate].
    destruct (List.length (c :: best) <? List.length k) eqn:El;
      [|discriminate].
    simpl. apply Nat.ltb_lt in El. destruct k; [simpl in El; lia|discriminate].
  }
  subst best.
  destruct (contains k txt) eqn:Ek.
  - destruct (List.length (@nil ascii) <? List.length k) eqn:El.
    + exfalso. revert H. apply final_best_stays. simpl.
      apply Nat.ltb_lt in El. destruct k; [simpl in El; lia|discriminate].
    + constructor.
      * intros _. simpl. apply Nat.ltb_ge in El.
        destruct k; [reflexivity|simpl in El; lia].
      * exact (IH _ H).
  - constructor; [simpl; congruence|]. exact (IH _ H).
Qed.

Lemma working_partial_none_no_phrase (d : dict str) (text_lower : str) :
  Working.partial_match d text_lower = None ->
  no_phrase_occurs d text_lower.
Proof.
  induction d as [|[k v] d IH]; simpl; intros H; [constructor|].
  destruct (contains k text_lower) eqn:Ek; [discriminate|].
  constructor; [exact Ek|now apply IH].
Qed.

Lemma final_reached_no_phrase (d : dict str) (text_lower : str) :
  ~ In [] (map fst d) ->
  fst (Final.partial_matches d text_lower) = [] ->
  no_phrase_occurs d text_lower.
Proof.
  intros Hkey H. unfold Final.partial_matches in H.
  pose proof (final_best_empty_no_phrase d ([], text_lower) H) as Hall.
  simpl in Hall. apply Forall_forall. intros item Hin.
  rewrite Forall_forall in Hall. specialize (Hall _ Hin).
  destruct (contains (fst item) text_lower) eqn:Ec; [|reflexivity].
  exfalso. apply Hkey. rewrite <- (Hall eq_refl). now apply in_map.
Qed.

End DeadLookup.

(** X6.  Whenever the fallback comes to its word-by-word step, no word is
    translated there.  In the final variant (with a dictionary that has no
    empty phrase) the step is reached when the loop over the phrases leaves
    [best_match] empty, in the working variant when that loop finds no
    phrase; in both cases every token of the text is appended as it is: a
    token that has an entry would have been found in the text by the loop
    before. *)
Theorem word_by_word_never_translates :
  (forall backup_translations text src dest,
     let translations :=
       get_default backup_translations (pair_key src dest) [] in
     let text_lower := strip (lower text) in
     ~ In [] (map fst translations) ->
     fst (Final.partial_matches translations text_lower) = [] ->
     Final.word_by_word translations (split text_lower) = split text_lower)
  /\ (forall backup_translations text src dest,
        let translations :=
          get_default backup_translations (pair_key src dest) [] in
        let text_lower := strip (lower text) in
        Working.partial_match translations text_lower = None ->
        Working.word_by_word translations (split text_lower)
        = split text_lower).
Proof.
  split.
  - intros bt text src dest translations text_lower Hkey Hbest.
    pose proof (final_reached_no_phrase _ _ Hkey Hbest) as Hno.
    rewrite final_words_map. apply spec_words_untranslated.
    intros w Hw. apply (no_phrase_no_entry _ _ _ Hno).
    apply contains_trans with w.
    + apply strip_chars_contained.
    + now apply split_contained.
  - intros bt text src dest translations text_lower Hnone.
    pose proof (working_partial_none_no_phrase _ _ Hnone) as Hno.
    apply working_words_untranslated.
    intros w Hw. apply (no_phrase_no_entry _ _ _ Hno).
    now apply split_contained.
Qed.

(** "xyz  abc" reaches the step in both variants, with the dictionaries of
    the program. *)
Lemma word_by_word_never_translates_witness :
  ~ In [] (map fst Final_data.en_de)
  /\ fst (Final.partial_matches Final_data.en_de
            (strip (lower (py "xyz  abc")))) = []
  /\ Final.word_by_word Final_data.en_de
       (split (strip (lower (py "xyz  abc"))))
     = [py "xyz"; py "abc"]
  /\ Working.partial_match Working_data.en_de
       (strip (lower (py "xyz  abc"))) = None
  /\ Working.word_by_word Working_data.en_de
       (split (strip (lower (py "xyz  abc"))))
     = [py "xyz"; py "abc"].
Proof.
  destruct word_by_word_never_translates as [Hfinal Hworking].
  assert (Hkey : ~ In [] (map fst Final_data.en_de)).
  { intros Hin. apply in_map_iff in Hin as (item & E & Hin).
    assert (Hall : forallb (fun item => truthy (fst item)) Final_data.en_de
                   = true) by (vm_compute; reflexivity).
    rewrite forallb_forall in Hall. specialize (Hall _ Hin).
    rewrite E in Hall. discriminate Hall. }
  assert (Hbest : fst (Final.partial_matches Final_data.en_de
                         (strip (lower (py "xyz  abc")))) = [])
    by (vm_compute; reflexivity).
  assert (Hnone : Working.partial_match Working_data.en_de
                    (strip (lower (py "xyz  abc"))) = None)
    by (vm_compute; reflexivity).
  split; [exact Hkey|]. split; [exact Hbest|]. split.
  - transitivity (split (strip (lower (py "xyz  abc")))).
    + exact (Hfinal Final_data.backup_translations (py "xyz  abc")
               (py "en") (py "de") Hkey Hbest).
    + vm_compute; reflexivity.
  - split; [exact Hnone|].
    transitivity (split (strip (lower (py "xyz  abc")))).
    + exact (Hworking Working_data.backup_translations (py "xyz  abc")
               (py "en") (py "de") Hnone).
    + vm_compute; reflexivity.
Defined.

(** * The sessions of the applications *)

Section SessionFacts.

Lemma dropwhile_fix (p : ascii -> bool) (s : str) :
  dropwhile p (dropwhile p s) = dropwhile p s.
Proof.
  induction s as [|c s IH]; simpl; [reflexivity|].
  destruct (p c) eqn:E; [exact IH|]. simpl. now rewrite E.
Qed.

Lemma strip_idempotent (s : str) : strip (strip s) = strip s.
Proof.
  assert (Hl : lstrip_by isspace (strip s) = strip s).
  { destruct (strip s) as [|c rest] eqn:E; [reflexivity|].
    assert (Hne : strip s <> []) by (rewrite E; discriminate).
    destruct (strip_head s Hne) as (c' & rest' & E' & Hc).
    rewrite E in E'. injection E' as <- <-.
    unfold lstrip_by. simpl. now rewrite Hc. }
  unfold strip at 1. rewrite Hl. unfold strip, rstrip_by.
  now rewrite rev_involutive, dropwhile_fix.
Qed.

Lemma capped_append_In (cap : nat) (h : list TranslationResult)
    (t : TranslationResult) :
  1 <= cap -> In t (capped_append cap h t).
Proof.
  intros Hcap. unfold capped_append.
  destruct (cap <? List.length (h ++ [t])) eqn:E.
  - unfold last_n. apply Nat.ltb_lt in E. rewrite length_app in *.
    simpl in *. rewrite skipn_app.
    apply in_or_app. right.
    replace (List.length h + 1 - cap - List.length h) with 0 by lia.
    now left.
  - apply in_or_app. right. now left.
Qed.

Lemma capped_append_grows (cap : nat) (h : list TranslationResult)
    (t : TranslationResult) :
  List.length (capped_append cap h t) <= List.length h + 1.
Proof.
  unfold capped_append.
  destruct (cap <? List.length (h ++ [t])).
  - rewrite last_n_length, length_app. simpl. lia.
  - rewrite length_app. simpl. lia.
Qed.

Lemma supported_pair_dictionary (st : session_state) :
  supported_pair st ->
  (exists d,
     get Final_data.backup_translations
       (pair_key (source_language st) (target_language st)) = Some d)
  /\ (exists d,
        get Robust_data.backup_translations
          (pair_key (source_language st) (target_language st)) = Some d)
  /\ (exists current, FinalApp.current_phrases st = Some current).
Proof.
  unfold FinalApp.current_phrases.
  intros [[-> ->]|[-> ->]]; repeat split; eexists; reflexivity.
Qed.

Lemma final_values_nonempty : values_nonempty Final_data.backup_translations.
Proof. apply values_nonempty_check. vm_compute. reflexivity. Qed.

Lemma final_phrases_not_blank (k : str) (current : list str) (phrase : str) :
  get FinalApp.phrases k = Some current ->
  In phrase current -> strip phrase <> [].
Proof.
  intros Hg Hin. apply get_In in Hg.
  assert (Hall : forallb
                   (fun entry => forallb (fun p => truthy (strip p))
                                   (snd entry))
                   FinalApp.phrases = true) by (vm_compute; reflexivity).
  rewrite forallb_forall in Hall. specialize (Hall _ Hg). simpl in Hall.
  rewrite forallb_forall in Hall. specialize (Hall _ Hin).
  now apply truthy_nonempty.
Qed.

(** The session that [translate_text] of the final variant leaves. *)
Lemma final_translate_text_session (w : FinalApp.world) (now : Z)
    (text : str) (st : session_state) :
  fst (FinalApp.translate_text w now text st)
  = Final.save_to_history (final_result w now text st)
      (update_session_stats text
         (set_current_translation st (Some (final_result w now text st)))).
Proof.
  unfold FinalApp.translate_text, final_result.
  destruct (Final.translate Final_data.backup_translations
              (FinalApp.DEEP_TRANSLATOR_AVAILABLE w)
              (FinalApp.translate_with_deep_translator w)
              (FinalApp.translate_with_mymemory w)
              (FinalApp.translate_with_libretranslate w)
              text (source_language st) (target_language st))
    as [evs translation].
  reflexivity.
Qed.

Lemma final_save_fields (t : TranslationResult) (st : session_state) :
  source_language (Final.save_to_history t st) = source_language st
  /\ target_language (Final.save_to_history t st) = target_language st
  /\ current_translation (Final.save_to_history t st)
     = current_translation st
  /\ session_stats (Final.save_to_history t st) = session_stats st.
Proof.
  unfold Final.save_to_history.
  destruct (negb _); [|auto]. destruct (50 <? _); auto.
Qed.

Lemma final_translate_text_invariant (w : FinalApp.world) (now : Z)
    (text : str) (st : session_state) :
  strip text <> [] ->
  final_invariant st ->
  final_invariant (fst (FinalApp.translate_text w now text st)).
Proof.
  intros Hs (Hpair & [Hcur Hne] & Hlen & Hnd & Hin & Hcount).
  rewrite final_translate_text_session.
  set (result := final_result w now text st).
  set (st1 := update_session_stats text
                (set_current_translation st (Some result))).
  assert (Hres : translated_text result <> []).
  { apply final_translate_nonempty; [apply final_values_nonempty|exact Hs]. }
  destruct (final_save_fields result st1) as (Es & Et & Ec & Est).
  pose proof (final_history result st1) as Eh.
  change (conversation_history st1) with (conversation_history st) in Eh.
  unfold final_invariant, supported_pair, results_nonempty.
  rewrite Es, Et, Ec, Est, Eh. simpl.
  split; [exact Hpair|].
  destruct (result_in result (conversation_history st)) eqn:Ein.
  - apply result_in_In in Ein. repeat split; auto.
    + intros r E. injection E as E. rewrite <- E. exact Hres.
    + intros r E. injection E as E. rewrite <- E. exact Ein.
    + lia.
  - repeat split.
    + intros r E. injection E as E. rewrite <- E. exact Hres.
    + now apply capped_append_Forall.
    + apply capped_append_length.
    + apply capped_append_NoDup; [exact Hnd|].
      intros H. apply result_in_In in H. congruence.
    + intros r E. injection E as E. rewrite <- E.
      apply capped_append_In. lia.
    + pose proof (capped_append_grows 50 (conversation_history st) result).
      lia.
Qed.

Lemma final_act_invariant (a : FinalApp.action) (st : session_state) :
  final_invariant st -> final_invariant (fst (FinalApp.act a st)).
Proof.
  intros Hinv. destruct a as [| |now|w now text_input|w now i|w now heard];
    simpl.
  - destruct Hinv as (_ & H). split; [left; now split|exact H].
  - destruct Hinv as (_ & H). split; [right; now split|exact H].
  - destruct Hinv as (Hpair & _). split; [exact Hpair|].
    repeat split; simpl; try discriminate; try constructor; lia.
  - unfold FinalApp.translate_button.
    destruct (truthy (strip text_input)) eqn:E; [|exact Hinv].
    apply final_translate_text_invariant; [|exact Hinv].
    rewrite strip_idempotent. now apply truthy_nonempty.
  - unfold FinalApp.quick_phrase_button.
    destruct (FinalApp.current_phrases st) as [current|] eqn:Ec;
      [|exact Hinv].
    destruct (nth_error current i) as [phrase|] eqn:En; [|exact Hinv].
    apply final_translate_text_invariant; [|exact Hinv].
    apply (final_phrases_not_blank _ _ _ Ec).
    now apply nth_error_In with i.
  - unfold FinalApp.record_and_translate.
    destruct (negb _); [exact Hinv|].
    destruct heard as [| |e|e|text]; try exact Hinv.
    destruct (truthy (strip text)) eqn:E; [|exact Hinv].
    apply final_translate_text_invariant; [|exact Hinv].
    rewrite strip_idempotent. now apply truthy_nonempty.
Qed.

Lemma final_initial_invariant (start : Z) :
  final_invariant (initial_session start).
Proof.
  split; [left; now split|].
  repeat split; simpl; try discriminate; try constructor; lia.
Qed.

Lemma final_run_invariant (actions : list FinalApp.action)
    (st : session_state) :
  final_invariant st -> final_invariant (FinalApp.run actions st).
Proof.
  unfold FinalApp.run. revert st.
  induction actions as [|a actions IH]; intros st H; simpl; [exact H|].
  apply IH. now apply final_act_invariant.
Qed.

End SessionFacts.

(** X7.  In the final application the language pair of the session is
    always one of the two pairs of the buttons, whatever the user does.
    So the lookup of the phrases in [render_quick_phrases] never fails with
    a [KeyError], and the fallback always finds the dictionary of the pair
    and never works on the empty default. *)
Theorem final_language_pair_is_supported :
  forall actions start,
    let st := FinalApp.run actions (initial_session start) in
    supported_pair st
    /\ (exists current, FinalApp.current_phrases st = Some current)
    /\ (exists d,
          get Final_data.backup_translations
            (pair_key (source_language st) (target_language st)) = Some d).
Proof.
  intros actions start st.
  destruct (final_run_invariant actions _ (final_initial_invariant start))
    as (Hpair & _).
  fold st in Hpair.
  destruct (supported_pair_dictionary st Hpair) as (Hd & _ & Hp).
  auto.
Qed.

(** X8.  In the final application every translation result of the session,
    the current one and those of the history, has a translated text that is
    not empty, whatever the user does and whatever the backends answer: the
    buttons pass on only text that is not blank, and [translate] gives such
    text a translation that is not empty. *)
Theorem final_results_are_never_empty :
  forall actions start,
    results_nonempty (FinalApp.run actions (initial_session start)).
Proof.
  intros actions start.
  now destruct (final_run_invariant actions _
                  (final_initial_invariant start)) as (_ & H & _).
Qed.

(** X9.  In the final application, whatever the user does: the history
    holds at most 50 records and no record twice, the current translation
    is one of the records of the history, and the history is never longer
    than the count of translations of the statistics. *)
Theorem final_history_is_consistent :
  forall actions start,
    let st := FinalApp.run actions (initial_session start) in
    List.length (conversation_history st) <= 50
    /\ NoDup (conversation_history st)
    /\ (forall r, current_translation st = Some r ->
                  In r (conversation_history st))
    /\ (Z.of_nat (List.length (conversation_history st))
        <= translations_count (session_stats st))%Z.
Proof.
  intros actions start st.
  now destruct (final_run_invariant actions _
                  (final_initial_invariant start)) as (_ & _ & H).
Qed.

Section RobustSessionFacts.

Lemma robust_store (result : TranslationResult) (text : str)
    (st : session_state) :
  let st' :=
    Robust.save_to_history result
      (update_session_stats text
         (set_current_translation st (Some result))) in
  source_language st' = source_language st
  /\ target_language st' = target_language st
  /\ current_translation st' = Some result
  /\ conversation_history st'
     = if result_in result (conversation_history st)
       then conversation_history st
       else capped_append 50 (conversation_history st) result.
Proof.
  intros st'. subst st'. rewrite robust_history, robust_save_current.
  unfold Robust.save_to_history. simpl.
  destruct (negb (result_in result (conversation_history st)));
    [|auto]. destruct (50 <? _); auto.
Qed.

(** [translate_text] of the robust variant either leaves the session alone
    and shows no success, or stores a result with a translated text that
    is not empty. *)
Lemma robust_translate_text_cases (w : RobustApp.world) (now : Z)
    (text : str) (st : session_state) :
  let r := RobustApp.translate_text w now text st in
  (fst r = st /\ ~ In (Success (py "Translation complete!")) (snd r))
  \/ exists result,
       translated_text result <> []
       /\ fst r
          = Robust.save_to_history result
              (update_session_stats text
                 (set_current_translation st (Some result))).
Proof.
  unfold RobustApp.translate_text, Robust.translate_text.
  destruct (Robust.service_answer _ _ _ _ _ st text) as [e|answer].
  - left. split; [reflexivity|]. simpl. intros [H|[]]. discriminate H.
  - match goal with
    | |- context [let '(_, _) := ?chosen in _] =>
        destruct chosen as [translated backup]
    end.
    destruct (truthy translated) eqn:E.
    + right. eexists. split; [|reflexivity].
      simpl. now apply truthy_nonempty.
    + left. split; [reflexivity|]. simpl. intros [H|[]]. discriminate H.
Qed.

Lemma robust_stored_invariant (result : TranslationResult) (text : str)
    (st : session_state) :
  translated_text result <> [] ->
  robust_invariant st ->
  robust_invariant
    (Robust.save_to_history result
       (update_session_stats text
          (set_current_translation st (Some result)))).
Proof.
  intros Hres (Hpair & [Hcur Hne] & Hlen & Hnd).
  destruct (robust_store result text st) as (Es & Et & Ec & Eh).
  unfold robust_invariant, supported_pair, results_nonempty.
  rewrite Es, Et, Ec, Eh.
  split; [exact Hpair|]. split; [split|].
  - intros r E. injection E as E. rewrite <- E. exact Hres.
  - destruct (result_in result (conversation_history st)); [exact Hne|].
    now apply capped_append_Forall.
  - destruct (result_in result (conversation_history st)) eqn:Ein.
    + now split.
    + split; [apply capped_append_length|].
      apply capped_append_NoDup; [exact Hnd|].
      intros H. apply result_in_In in H. congruence.
Qed.

Lemma robust_translate_text_invariant (w : RobustApp.world) (now : Z)
    (text : str) (st : session_state) :
  robust_invariant st ->
  robust_invariant (fst (RobustApp.translate_text w now text st)).
Proof.
  intros Hinv.
  destruct (robust_translate_text_cases w now text st)
    as [[-> _]|(result & Hres & ->)]; [exact Hinv|].
  now apply robust_stored_invariant.
Qed.

Lemma robust_act_invariant (a : RobustApp.action) (st : session_state) :
  robust_invariant st -> robust_invariant (fst (RobustApp.act a st)).
Proof.
  intros Hinv.
  destruct a as [| |now|w now text_input|w now heard| |]; simpl.
  - destruct Hinv as (_ & H). split; [left; now split|exact H].
  - destruct Hinv as (_ & H). split; [right; now split|exact H].
  - destruct Hinv as (Hpair & _). split; [exact Hpair|].
    repeat split; simpl; try discriminate; try constructor; lia.
  - unfold RobustApp.translate_button.
    destruct (truthy (strip text_input)); [|exact Hinv].
    now apply robust_translate_text_invariant.
  - unfold RobustApp.record_and_translate.
    destruct (negb _); [exact Hinv|].
    destruct heard as [| |e|e|text]; try exact Hinv.
    destruct (truthy (strip text)); [|exact Hinv].
    now apply robust_translate_text_invariant.
  - unfold RobustApp.save_button.
    destruct (current_translation st) as [translation|] eqn:Ec;
      [|exact Hinv].
    destruct Hinv as (Hpair & [Hcur Hne] & Hlen & Hnd). simpl.
    split; [|split; [|split]].
    + unfold supported_pair, Robust.save_to_history.
      destruct (negb _); [|exact Hpair]. now destruct (50 <? _).
    + apply robust_save_nonempty; [now split|now apply Hcur].
    + rewrite robust_history.
      destruct (result_in translation _); [exact Hlen|].
      apply capped_append_length.
    + rewrite robust_history.
      destruct (result_in translation _) eqn:Ein; [exact Hnd|].
      apply capped_append_NoDup; [exact Hnd|].
      intros H. apply result_in_In in H. congruence.
  - unfold RobustApp.clear_history_button.
    destruct (conversation_history st) eqn:Eh; [exact Hinv|].
    destruct Hinv as (Hpair & [Hcur Hne] & Hlen & Hnd).
    unfold robust_invariant, results_nonempty. simpl.
    split; [exact Hpair|]. split; [split; [exact Hcur|constructor]|].
    split; [lia|constructor].
Qed.

Lemma robust_initial_invariant (start : Z) :
  robust_invariant (initial_session start).
Proof.
  split; [left; now split|].
  repeat split; simpl; try discriminate; try constructor; lia.
Qed.

Lemma robust_run_invariant (actions : list RobustApp.action)
    (st : session_state) :
  robust_invariant st -> robust_invariant (RobustApp.run actions st).
Proof.
  unfold RobustApp.run. revert st.
  induction actions as [|a actions IH]; intros st H; simpl; [exact H|].
  apply IH. now apply robust_act_invariant.
Qed.

End RobustSessionFacts.

(** X10.  In the robust application, whatever the user does (translate,
    record, switch the languages, "Save to History", clear the history,
    clear the session) and whatever the services answer: the language pair
    is one of the two pairs of the buttons, so that [backup_translate]
    always finds its dictionary; no result of the session has an empty
    translated text; and the history holds at most 50 records and none
    twice. *)
Theorem robust_session_invariants :
  forall actions start,
    let st := RobustApp.run actions (initial_session start) in
    supported_pair st
    /\ (exists d,
          get Robust_data.backup_translations
            (pair_key (source_language st) (target_language st)) = Some d)
    /\ results_nonempty st
    /\ List.length (conversation_history st) <= 50
    /\ NoDup (conversation_history st).
Proof.
  intros actions start st.
  destruct (robust_run_invariant actions _ (robust_initial_invariant start))
    as (Hpair & Hne & Hlen & Hnd).
  fold st in Hpair, Hne, Hlen, Hnd.
  destruct (supported_pair_dictionary st Hpair) as (_ & Hd & _).
  auto.
Qed.

(** X11.  In the robust application "Save to History" pressed after a
    translation that completed changes nothing: [translate_text] has saved
    the result already, and the guard of [save_to_history] finds it in the
    history. *)
Theorem save_after_translation_changes_nothing :
  forall w now text st,
    let r := RobustApp.translate_text w now text st in
    In (Success (py "Translation complete!")) (snd r) ->
    current_translation (fst r) <> None
    /\ fst (RobustApp.save_button (fst r)) = fst r.
Proof.
  intros w now text st r Hok.
  destruct (robust_translate_text_cases w now text st)
    as [[_ Hno]|(result & _ & E)]; [contradiction|].
  fold r in E. rewrite E.
  destruct (robust_store result text st) as (_ & _ & Ec & Eh).
  unfold RobustApp.save_button. rewrite Ec.
  split; [discriminate|]. simpl fst.
  assert (Hin : In result
                  (conversation_history
                     (Robust.save_to_history result
                        (update_session_stats text
                           (set_current_translation st (Some result)))))).
  { rewrite Eh.
    destruct (result_in result (conversation_history st)) eqn:Ein.
    - now apply result_in_In.
    - apply capped_append_In. lia. }
  apply result_in_In in Hin.
  unfold Robust.save_to_history at 1. now rewrite Hin.
Qed.

(** "Good morning" without any translation service, then the button. *)
Lemma save_after_translation_changes_nothing_witness :
  let w :=
    {| RobustApp.services_translation := false;
       RobustApp.services_tts := false;
       RobustApp.services_speech_recognition := false;
       RobustApp.translation_service := None;
       RobustApp.GoogleTranslator_translate := no_network;
       RobustApp.Translator_translate := no_network;
       RobustApp.mymemory_exchange := no_network;
       RobustApp.tts_say := fun _ => None |} in
  let r := RobustApp.translate_text w 7 (py "Good morning")
             (initial_session 0) in
  In (Success (py "Translation complete!")) (snd r)
  /\ fst (RobustApp.save_button (fst r)) = fst r.
Proof.
  intros w r.
  assert (Hok : In (Success (py "Translation complete!")) (snd r))
    by (left; vm_compute; reflexivity).
  split; [exact Hok|].
  exact (proj2 (save_after_translation_changes_nothing w 7
                  (py "Good morning") (initial_session 0) Hok)).
Defined.

(** * What the pages show *)

Section Views.

Lemma last_n_snoc {A} (n : nat) (l : list A) (x : A) :
  1 <= n -> exists front, last_n n (l ++ [x]) = front ++ [x].
Proof.
  intros Hn. unfold last_n. rewrite length_app. simpl.
  exists (skipn (List.length l + 1 - n) l).
  rewrite skipn_app.
  replace (List.length l + 1 - n - List.length l) with 0 by lia.
  reflexivity.
Qed.

Lemma capped_append_snoc (cap : nat) (h : list TranslationResult)
    (t : TranslationResult) :
  1 <= cap -> exists front, capped_append cap h t = front ++ [t].
Proof.
  intros Hcap. unfold capped_append.
  destruct (cap <? List.length (h ++ [t])).
  - now apply last_n_snoc.
  - now exists h.
Qed.

Lemma recent_head (n cap : nat) (h : list TranslationResult)
    (t : TranslationResult) :
  1 <= n -> 1 <= cap ->
  hd_error (recent n (capped_append cap h t)) = Some t.
Proof.
  intros Hn Hcap. destruct (capped_append_snoc cap h t Hcap) as [front ->].
  destruct (last_n_snoc n front t Hn) as [front' E].
  unfold recent. rewrite E, rev_app_distr. reflexivity.
Qed.

Lemma recent_length (n : nat) (h : list TranslationResult) :
  List.length (recent n h) <= n.
Proof. unfold recent. rewrite length_rev, last_n_length. lia. Qed.

End Views.

(** X12.  The list of recent translations of [render_conversation_history]
    (the last five of the history, ten in the simple variant, newest first)
    never has more entries than that, and right after [save_to_history] has
    appended a record, that record is the first one shown: in the robust and
    final variants when the record was not in the history, in the simple
    variant when no entry had the same original and translated text, in
    the working variant always. *)
Theorem recent_shows_the_newest_first :
  (forall n h, List.length (recent n h) <= n)
  /\ (forall t st,
        ~ In t (conversation_history st) ->
        hd_error (recent 5 (conversation_history
                              (Robust.save_to_history t st))) = Some t)
  /\ (forall t st,
        ~ In t (conversation_history st) ->
        hd_error (recent 5 (conversation_history
                              (Final.save_to_history t st))) = Some t)
  /\ (forall t st,
        Simple.already_in_history t (conversation_history st) = false ->
        hd_error (recent 10 (conversation_history
                               (Simple.save_to_history t st))) = Some t)
  /\ (forall t st,
        hd_error (recent 5 (conversation_history
                              (Working.save_to_history t st))) = Some t).
Proof.
  split; [exact recent_length|]. repeat split.
  - intros t st H. rewrite robust_history.
    destruct (result_in t (conversation_history st)) eqn:E.
    + apply result_in_In in E. contradiction.
    + apply recent_head; lia.
  - intros t st H. rewrite final_history.
    destruct (result_in t (conversation_history st)) eqn:E.
    + apply result_in_In in E. contradiction.
    + apply recent_head; lia.
  - intros t st H. rewrite simple_history, H. apply recent_head; lia.
  - intros t st. rewrite working_history. apply recent_head; lia.
Qed.

(** Fifty-three records saved one after the other: the one saved last is
    shown first. *)
Lemma recent_shows_the_newest_first_witness :
  ~ In (sample_result 52)
      (conversation_history
         (after_saves Robust.save_to_history
            (map sample_result (seq 0 52)) (initial_session 0)))
  /\ hd_error
       (recent 5
          (conversation_history
             (Robust.save_to_history (sample_result 52)
                (after_saves Robust.save_to_history
                   (map sample_result (seq 0 52)) (initial_session 0)))))
     = Some (sample_result 52).
Proof.
  destruct recent_shows_the_newest_first as (_ & Hrobust & _).
  assert (H : ~ In (sample_result 52)
                (conversation_history
                   (after_saves Robust.save_to_history
                      (map sample_result (seq 0 52)) (initial_session 0)))).
  { intros Hin. apply result_in_In in Hin. vm_compute in Hin.
    discriminate Hin. }
  split; [exact H|]. exact (Hrobust _ _ H).
Defined.

(** X13.  The preview of an entry in the history of the final variant is
    the original text when that has at most 40 characters, and otherwise
    its first 40 characters followed by three dots: never more than 43
    characters, and always the same first 40 characters as the text. *)
Theorem preview_is_bounded :
  forall original,
    List.length (preview original)
    = (if 40 <? List.length original then 43 else List.length original)
    /\ List.length (preview original) <= 43
    /\ firstn 40 (preview original) = firstn 40 original.
Proof.
  intros original. unfold preview.
  destruct (40 <? List.length original) eqn:E.
  - apply Nat.ltb_lt in E.
    assert (Hl : List.length (firstn 40 original) = 40)
      by (rewrite length_firstn; lia).
    repeat split.
    + rewrite length_app, Hl. reflexivity.
    + rewrite length_app, Hl. simpl. lia.
    + rewrite firstn_app, Hl, Nat.sub_diag.
      change (firstn 0 (py "...")) with (@nil ascii).
      rewrite app_nil_r, firstn_firstn. reflexivity.
  - apply Nat.ltb_ge in E. repeat split. lia.
Qed.

(** * Installation advice and the choice of the service *)

(** X14.  The words of the installation command of the robust variant are
    "pip", "install" and then, in this order, the packages for what is
    missing: SpeechRecognition, pyttsx3, and deep-translator for a missing
    translation service; names that [missing_libs] holds besides are
    ignored. *)
Theorem install_cmd_names_the_missing_packages :
  forall missing_libs,
    split (RobustApp.install_cmd missing_libs)
    = [py "pip"; py "install"]
      ++ (if RobustApp.is_missing (py "SpeechRecognition") missing_libs
          then [py "SpeechRecognition"] else [])
      ++ (if RobustApp.is_missing (py "pyttsx3") missing_libs
          then [py "pyttsx3"] else [])
      ++ (if RobustApp.is_missing (py "Translation service") missing_libs
          then [py "deep-translator"] else []).
Proof.
  intros missing_libs. unfold RobustApp.install_cmd.
  destruct (RobustApp.is_missing (py "SpeechRecognition") missing_libs),
    (RobustApp.is_missing (py "pyttsx3") missing_libs),
    (RobustApp.is_missing (py "Translation service") missing_libs);
    vm_compute; reflexivity.
Qed.

(** X15.  The choice of the translation service when the robust variant is
    loaded.  The translation is flagged as available exactly when a service
    was chosen; deep-translator is chosen whenever it can be imported; and
    when no service is available, "Translation service" is missing from
    [missing_libs] exactly when [requests] could be imported and the test
    request to MyMemory was answered (with a status other than 200). *)
Theorem translation_service_selection :
  forall i,
    let '(available, service, missing) :=
      RobustApp.select_translation_service i in
    (available = true <-> service <> None)
    /\ (RobustApp.deep_translator_importable i = true ->
        service = Some Robust.deep_translator)
    /\ (available = false ->
        (missing = []
         <-> RobustApp.requests_importable i = true
             /\ exists status_code body,
                  RobustApp.mymemory_test i
                  = Http.Response status_code body
                  /\ status_code <> 200%Z)).
Proof.
  intros [deep tr req test]. unfold RobustApp.select_translation_service.
  simpl.
  destruct deep; [intuition congruence|].
  destruct tr; [intuition congruence|].
  destruct req.
  - destruct test as [e|status_code body].
    + intuition try congruence.
      match goal with
      | H : exists _, _ |- _ => destruct H as (c & b & E & _); discriminate E
      end.
    + destruct (status_code =? 200)%Z eqn:Ec.
      * intuition congruence.
      * apply Z.eqb_neq in Ec. intuition try congruence.
        now exists status_code, body.
  - intuition congruence.
Qed.

(** * The session of the working application *)

Section WorkingSessionFacts.

Lemma working_values_nonempty :
  values_nonempty Working_data.backup_translations.
Proof. apply values_nonempty_check. vm_compute. reflexivity. Qed.

Lemma capped_append_exact_length (cap : nat) (h : list TranslationResult)
    (t : TranslationResult) :
  List.length (capped_append cap h t) = Nat.min cap (List.length h + 1).
Proof.
  unfold capped_append.
  destruct (cap <? List.length (h ++ [t])) eqn:E.
  - rewrite last_n_length, length_app. reflexivity.
  - apply Nat.ltb_ge in E. rewrite length_app in *. simpl in *. lia.
Qed.

(** The session that [translate_text] of the working variant leaves. *)
Lemma working_translate_text_session (w : WorkingApp.world) (now : Z)
    (text : str) (st : session_state) :
  fst (WorkingApp.translate_text w now text st)
  = Working.save_to_history (working_result w now text st)
      (update_session_stats text
         (set_current_translation st (Some (working_result w now text st)))).
Proof.
  unfold WorkingApp.translate_text, working_result.
  destruct (Working.translate Working_data.backup_translations
              (WorkingApp.translate_with_mymemory w)
              (WorkingApp.translate_with_libre w)
              text (source_language st) (target_language st))
    as [evs translation].
  reflexivity.
Qed.

Lemma working_save_fields (t : TranslationResult) (st : session_state) :
  source_language (Working.save_to_history t st) = source_language st
  /\ target_language (Working.save_to_history t st) = target_language st
  /\ current_translation (Working.save_to_history t st)
     = current_translation st
  /\ session_stats (Working.save_to_history t st) = session_stats st.
Proof.
  unfold Working.save_to_history. destruct (50 <? _); auto.
Qed.

Lemma working_translate_text_invariant (w : WorkingApp.world) (now : Z)
    (text : str) (st : session_state) :
  working_invariant st ->
  working_invariant (fst (WorkingApp.translate_text w now text st)).
Proof.
  intros (Hpair & [Hcur Hne] & Hcount & Hlast).
  rewrite working_translate_text_session.
  set (result := working_result w now text st).
  set (st1 := update_session_stats text
                (set_current_translation st (Some result))).
  assert (Hres : translated_text result <> []).
  { apply working_translate_nonempty. apply working_values_nonempty. }
  destruct (working_save_fields result st1) as (Es & Et & Ec & Est).
  pose proof (working_history result st1) as Eh.
  change (conversation_history st1) with (conversation_history st) in Eh.
  unfold working_invariant, supported_pair, results_nonempty.
  rewrite Es, Et, Ec, Est, Eh. simpl.
  split; [exact Hpair|]. repeat split.
  - intros r E. injection E as E. rewrite <- E. exact Hres.
  - now apply capped_append_Forall.
  - rewrite capped_append_exact_length. lia.
  - intros r E. injection E as E. rewrite <- E.
    apply capped_append_snoc. lia.
Qed.

Lemma working_act_invariant (a : WorkingApp.action) (st : session_state) :
  working_invariant st -> working_invariant (fst (WorkingApp.act a st)).
Proof.
  intros Hinv. destruct a as [| |now|w now text_input|w now i|w now heard];
    simpl.
  - destruct Hinv as (_ & H). split; [left; now split|exact H].
  - destruct Hinv as (_ & H). split; [right; now split|exact H].
  - destruct Hinv as (Hpair & _). split; [exact Hpair|].
    repeat split; simpl; try discriminate; try constructor.
  - unfold WorkingApp.translate_button.
    destruct (truthy (strip text_input)); [|exact Hinv].
    now apply working_translate_text_invariant.
  - unfold WorkingApp.quick_phrase_button.
    destruct (WorkingApp.current_phrases st) as [current|]; [|exact Hinv].
    destruct (nth_error current i) as [phrase|]; [|exact Hinv].
    now apply working_translate_text_invariant.
  - unfold WorkingApp.record_and_translate.
    destruct (negb _); [exact Hinv|].
    destruct heard as [| |e|e|text]; try exact Hinv.
    destruct (truthy (strip text)); [|exact Hinv].
    now apply working_translate_text_invariant.
Qed.

Lemma working_initial_invariant (start : Z) :
  working_invariant (initial_session start).
Proof.
  split; [left; now split|].
  repeat split; simpl; try discriminate; try constructor.
Qed.

Lemma working_run_invariant (actions : list WorkingApp.action)
    (st : session_state) :
  working_invariant st -> working_invariant (WorkingApp.run actions st).
Proof.
  unfold WorkingApp.run. revert st.
  induction actions as [|a actions IH]; intros st H; simpl; [exact H|].
  apply IH. now apply working_act_invariant.
Qed.

End WorkingSessionFacts.

(** X16.  In the working application, whatever the user does (translate,
    press a quick phrase, record, switch the languages, clear the session)
    and whatever the services answer: the language pair is one of the two
    pairs of the buttons, so that the lookup of the quick phrases never
    fails with a [KeyError]; no result of the session has an empty
    translated text; the history holds exactly as many records as the
    statistics count translations, up to its cap of 50, since every
    translation is saved without a guard; and the current translation is the
    newest record of the history. *)
Theorem working_session_invariants :
  forall actions start,
    let st := WorkingApp.run actions (initial_session start) in
    supported_pair st
    /\ (exists current, WorkingApp.current_phrases st = Some current)
    /\ results_nonempty st
    /\ (Z.of_nat (List.length (conversation_history st))
        = Z.min 50 (translations_count (session_stats st)))%Z
    /\ (forall r, current_translation st = Some r ->
                  exists front, conversation_history st = front ++ [r]).
Proof.
  intros actions start st.
  destruct (working_run_invariant actions _ (working_initial_invariant start))
    as (Hpair & Hne & Hcount & Hlast).
  fold st in Hpair, Hne, Hcount, Hlast.
  repeat split; try assumption; try apply Hne.
  unfold WorkingApp.current_phrases.
  destruct Hpair as [[-> _]|[-> _]]; eexists; reflexivity.
Qed.

(** * The session of the simple application *)

Section SimpleSessionFacts.

Lemma simple_guard_pairs (t : TranslationResult)
    (h : list TranslationResult) :
  Simple.already_in_history t h = false ->
  ~ In (text_pair t) (map text_pair h).
Proof.
  unfold Simple.already_in_history. intros Hg Hin.
  apply in_map_iff in Hin. destruct Hin as (item & Ep & Hin).
  assert (Hex : existsb
                  (fun item =>
                     eqb (original_text item) (original_text t)
                     && eqb (translated_text item) (translated_text t))
                  h = true).
  { apply existsb_exists. exists item. split; [exact Hin|].
    unfold text_pair in Ep. injection Ep as Eo Et.
    rewrite Eo, Et, !eqb_refl. reflexivity. }
  congruence.
Qed.

Lemma capped_append_pairs (cap : nat) (h : list TranslationResult)
    (t : TranslationResult) :
  NoDup (map text_pair h) ->
  ~ In (text_pair t) (map text_pair h) ->
  NoDup (map text_pair (capped_append cap h t)).
Proof.
  intros Hh Ht.
  destruct (capped_append_suffix cap h t) as (dropped & E & _).
  assert (Hall : NoDup (map text_pair (h ++ [t]))).
  { rewrite map_app. apply NoDup_app; [exact Hh|repeat constructor; auto|].
    intros x Hx [<-|[]]. contradiction. }
  rewrite E, map_app in Hall. now apply NoDup_app_remove_l in Hall.
Qed.

Lemma simple_save_fields (t : TranslationResult) (st : session_state) :
  source_language (Simple.save_to_history t st) = source_language st
  /\ target_language (Simple.save_to_history t st) = target_language st.
Proof.
  unfold Simple.save_to_history.
  destruct (Simple.already_in_history _ _); [auto|].
  destruct (100 <? _); auto.
Qed.

Lemma simple_save_invariant (t : TranslationResult) (st : session_state) :
  simple_invariant st -> simple_invariant (Simple.save_to_history t st).
Proof.
  intros (Hpair & Hlen & Hnd).
  destruct (simple_save_fields t st) as (Es & Et).
  unfold simple_invariant, supported_pair.
  rewrite Es, Et, simple_history.
  split; [exact Hpair|].
  destruct (Simple.already_in_history t (conversation_history st)) eqn:Eg.
  - now split.
  - split; [apply capped_append_length|].
    apply capped_append_pairs; [exact Hnd|].
    now apply simple_guard_pairs.
Qed.

Lemma simple_translate_text_invariant (w : SimpleApp.world) (now : Z)
    (text : str) (st : session_state) :
  simple_invariant st ->
  simple_invariant (fst (SimpleApp.translate_text w now text st)).
Proof.
  intros Hinv. unfold SimpleApp.translate_text.
  destruct (negb _); [exact Hinv|].
  destruct (SimpleApp.Translator_translate w text _ _) as [e|translation];
    [exact Hinv|].
  simpl. apply simple_save_invariant. exact Hinv.
Qed.

Lemma simple_act_invariant (a : SimpleApp.action) (st : session_state) :
  simple_invariant st -> simple_invariant (fst (SimpleApp.act a st)).
Proof.
  intros Hinv. destruct a as [| |now|w now text_input|w now heard| |]; simpl.
  - destruct Hinv as (_ & H). split; [left; now split|exact H].
  - destruct Hinv as (_ & H). split; [right; now split|exact H].
  - destruct Hinv as (Hpair & _). split; [exact Hpair|].
    split; simpl; [lia|constructor].
  - unfold SimpleApp.translate_button.
    destruct (negb _); [exact Hinv|].
    destruct (truthy (strip text_input)); [|exact Hinv].
    now apply simple_translate_text_invariant.
  - unfold SimpleApp.record_and_translate.
    destruct (negb _); [exact Hinv|].
    destruct (negb _); [exact Hinv|].
    destruct heard as [| |e|e|text]; try exact Hinv.
    destruct (truthy (strip text)); [|exact Hinv].
    now apply simple_translate_text_invariant.
  - unfold SimpleApp.save_button.
    destruct (current_translation st) as [translation|]; [|exact Hinv].
    now apply simple_save_invariant.
  - unfold SimpleApp.clear_history_button.
    destruct (conversation_history st) eqn:Eh; [exact Hinv|].
    destruct Hinv as (Hpair & _). split; [exact Hpair|].
    split; simpl; [lia|constructor].
Qed.

Lemma simple_initial_invariant (start : Z) :
  simple_invariant (initial_session start).
Proof.
  split; [left; now split|]. split; simpl; [lia|constructor].
Qed.

Lemma simple_run_invariant (actions : list SimpleApp.action)
    (st : session_state) :
  simple_invariant st -> simple_invariant (SimpleApp.run actions st).
Proof.
  unfold SimpleApp.run. revert st.
  induction actions as [|a actions IH]; intros st H; simpl; [exact H|].
  apply IH. now apply simple_act_invariant.
Qed.

End SimpleSessionFacts.

(** X17.  In the simple application, whatever the user does (translate,
    record, switch the languages, "Save to History", "Clear History", clear
    the session) and whatever googletrans and the recogniser answer or
    raise: the language pair is one of the two pairs of the buttons, the
    history holds at most 100 records, and no two records of the history
    have both the same original and the same translated text. *)
Theorem simple_session_invariants :
  forall actions start,
    let st := SimpleApp.run actions (initial_session start) in
    supported_pair st
    /\ List.length (conversation_history st) <= 100
    /\ NoDup (map text_pair (conversation_history st)).
Proof.
  intros actions start st.
  exact (simple_run_invariant actions _ (simple_initial_invariant start)).
Qed.

(** X18.  At the start of the simple application [check_dependencies]
    lets the main interface appear exactly when all four groups of imports
    succeed and none of the three constructors of [initialize_services]
    raises.  Its test of [missing_libs] decides nothing: a missing library
    leaves its service off, so the answer is that of
    "all(self.services_status.values())" alone.  In particular the buttons
    of the main interface exist only when translation, speech recognition
    and text-to-speech are all available. *)
Theorem simple_check_dependencies :
  forall i c,
    let services_status := SimpleStartup.initialize_services i c in
    (SimpleStartup.check_dependencies i services_status = true
     <-> (SimpleStartup.SPEECH_RECOGNITION_AVAILABLE i = true
          /\ SimpleStartup.TTS_AVAILABLE i = true
          /\ SimpleStartup.TRANSLATION_AVAILABLE i = true
          /\ SimpleStartup.AUDIO_PROCESSING_AVAILABLE i = true)
         /\ (SimpleStartup.recognizer_and_microphone c = true
             /\ SimpleStartup.pyttsx3_init c = true
             /\ SimpleStartup.Translator_new c = true))
    /\ SimpleStartup.check_dependencies i services_status
       = forallb (fun v => v) (map snd services_status)
    /\ (SimpleStartup.check_dependencies i services_status = true ->
        get services_status (py "translation") = Some true
        /\ get services_status (py "speech_recognition") = Some true
        /\ get services_status (py "tts") = Some true).
Proof.
  intros [sr tts tr audio] [rec init new].
  destruct sr, tts, tr, audio, rec, init, new; vm_compute;
    intuition congruence.
Qed.

(** * MyMemory in the working variant *)

Section WorkingMyMemory.

Import Http.

Lemma working_mymemory_value (r : reply) (v : json) :
  v <> JNull ->
  WorkingBackends.translate_with_mymemory r = v ->
  exists status_code body,
    r = Response status_code body /\ working_mymemory_success body v.
Proof.
  unfold WorkingBackends.translate_with_mymemory. intros Hv H.
  destruct r as [e|status_code [data|]]; backend_step;
    try (now elim Hv).
  destruct data as [| | | |s|items|members]; backend_step;
    try (now elim Hv).
  destruct (equals_int (get_default members (py "responseStatus") JNull) 200)
    eqn:Es; backend_step; [|now elim Hv].
  destruct (get members (py "responseData")) as [responseData|] eqn:Ed;
    backend_step; [|now elim Hv].
  destruct responseData as [| | | |s|items|fields]; backend_step;
    try (now elim Hv).
  destruct (get fields (py "translatedText")) as [value|] eqn:Eg;
    backend_step; [|now elim Hv].
  subst value. exists status_code, (Some (JDict members)).
  split; [reflexivity|]. now exists members, fields.
Qed.

Lemma working_mymemory_success_value (status_code : Z) (body : option json)
    (v : json) :
  working_mymemory_success body v ->
  WorkingBackends.translate_with_mymemory (Response status_code body) = v.
Proof.
  intros (members & responseData & -> & Hs & Hd & Hg).
  unfold WorkingBackends.translate_with_mymemory.
  backend_step. rewrite Hs. backend_step. rewrite Hd. backend_step.
  rewrite Hg. reflexivity.
Qed.

End WorkingMyMemory.

(** X19.  [translate_with_mymemory] of the working variant never raises, and
    returns a value other than [None] exactly when the body of the reply is
    a JSON object whose 'responseStatus' equals 200 and whose 'responseData'
    is an object with that value as 'translatedText'.  The status code of
    the reply is not looked at, and no text is filtered out. *)
Theorem working_mymemory_characterised :
  forall r v,
    v <> Http.JNull ->
    (WorkingBackends.translate_with_mymemory r = v
     <-> exists status_code body,
           r = Http.Response status_code body
           /\ working_mymemory_success body v).
Proof.
  intros r v Hv. split.
  - now apply working_mymemory_value.
  - intros (status_code & body & -> & Hs).
    now apply working_mymemory_success_value.
Qed.

(** The warning of an exhausted quota, sent with status 429, is returned
    as the translation. *)
Lemma working_mymemory_characterised_witness :
  Http.JStr (py "MYMEMORY WARNING: QUOTA EXCEEDED") <> Http.JNull
  /\ WorkingBackends.translate_with_mymemory quota_reply
     = Http.JStr (py "MYMEMORY WARNING: QUOTA EXCEEDED").
Proof.
  assert (Hv : Http.JStr (py "MYMEMORY WARNING: QUOTA EXCEEDED")
               <> Http.JNull) by discriminate.
  split; [exact Hv|].
  apply (proj2 (working_mymemory_characterised _ _ Hv)).
  eexists _, _. split; [reflexivity|].
  eexists _, _. repeat split; reflexivity.
Defined.
